(** * ia2 / tokenizer: a shallow embedding of the enclave service

    The development follows the three source files of the repository:

    - [receiver_web.go]: the HTTP receiver ([isValidApiVersion],
      [getConfTokenHandler]);
    - [ia2.go]: start-up code ([setCertFingerprint], [initAnonymization],
      [setEnvVar], [initRouter], [main]);
    - the vsock proxy ([VProxy.Start], [VProxy.pipe], [NewVProxy]).

    Bytes are integers in [0, 255]; Go strings are [string]; Go maps are
    [gmap]; [log.Fatal] is an outcome of its own ([Exited]); goroutines are
    threads of a small-step process model.  Functions of packages outside
    the repository (PEM, X.509, UUID and IP parsing) are fields of a type
    class, so that every result holds for any implementation of them. *)

From Stdlib Require Import ZArith List String Ascii Lia Bool.
From stdpp Require Import base gmap strings list pretty.

Open Scope string_scope.
Open Scope list_scope.
Open Scope Z_scope.

(** ** Common data *)

(** A byte is a [Z] in [0, 255]; a byte slice is a list of them. *)
Definition bytes := list Z.

(** Results of Go functions that return [(value, error)]. *)
Inductive result (A : Type) : Type :=
| Ok (a : A)
| Err (msg : string).
Arguments Ok {A} a.
Arguments Err {A} msg.

(** The double quote character, for the text [%q] produces. *)
Definition dquote : string := String "034"%char EmptyString.

(** [fmt]'s [%q] on a string that needs no escaping. *)
Definition fmt_q (s : string) : string := dquote +:+ s +:+ dquote.

(** [fmt]'s [%d] on an integer. *)
Definition fmt_d (n : Z) : string := pretty n.

(** [fmt]'s [%x] on a byte slice: two lower-case hexadecimal digits a byte. *)
Definition hexdigit (n : Z) : ascii :=
  nth (Z.to_nat n) (list_ascii_of_string "0123456789abcdef") "0"%char.

Fixpoint fmt_x (bs : bytes) : string :=
  match bs with
  | [] => EmptyString
  | b :: rest =>
      String (hexdigit (b / 16 mod 16)) (String (hexdigit (b mod 16)) (fmt_x rest))
  end.

(** ** crypto/sha256 *)

Module sha256.

Definition Size : nat := 32.

Definition add32 (a b : Z) : Z := (a + b) mod 2 ^ 32.

Definition rotr (n x : Z) : Z :=
  Z.lor (Z.shiftr x n) (Z.shiftl x (32 - n) mod 2 ^ 32).

Definition Ch (x y z : Z) : Z :=
  Z.lxor (Z.land x y) (Z.land (Z.lxor x (2 ^ 32 - 1)) z).

Definition Maj (x y z : Z) : Z :=
  Z.lxor (Z.lxor (Z.land x y) (Z.land x z)) (Z.land y z).

Definition bsig0 (x : Z) : Z := Z.lxor (Z.lxor (rotr 2 x) (rotr 13 x)) (rotr 22 x).
Definition bsig1 (x : Z) : Z := Z.lxor (Z.lxor (rotr 6 x) (rotr 11 x)) (rotr 25 x).
Definition ssig0 (x : Z) : Z := Z.lxor (Z.lxor (rotr 7 x) (rotr 18 x)) (Z.shiftr x 3).
Definition ssig1 (x : Z) : Z := Z.lxor (Z.lxor (rotr 17 x) (rotr 19 x)) (Z.shiftr x 10).

Definition K : list Z :=
  [1116352408; 1899447441; 3049323471; 3921009573; 961987163; 1508970993;
   2453635748; 2870763221; 3624381080; 310598401; 607225278; 1426881987;
   1925078388; 2162078206; 2614888103; 3248222580; 3835390401; 4022224774;
   264347078; 604807628; 770255983; 1249150122; 1555081692; 1996064986;
   2554220882; 2821834349; 2952996808; 3210313671; 3336571891; 3584528711;
   113926993; 338241895; 666307205; 773529912; 1294757372; 1396182291;
   1695183700; 1986661051; 2177026350; 2456956037; 2730485921; 2820302411;
   3259730800; 3345764771; 3516065817; 3600352804; 4094571909; 275423344;
   430227734; 506948616; 659060556; 883997877; 958139571; 1322822218;
   1537002063; 1747873779; 1955562222; 2024104815; 2227730452; 2361852424;
   2428436474; 2756734187; 3204031479; 3329325298].

(** The eight working words. *)
Record state := {
  ha : Z; hb : Z; hc : Z; hd : Z; he : Z; hf : Z; hg : Z; hh : Z
}.

Definition init : state :=
  {| ha := 1779033703; hb := 3144134277; hc := 1013904242; hd := 2773480762;
     he := 1359893119; hf := 2600822924; hg := 528734635; hh := 1541459225 |}.

(** Big-endian words of a block. *)
Fixpoint words (bs : bytes) : list Z :=
  match bs with
  | b0 :: b1 :: b2 :: b3 :: rest =>
      (((b0 mod 256) * 256 + b1 mod 256) * 256 + b2 mod 256) * 256 + b3 mod 256
      :: words rest
  | _ => []
  end.

(** The message schedule, built newest word first. *)
Fixpoint extend (n : nat) (ws : list Z) : list Z :=
  match n with
  | O => ws
  | S n' =>
      let w := add32 (add32 (ssig1 (nth 1 ws 0)) (nth 6 ws 0))
                     (add32 (ssig0 (nth 14 ws 0)) (nth 15 ws 0)) in
      extend n' (w :: ws)
  end.

Definition schedule (block : bytes) : list Z :=
  rev (extend 48 (rev (words block))).

Definition round (s : state) (kw : Z * Z) : state :=
  let t1 := add32 (add32 (add32 (hh s) (bsig1 (he s)))
                         (add32 (Ch (he s) (hf s) (hg s)) (fst kw))) (snd kw) in
  let t2 := add32 (bsig0 (ha s)) (Maj (ha s) (hb s) (hc s)) in
  {| ha := add32 t1 t2; hb := ha s; hc := hb s; hd := hc s;
     he := add32 (hd s) t1; hf := he s; hg := hf s; hh := hg s |}.

Definition compress (s : state) (block : bytes) : state :=
  let s' := fold_left round (combine K (schedule block)) s in
  {| ha := add32 (ha s) (ha s'); hb := add32 (hb s) (hb s');
     hc := add32 (hc s) (hc s'); hd := add32 (hd s) (hd s');
     he := add32 (he s) (he s'); hf := add32 (hf s) (hf s');
     hg := add32 (hg s) (hg s'); hh := add32 (hh s) (hh s') |}.

Definition be32 (x : Z) : bytes :=
  [x / 2 ^ 24 mod 256; x / 2 ^ 16 mod 256; x / 2 ^ 8 mod 256; x mod 256].

Definition be64 (x : Z) : bytes := be32 (x / 2 ^ 32) ++ be32 (x mod 2 ^ 32).

(** The message, the byte 0x80, zeros up to 56 modulo 64, and the length of
    the message in bits. *)
Definition pad (msg : bytes) : bytes :=
  let len := Z.of_nat (length msg) in
  msg ++ [128] ++ replicate (Z.to_nat ((55 - len) mod 64)) 0 ++ be64 (len * 8).

Fixpoint chunks (fuel : nat) (bs : bytes) : list bytes :=
  match fuel with
  | O => []
  | S fuel' =>
      match bs with
      | [] => []
      | _ => firstn 64 bs :: chunks fuel' (skipn 64 bs)
      end
  end.

Definition digest (s : state) : bytes :=
  be32 (ha s) ++ be32 (hb s) ++ be32 (hc s) ++ be32 (hd s)
  ++ be32 (he s) ++ be32 (hf s) ++ be32 (hg s) ++ be32 (hh s).

(** [sha256.Sum256]. *)
Definition Sum256 (data : bytes) : bytes :=
  let p := pad data in
  digest (fold_left compress (chunks (length p) p) init).

End sha256.

(** The bytes of an ASCII string. *)
Definition bytes_of_string (s : string) : bytes :=
  map (fun c => Z.of_nat (nat_of_ascii c)) (list_ascii_of_string s).

(** ** strconv.ParseUint(s, 10, bitSize) *)

Module strconv.

(** [IntSize] on the 64-bit targets an enclave image is built for. *)
Definition IntSize : Z := 64.

Definition maxUint64 : Z := 2 ^ 64 - 1.

(** Arithmetic on [uint64] wraps around. *)
Definition wrap64 (x : Z) : Z := x mod 2 ^ 64.

(** The digit a byte stands for in base 10, if any. *)
Definition digit_of (c : ascii) : option Z :=
  let n := Z.of_nat (nat_of_ascii c) in
  if (48 <=? n) && (n <=? 57) then Some (n - 48) else None.

(** The loop over the bytes of [s]: [n] is the value read so far.  A byte
    that is no decimal digit is a syntax error; exceeding the cutoff or
    [maxVal] is a range error. *)
Fixpoint parse_loop (maxVal : Z) (n : Z) (s : string) : result Z :=
  match s with
  | EmptyString => Ok n
  | String c s' =>
      match digit_of c with
      | None => Err "invalid syntax"
      | Some d =>
          if maxUint64 / 10 + 1 <=? n then Err "value out of range"
          else
            let n' := wrap64 (n * 10) in
            let n1 := wrap64 (n' + d) in
            if (n1 <? n') || (maxVal <? n1) then Err "value out of range"
            else parse_loop maxVal n1 s'
      end
  end.

(** [ParseUint(s, 10, bitSize)]; a [bitSize] of 0 means [IntSize]. *)
Definition ParseUint10 (s : string) (bitSize : Z) : result Z :=
  match s with
  | EmptyString => Err "invalid syntax"
  | _ =>
      let bitSize := if bitSize =? 0 then IntSize else bitSize in
      parse_loop (2 ^ bitSize - 1) 0 s
  end.

End strconv.

(** ** net/textproto: canonical header keys *)

Module textproto.

Definition code (c : ascii) : Z := Z.of_nat (nat_of_ascii c).

Definition isLower (c : ascii) : bool := (97 <=? code c) && (code c <=? 122).
Definition isUpper (c : ascii) : bool := (65 <=? code c) && (code c <=? 90).
Definition isDigit (c : ascii) : bool := (48 <=? code c) && (code c <=? 57).

(** The bytes a header field name is made of. *)
Definition validHeaderFieldByte (c : ascii) : bool :=
  isLower c || isUpper c || isDigit c
  || existsb (Ascii.eqb c) (list_ascii_of_string "!#$%&'*+-.^_`|~").

Definition toUpper (c : ascii) : ascii :=
  if isLower c then ascii_of_nat (nat_of_ascii c - 32) else c.
Definition toLower (c : ascii) : ascii :=
  if isUpper c then ascii_of_nat (nat_of_ascii c + 32) else c.

(** Upper case for the first letter and for a letter after a dash, lower
    case for the others. *)
Fixpoint canonical (upper : bool) (s : string) : string :=
  match s with
  | EmptyString => EmptyString
  | String c s' =>
      let c' := if upper then toUpper c else toLower c in
      String c' (canonical (Ascii.eqb c' "-"%char) s')
  end.

(** [CanonicalMIMEHeaderKey]: a key with a byte that is not valid in a field
    name is returned as it is. *)
Definition CanonicalMIMEHeaderKey (s : string) : string :=
  if forallb validHeaderFieldByte (list_ascii_of_string s) then canonical true s
  else s.

End textproto.

(** ** receiver_web.go *)

(** The packages the receiver calls into: [uuid.Parse] of
    github.com/google/uuid and [net.ParseIP]. *)
Class WebLibs := {
  uuid_Parse : string -> result bytes;
  net_ParseIP : string -> option bytes
}.

Definition fastlyClientIP : string := "Fastly-Client-IP".
Definition indexPage : string := "This request is handled by tokenizer.".

Definition errBadApiVersion : string := "invalid ads API version".
Definition errBadWalletFmt : string := "wallet ID has bad format".
Definition errNoFastlyHeader : string :=
  "found no " +:+ fmt_q fastlyClientIP +:+ " header".
Definition errBadFastlyAddrFormat : string :=
  "bad IP address format in " +:+ fmt_q fastlyClientIP +:+ " header".

Definition StatusBadRequest : Z := 400.
Definition StatusOK : Z := 200.

(** [clientRequest]: the client's address and wallet identifier. *)
Record clientRequest := {
  Addr : bytes;
  Wallet : bytes
}.

(** What a handler sees of [*http.Request]: the URL parameters chi matched
    and the header, a map from canonical keys to the values of each. *)
Record Request := {
  urlParams : gmap string string;
  header : gmap string (list string)
}.

(** [chi.URLParam]: the empty string when the parameter is not there. *)
Definition chi_URLParam (r : Request) (key : string) : string :=
  default EmptyString (urlParams r !! key).

(** [Header.Get]: the first value of the key in canonical form, the empty
    string without one. *)
Definition Header_Get (h : gmap string (list string)) (key : string) : string :=
  match h !! textproto.CanonicalMIMEHeaderKey key with
  | Some (v :: _) => v
  | _ => EmptyString
  end.

(** [Header.Set]: the key in canonical form gets the one value. *)
Definition Header_Set (h : gmap string (list string)) (key value : string)
  : gmap string (list string) :=
  <[textproto.CanonicalMIMEHeaderKey key := [value]]> h.

(** Whether a header has an entry for a key. *)
Definition Header_has (h : gmap string (list string)) (key : string) : Prop :=
  is_Some (h !! textproto.CanonicalMIMEHeaderKey key).

(** What a handler acts on: the response writer, the response counter
    [m.webResponses] (by code and body label) and the records sent on the
    inbox channel, oldest first. *)
Record HandlerState := {
  statusCode : option Z;
  body : string;
  webResponses : gmap (string * string) nat;
  inboxSent : list clientRequest
}.

(** The status a client receives: 200 when the handler never wrote one. *)
Definition responseCode (s : HandlerState) : Z :=
  default StatusOK (statusCode s).

(** [http.Error]: the status line, then the text and a newline. *)
Definition http_Error (text : string) (code : Z) (s : HandlerState)
  : HandlerState :=
  {| statusCode := Some (default code (statusCode s));
     body := body s +:+ text +:+ String "010"%char EmptyString;
     webResponses := webResponses s;
     inboxSent := inboxSent s |}.

(** [m.webResponses.With(labels).Inc()]. *)
Definition webResponses_Inc (code bodyLabel : string) (s : HandlerState)
  : HandlerState :=
  {| statusCode := statusCode s;
     body := body s;
     webResponses :=
       <[(code, bodyLabel) := S (default 0%nat (webResponses s !! (code, bodyLabel)))]>
         (webResponses s);
     inboxSent := inboxSent s |}.

(** [inbox <- req]: the handler goes on once the consumer has taken the
    record. *)
Definition inbox_send (req : clientRequest) (s : HandlerState) : HandlerState :=
  {| statusCode := statusCode s;
     body := body s;
     webResponses := webResponses s;
     inboxSent := inboxSent s ++ [req] |}.

(** [indexHandler]: the index page and a newline. *)
Definition indexHandler (s : HandlerState) : HandlerState :=
  {| statusCode := Some (default StatusOK (statusCode s));
     body := body s +:+ indexPage +:+ String "010"%char EmptyString;
     webResponses := webResponses s;
     inboxSent := inboxSent s |}.

(** [isValidApiVersion]: versions 1, 2, 3 and 4. *)
Definition isValidApiVersion (v : string) : bool :=
  match strconv.ParseUint10 v 0 with
  | Err _ => false
  | Ok num => (1 <=? num) && (num <=? 4)
  end.

(** The specification's reading of a version: the value of a non-empty
    string of decimal digits, as a mathematical integer (no bound). *)
Fixpoint decimal_loop (n : Z) (s : string) : option Z :=
  match s with
  | EmptyString => Some n
  | String c s' =>
      match strconv.digit_of c with
      | None => None
      | Some d => decimal_loop (n * 10 + d) s'
      end
  end.

Definition decimal_value (s : string) : option Z :=
  match s with
  | EmptyString => None
  | _ => decimal_loop 0 s
  end.

Section Receiver.
Context `{WebLibs}.

(** The closure [errAndReport] of [getConfTokenHandler]. *)
Definition errAndReport (text : string) (code : Z) (s : HandlerState)
  : HandlerState :=
  webResponses_Inc (fmt_d code) text (http_Error text code s).

(** The handler [getConfTokenHandler(inbox)] returns, run on one request. *)
Definition getConfTokenHandler (r : Request) (s : HandlerState) : HandlerState :=
  if negb (isValidApiVersion (chi_URLParam r "version")) then
    errAndReport errBadApiVersion StatusBadRequest s
  else
    let rawWalletID := chi_URLParam r "walletID" in
    match uuid_Parse rawWalletID with
    | Err _ => errAndReport errBadWalletFmt StatusBadRequest s
    | Ok walletID =>
        let rawAddr := Header_Get (header r) fastlyClientIP in
        if bool_decide (rawAddr = EmptyString) then
          errAndReport errNoFastlyHeader StatusBadRequest s
        else
          match net_ParseIP rawAddr with
          | None => errAndReport errBadFastlyAddrFormat StatusBadRequest s
          | Some addr =>
              inbox_send {| Addr := addr; Wallet := walletID |}
                (webResponses_Inc "200" EmptyString s)
          end
    end.

(** The four reasons a request is refused with. *)
Definition refusalReasons : list string :=
  [errBadApiVersion; errBadWalletFmt; errNoFastlyHeader; errBadFastlyAddrFormat].

(** The four ways a request can be wrong: the version is not accepted, the
    wallet identifier is no UUID, the trusted header is absent, or its value
    is no IP literal. *)
Definition badRequest (r : Request) : Prop :=
  isValidApiVersion (chi_URLParam r "version") = false
  \/ (exists e, uuid_Parse (chi_URLParam r "walletID") = Err e)
  \/ ~ Header_has (header r) fastlyClientIP
  \/ net_ParseIP (Header_Get (header r) fastlyClientIP) = None.

End Receiver.

(** A response writer nothing was written to yet, with the counters and the
    inbox as earlier requests left them. *)
Definition freshResponse (m : gmap (string * string) nat)
    (q : list clientRequest) : HandlerState :=
  {| statusCode := None; body := EmptyString; webResponses := m; inboxSent := q |}.

(** An implementation of the two parsers on one UUID and one address, to run
    the handler on concrete requests. *)
Definition sampleUUID : string := "6ba7b810-9dad-11d1-80b4-00c04fd430c8".
Definition sampleUUIDBytes : bytes :=
  [107; 167; 184; 16; 157; 173; 17; 209; 128; 180; 0; 192; 79; 212; 48; 200].
Definition sampleIP : string := "203.0.113.7".
Definition sampleIPBytes : bytes :=
  [0; 0; 0; 0; 0; 0; 0; 0; 0; 0; 255; 255; 203; 0; 113; 7].

#[local] Instance sampleWebLibs : WebLibs := {
  uuid_Parse s :=
    if bool_decide (s = sampleUUID) then Ok sampleUUIDBytes
    else Err "invalid UUID format";
  net_ParseIP s :=
    if bool_decide (s = sampleIP) then Some sampleIPBytes else None
}.

Definition sampleRequest (version : string) (hdr : gmap string (list string))
  : Request :=
  {| urlParams := <["version" := version]> (<["walletID" := sampleUUID]> ∅);
     header := hdr |}.

(** ** ia2.go: the process and its globals *)

(** Network connections are named by numbers. *)
Definition ConnId := nat.

(** What the process does that an observer can see, in the order it happens. *)
Inductive Event : Type :=
| EvLog (line : string)            (* a line written through package log *)
| EvRandRead (size : nat)          (* rand.Read on a buffer of [size] bytes *)
| EvSetenv (key value : string)    (* os.Setenv succeeded *)
| EvListen (addr : string)         (* net.Listen("tcp", addr) returned a listener *)
| EvReady                          (* [done <- true] met [<-done] *)
| EvAcceptCall                     (* ln.Accept is called *)
| EvAccept (c : ConnId)            (* ln.Accept returned connection [c] *)
| EvDial (cid port : Z) (c : ConnId) (* vsock.Dial(cid, port) returned [c] *)
| EvGoPipe (src dst : ConnId)      (* go p.pipe(src, dst) *)
| EvExit (code : Z).               (* os.Exit(code) *)

(** ** github.com/Yawning/cryptopan: the constructor *)

Module cryptopan.

(** [Size]: a 16-byte AES key and a 16-byte pad. *)
Definition Size : nat := 32.

(** A [Cryptopan] object is determined by the key it was made from. *)
Record Cryptopan := { key : bytes }.

(** [New] accepts keys of [Size] bytes and no others. *)
Definition New (k : bytes) : result Cryptopan :=
  if bool_decide (length k = Size) then Ok {| key := k |}
  else Err ("invalid key size " +:+ fmt_d (Z.of_nat (length k))).

End cryptopan.

(** The compile-time configuration: the constants of [ia2.go]. *)
Record Config := {
  useAcme : bool;
  debug : bool;
  useCryptoPAn : bool;
  fqdn : string;
  srvPort : Z;
  flushInterval : Z;
  kafkaBridgeURL : string
}.

(** The constants as the source sets them. *)
Definition sourceConfig : Config :=
  {| useAcme := false; debug := true; useCryptoPAn := true; fqdn := "TODO";
     srvPort := 8080; flushInterval := 300;
     kafkaBridgeURL := "http://127.0.0.1:8081" |}.

Definition acmeCertCacheDir : string := "cert-cache".
Definition hmacKeySize : nat := 20.

(** The package-level variables, the process environment, the bytes the
    system's random source will deliver, and what happened so far. *)
Record World := {
  certSha256 : bytes;                         (* [sha256.Size]byte *)
  hmacKey : option bytes;                     (* []byte, [None] is nil *)
  cryptoPAn : option cryptopan.Cryptopan;     (* pointer, [None] is nil *)
  environ : gmap string string;
  entropy : bytes;
  trace : list Event
}.

(** The world a process starts in: every variable has its zero value. *)
Definition initialWorld (env : gmap string string) (rnd : bytes) : World :=
  {| certSha256 := replicate sha256.Size 0; hmacKey := None; cryptoPAn := None;
     environ := env; entropy := rnd; trace := [] |}.

Definition set_certSha256 (v : bytes) (w : World) : World :=
  {| certSha256 := v; hmacKey := hmacKey w; cryptoPAn := cryptoPAn w;
     environ := environ w; entropy := entropy w; trace := trace w |}.

Definition set_hmacKey (v : option bytes) (w : World) : World :=
  {| certSha256 := certSha256 w; hmacKey := v; cryptoPAn := cryptoPAn w;
     environ := environ w; entropy := entropy w; trace := trace w |}.

Definition set_cryptoPAn (v : option cryptopan.Cryptopan) (w : World) : World :=
  {| certSha256 := certSha256 w; hmacKey := hmacKey w; cryptoPAn := v;
     environ := environ w; entropy := entropy w; trace := trace w |}.

Definition set_environ (v : gmap string string) (w : World) : World :=
  {| certSha256 := certSha256 w; hmacKey := hmacKey w; cryptoPAn := cryptoPAn w;
     environ := v; entropy := entropy w; trace := trace w |}.

Definition set_entropy (v : bytes) (w : World) : World :=
  {| certSha256 := certSha256 w; hmacKey := hmacKey w; cryptoPAn := cryptoPAn w;
     environ := environ w; entropy := v; trace := trace w |}.

Definition add_events (es : list Event) (w : World) : World :=
  {| certSha256 := certSha256 w; hmacKey := hmacKey w; cryptoPAn := cryptoPAn w;
     environ := environ w; entropy := entropy w; trace := trace w ++ es |}.

(** The lines written through package log, oldest first. *)
Definition logLines (w : World) : list string :=
  omap (fun e => match e with EvLog l => Some l | _ => None end) (trace w).

(** The sizes of the reads from the random source, oldest first. *)
Definition randReads (w : World) : list nat :=
  omap (fun e => match e with EvRandRead n => Some n | _ => None end) (trace w).

(** How a function call ends: it returns, the process exits inside it
    ([log.Fatal]), or the model ran out of steps. *)
Inductive outcome (A : Type) : Type :=
| Returned (a : A)
| Exited (code : Z)
| OutOfFuel.
Arguments Returned {A} a.
Arguments Exited {A} code.
Arguments OutOfFuel {A}.

(** Sequential code: a function from the world to an outcome and a world. *)
Definition M (A : Type) : Type := World -> outcome A * World.

Definition ret {A} (a : A) : M A := fun w => (Returned a, w).

Definition bind {A B} (m : M A) (k : A -> M B) : M B :=
  fun w =>
    match m w with
    | (Returned a, w') => k a w'
    | (Exited c, w') => (Exited c, w')
    | (OutOfFuel, w') => (OutOfFuel, w')
    end.

Declare Scope go_scope.
Delimit Scope go_scope with go.
Notation "x <- m ;; k" := (bind m (fun x => k))
  (at level 100, m at next level, k at level 200, right associativity) : go_scope.
Notation "m ;; k" := (bind m (fun _ => k))
  (at level 100, k at level 200, right associativity) : go_scope.
Open Scope go_scope.

Definition get {A} (f : World -> A) : M A := fun w => (Returned (f w), w).
Definition modify (f : World -> World) : M unit := fun w => (Returned tt, f w).
Definition emit (e : Event) : M unit := modify (add_events [e]).

(** [log.Printf] and [log.Println]: one line. *)
Definition log_Printf (line : string) : M unit := emit (EvLog line).

(** [log.Fatal] and [log.Fatalf]: one line, then [os.Exit(1)]. *)
Definition log_Fatal {A} (line : string) : M A :=
  fun w => (Exited 1, add_events [EvLog line; EvExit 1] w).

(** [rand.Read(b)] on a buffer of [n] bytes: it fills the buffer from the
    system's source, and fails when the source cannot deliver [n] bytes. *)
Definition rand_Read (n : nat) : M (result bytes) :=
  emit (EvRandRead n) ;;
  avail <- get entropy ;;
  if bool_decide (n <= length avail)%nat then
    modify (set_entropy (skipn n avail)) ;;
    ret (Ok (firstn n avail))
  else
    modify (set_entropy []) ;;
    ret (Err "unexpected EOF").

(** [os.Setenv]: a key that is empty or holds [=] or NUL, and a value that
    holds NUL, are invalid arguments. *)
Definition has_char (c : ascii) (s : string) : bool :=
  existsb (Ascii.eqb c) (list_ascii_of_string s).

Definition os_Setenv (key value : string) : M (option string) :=
  if bool_decide (key = EmptyString) || has_char "="%char key
     || has_char "000"%char key || has_char "000"%char value
  then ret (Some "setenv: invalid argument")
  else
    env <- get environ ;;
    modify (set_environ (<[key := value]> env)) ;;
    emit (EvSetenv key value) ;;
    ret None.

(** [setEnvVar]. *)
Definition setEnvVar (key value : string) : M unit :=
  err <- os_Setenv key value ;;
  match err with
  | Some e =>
      log_Fatal ("Failed to set " +:+ fmt_q key +:+ " to " +:+ fmt_q value
                 +:+ ": " +:+ e)
  | None => ret tt
  end.

(** [initAnonymization]. *)
Definition initAnonymization (useCryptoPAn : bool) : M unit :=
  if negb useCryptoPAn then
    log_Printf "Using HMAC-SHA256 for IP address anonymization." ;;
    modify (set_hmacKey (Some (replicate hmacKeySize 0))) ;;
    r <- rand_Read hmacKeySize ;;
    match r with
    | Err e => log_Fatal e
    | Ok k =>
        modify (set_hmacKey (Some k)) ;;
        log_Printf ("HMAC key: " +:+ fmt_x k)
    end
  else
    log_Printf "Using Crypto-PAn for IP address anonymization." ;;
    r <- rand_Read cryptopan.Size ;;
    match r with
    | Err e => log_Fatal e
    | Ok buf =>
        log_Printf ("Crypto-PAn key: " +:+ fmt_x buf) ;;
        match cryptopan.New buf with
        | Err e => modify (set_cryptoPAn None) ;; log_Fatal e
        | Ok c => modify (set_cryptoPAn (Some c))
        end
    end.

(** The size of the key each strategy needs. *)
Definition keySize (useCryptoPAn : bool) : nat :=
  if useCryptoPAn then cryptopan.Size else hmacKeySize.

(** ** ia2.go: the certificate fingerprint *)

(** [pem.Block] and [x509.Certificate], the fields the code reads. *)
Record pem_Block := { blockType : string; blockBytes : bytes }.
Record x509_Certificate := { Raw : bytes; IsCA : bool }.

(** [pem.Decode] returns the next block, if it finds one, and the rest of
    the input; [x509.ParseCertificate] parses one DER certificate. *)
Class CertLibs := {
  pem_Decode : bytes -> option pem_Block * bytes;
  x509_ParseCertificate : bytes -> result x509_Certificate
}.

Section Fingerprint.
Context `{CertLibs}.

(** The loop of [setCertFingerprint].  [rest] is the variable declared
    before the loop: the [rest] that [pem.Decode] assigns is another one,
    declared in the body, so the condition always reads the first. *)
Fixpoint setCertFingerprint_loop (fuel : nat) (rest : option bytes)
    (rawData : bytes) : M unit :=
  match fuel with
  | O => fun w => (OutOfFuel, w)
  | S fuel' =>
      match rest with
      | None => ret tt
      | Some _ =>
          let '(block, rest') := pem_Decode rawData in
          match block with
          | None =>
              log_Fatal "pem.Decode failed because it didn't find PEM data in the input we provided."
          | Some block =>
              if bool_decide (blockType block = "CERTIFICATE") then
                match x509_ParseCertificate (blockBytes block) with
                | Err e => log_Fatal ("Failed to parse X509 certificate: " +:+ e)
                | Ok cert =>
                    if negb (IsCA cert) then
                      modify (set_certSha256 (sha256.Sum256 (Raw cert))) ;;
                      h <- get certSha256 ;;
                      log_Printf ("SHA-256 of server's certificate: " +:+ fmt_x h)
                    else setCertFingerprint_loop fuel' rest rest'
                end
              else setCertFingerprint_loop fuel' rest rest'
          end
      end
  end.

(** [setCertFingerprint]: each turn of the loop consumes input, so one turn
    more than the input has bytes is enough. *)
Definition setCertFingerprint (rawData : bytes) : M unit :=
  setCertFingerprint_loop (S (length rawData)) (Some []) rawData.

(** The blocks successive calls of [pem.Decode] find in an input, each call
    on what the one before left. *)
Fixpoint pemBlocks (fuel : nat) (data : bytes) : list pem_Block :=
  match fuel with
  | O => []
  | S fuel' =>
      match pem_Decode data with
      | (Some b, rest) => b :: pemBlocks fuel' rest
      | (None, _) => []
      end
  end.

Definition pemChain (data : bytes) : list pem_Block :=
  pemBlocks (S (length data)) data.

(** What an entry of a chain is to [setCertFingerprint]. *)
Inductive Entry : Type :=
| NotCertificate
| Unparsable (e : string)
| Authority (c : x509_Certificate)
| Leaf (c : x509_Certificate).

Definition classify (b : pem_Block) : Entry :=
  if bool_decide (blockType b = "CERTIFICATE") then
    match x509_ParseCertificate (blockBytes b) with
    | Err e => Unparsable e
    | Ok c => if IsCA c then Authority c else Leaf c
    end
  else NotCertificate.

(** The entries the loop steps over: blocks of another type, and
    certificates of authorities. *)
Definition skipped (b : pem_Block) : Prop :=
  classify b = NotCertificate \/ exists c, classify b = Authority c.

Definition notLeaf (b : pem_Block) : Prop := forall c, classify b <> Leaf c.

(** [pem.Decode] consumes input whenever it returns a block. *)
Definition pem_Decode_consumes : Prop :=
  forall data b rest,
    pem_Decode data = (Some b, rest) -> (length rest < length data)%nat.

End Fingerprint.

(** An implementation of the two parsers on a toy encoding, to run
    [setCertFingerprint] on concrete input: an entry is a tag byte (1 for a
    certificate), a length byte and that many bytes of content; a certificate
    whose content starts with the byte 1 is an authority's. *)
#[local] Instance sampleCertLibs : CertLibs := {
  pem_Decode data :=
    match data with
    | tag :: n :: rest =>
        if bool_decide (Z.to_nat n <= length rest)%nat then
          (Some {| blockType := if tag =? 1 then "CERTIFICATE" else "PRIVATE KEY";
                   blockBytes := firstn (Z.to_nat n) rest |},
           skipn (Z.to_nat n) rest)
        else (None, data)
    | _ => (None, data)
    end;
  x509_ParseCertificate der :=
    match der with
    | [] => Err "x509: malformed certificate"
    | b :: _ => Ok {| Raw := der; IsCA := b =? 1 |}
    end
}.

(** A chain in the toy encoding: a key, an authority's certificate and a
    leaf certificate. *)
Definition sampleChain : bytes :=
  [0; 2; 9; 9] ++ [1; 3; 1; 7; 7] ++ [1; 4; 0; 5; 6; 7].

(** The same without the leaf. *)
Definition sampleChainNoLeaf : bytes := [0; 2; 9; 9] ++ [1; 3; 1; 7; 7].

(** ** ia2.go: the router *)

(** The handlers [initRouter] installs.  [nitro.GetAttestationHandler] takes
    the hash as an array, by value: the handler it returns holds the bytes it
    was called with. *)
Inductive Handler : Type :=
| AttestationHandler (certHash : bytes)
| addressHandler
| confTokenHandler.

Record Route := { method : string; pattern : string; handler : Handler }.
Record Router := { middlewares : list string; routes : list Route }.

(** [initRouter]. *)
Definition initRouter : M Router :=
  h <- get certSha256 ;;
  ret {| middlewares := ["Logger"];
         routes :=
           [ {| method := "GET"; pattern := "/attest";
                handler := AttestationHandler h |};
             {| method := "POST"; pattern := "/address";
                handler := addressHandler |};
             {| method := "GET"; pattern := "/v1/confirmation/token/{walletID}";
                handler := confTokenHandler |} ] |}.

(** The handler a router runs for a method and a path pattern. *)
Definition route (r : Router) (meth pat : string) : option Handler :=
  handler <$> find (fun rt => bool_decide (method rt = meth)
                              && bool_decide (pattern rt = pat)) (routes r).

(** The hash a router's [GET /attest] puts in the attestation document. *)
Definition attestedHash (r : Router) : option bytes :=
  match route r "GET" "/attest" with
  | Some (AttestationHandler h) => Some h
  | _ => None
  end.

(** ** The vsock proxy: [NewVProxy] and [VProxy.Start] *)

Definition parentCID : Z := 3.
Definition bindAddr : string := "127.0.0.1:1080".

(** [VProxy]: the vsock address to dial (context identifier and port) and
    the local TCP address. *)
Record VProxy := { raddr : Z * Z; laddr : string }.

(** [net.ResolveTCPAddr] on a literal address and port. *)
Definition net_ResolveTCPAddr (addr : string) : result string := Ok addr.

(** [NewVProxy]. *)
Definition NewVProxy : result VProxy :=
  match net_ResolveTCPAddr "127.0.0.1:1080" with
  | Err e => Err e
  | Ok l => Ok {| raddr := (parentCID, 1080); laddr := l |}
  end.

(** Where the goroutine running [Start] stands. *)
Inductive ProxyPc : Type :=
| AtListen                  (* before net.Listen *)
| AtSignal                  (* blocked in [done <- true] *)
| AtLoop                    (* at the head of the loop *)
| AtAccept                  (* blocked in ln.Accept *)
| AtDial (lconn : ConnId).  (* blocked in vsock.Dial *)

#[global] Instance ProxyPc_eq_dec : EqDecision ProxyPc.
Proof. solve_decision. Defined.

(** What the world outside decides, one decision a step. *)
Inductive Input : Type :=
| RunMain                             (* the main goroutine runs to its next stop *)
| RunProxy                            (* [Start] runs to its next stop *)
| ListenResult (err : option string)  (* net.Listen returns *)
| Rendezvous                          (* [done <- true] meets [<-done] *)
| AcceptResult (r : result ConnId)    (* ln.Accept returns *)
| DialResult (r : result ConnId)      (* vsock.Dial returns *)
| CacheResult (r : result bytes).     (* cache.Get returns, in [setupAcme] *)

(** [Start], from one stop to the next: the new position and the forwarding
    goroutines started on the way, as (source, destination).  The send on
    [done] is the step [Rendezvous] of the process below. *)
Definition Start (p : VProxy) (pc : ProxyPc) (i : Input)
  : option (M (ProxyPc * list (ConnId * ConnId))) :=
  match pc, i with
  | AtListen, ListenResult (Some e) =>
      Some (log_Fatal ("Failed to bind to " +:+ bindAddr +:+ ": " +:+ e))
  | AtListen, ListenResult None =>
      Some (emit (EvListen bindAddr) ;; ret (AtSignal, []))
  | AtLoop, RunProxy =>
      Some (log_Printf "Waiting for new outgoing TCP connection." ;;
            emit EvAcceptCall ;;
            ret (AtAccept, []))
  | AtAccept, AcceptResult (Err e) =>
      Some (log_Printf ("Failed to accept proxy connection: " +:+ e) ;;
            ret (AtLoop, []))
  | AtAccept, AcceptResult (Ok lconn) =>
      Some (emit (EvAccept lconn) ;;
            log_Printf "Accepted new outgoing TCP connection." ;;
            ret (AtDial lconn, []))
  | AtDial lconn, DialResult (Err e) =>
      Some (log_Printf ("Failed to establish connection to SOCKS proxy: " +:+ e) ;;
            ret (AtLoop, []))
  | AtDial lconn, DialResult (Ok rconn) =>
      Some (emit (EvDial (fst (raddr p)) (snd (raddr p)) rconn) ;;
            log_Printf "Established connection with SOCKS proxy over vsock." ;;
            emit (EvGoPipe lconn rconn) ;;
            emit (EvGoPipe rconn lconn) ;;
            ret (AtLoop, [(lconn, rconn); (rconn, lconn)]))
  | _, _ => None
  end.

(** ** The vsock proxy: connections and [VProxy.pipe] *)

(** What a peer will deliver on a connection: some bytes, or an error (the
    end of the stream is one), possibly with bytes. *)
Inductive RxItem : Type :=
| RxData (bs : bytes)
| RxErr (bs : bytes) (msg : string).

(** How a write on a connection goes: all bytes are taken; only [n] of them
    and no error; or only [n] of them and an error. *)
Inductive TxItem : Type :=
| TxAll
| TxShort (n : nat)
| TxErr (n : nat) (msg : string).

(** A [net.Conn]: what is still to arrive, how the next writes go (they
    succeed when nothing is listed), the bytes written so far, and whether
    the connection is closed. *)
Record Conn := {
  rx : list RxItem;
  tx : list TxItem;
  sent : bytes;
  closed : bool
}.

(** What the forwarding goroutines do, in order. *)
Inductive NetEvent : Type :=
| NRead (c : ConnId) (bufLen : nat) (data : bytes) (err : option string)
| NWrite (c : ConnId) (data : bytes) (n : nat) (err : option string)
| NClose (c : ConnId) (err : option string)
| NLog (line : string).

(** The connections of the process, shared by all goroutines, and the
    events so far. *)
Record NetState := {
  conns : gmap ConnId Conn;
  netTrace : list NetEvent
}.

Definition errClosed : string := "use of closed network connection".

Definition net_event (e : NetEvent) (st : NetState) : NetState :=
  {| conns := conns st; netTrace := netTrace st ++ [e] |}.

Definition net_update (c : ConnId) (k : Conn) (st : NetState) : NetState :=
  {| conns := <[c := k]> (conns st); netTrace := netTrace st |}.

(** [c.Read(buf)] with a buffer of [bufLen] bytes: [None] when the call
    blocks for ever (the peer is silent), else the bytes read and the
    error.  Bytes that do not fit the buffer stay for the next call. *)
Definition conn_Read (c : ConnId) (bufLen : nat) (st : NetState)
  : option (bytes * option string) * NetState :=
  match conns st !! c with
  | None =>
      (Some ([], Some errClosed), net_event (NRead c bufLen [] (Some errClosed)) st)
  | Some k =>
      if closed k then
        (Some ([], Some errClosed), net_event (NRead c bufLen [] (Some errClosed)) st)
      else
        match rx k with
        | [] => (None, st)
        | RxErr bs msg :: rest =>
            let n := Nat.min bufLen (length bs) in
            (Some (firstn n bs, Some msg),
             net_event (NRead c bufLen (firstn n bs) (Some msg))
               (net_update c {| rx := rest; tx := tx k; sent := sent k;
                                closed := closed k |} st))
        | RxData bs :: rest =>
            let n := Nat.min bufLen (length bs) in
            let left := if (n <? length bs)%nat then RxData (skipn n bs) :: rest
                        else rest in
            (Some (firstn n bs, None),
             net_event (NRead c bufLen (firstn n bs) None)
               (net_update c {| rx := left; tx := tx k; sent := sent k;
                                closed := closed k |} st))
        end
  end.

(** [c.Write(b)]: the number of bytes written and the error. *)
Definition conn_Write (c : ConnId) (b : bytes) (st : NetState)
  : (nat * option string) * NetState :=
  match conns st !! c with
  | None => ((O, Some errClosed), net_event (NWrite c b 0 (Some errClosed)) st)
  | Some k =>
      if closed k then
        ((O, Some errClosed), net_event (NWrite c b 0 (Some errClosed)) st)
      else
        let '(n, err) :=
          match tx k with
          | [] | TxAll :: _ => (length b, None)
          | TxShort n :: _ => (Nat.min n (length b), None)
          | TxErr n msg :: _ => (Nat.min n (length b), Some msg)
          end in
        ((n, err),
         net_event (NWrite c b n err)
           (net_update c {| rx := rx k; tx := tail (tx k);
                            sent := sent k ++ firstn n b; closed := closed k |} st))
  end.

(** [c.Close()]: the error, if any. *)
Definition conn_Close (c : ConnId) (st : NetState) : option string * NetState :=
  match conns st !! c with
  | None => (Some errClosed, net_event (NClose c (Some errClosed)) st)
  | Some k =>
      if closed k then (Some errClosed, net_event (NClose c (Some errClosed)) st)
      else
        (None,
         net_event (NClose c None)
           (net_update c {| rx := rx k; tx := tx k; sent := sent k;
                            closed := true |} st))
  end.

(** How a run of the loop of [pipe] ends: the function returns, the
    goroutine blocks in [Read] for ever, or the model ran out of steps with
    the loop still turning. *)
Inductive PipeEnd : Type := PipeReturned | PipeBlocked | PipeRunning.

(** The size of the buffer of [pipe]: [0xffff]. *)
Definition pipeBufSize : nat := Z.to_nat 0xffff.

(** The loop of [pipe], at most [fuel] turns of it. *)
Fixpoint pipe_loop (fuel : nat) (src dst : ConnId) (st : NetState)
  : PipeEnd * NetState :=
  match fuel with
  | O => (PipeRunning, st)
  | S fuel' =>
      match conn_Read src pipeBufSize st with
      | (None, st1) => (PipeBlocked, st1)
      | (Some (_, Some e), st1) =>
          (PipeReturned,
           net_event (NLog ("Failed to read from src connection: " +:+ e)) st1)
      | (Some (b, None), st1) =>
          match conn_Write dst b st1 with
          | ((_, Some e), st2) =>
              (PipeReturned,
               net_event (NLog ("Failed to write to dst connection: " +:+ e)) st2)
          | ((n, None), st2) =>
              if bool_decide (n <> length b) then
                (PipeReturned,
                 net_event (NLog ("Only wrote " +:+ fmt_d (Z.of_nat n) +:+ " out of "
                                  +:+ fmt_d (Z.of_nat (length b)) +:+ " bytes.")) st2)
              else pipe_loop fuel' src dst st2
          end
      end
  end.

(** [pipe]: the loop, and the deferred function when the loop returns. *)
Definition pipe (fuel : nat) (src dst : ConnId) (st : NetState)
  : PipeEnd * NetState :=
  match pipe_loop fuel src dst st with
  | (PipeReturned, st1) =>
      match conn_Close src st1 with
      | (Some e, st2) =>
          (PipeReturned, net_event (NLog ("Failed to close connection: " +:+ e)) st2)
      | (None, st2) => (PipeReturned, st2)
      end
  | other => other
  end.

(** Whether a connection is known and closed. *)
Definition isClosed (st : NetState) (c : ConnId) : option bool :=
  closed <$> conns st !! c.

(** A connection nothing happened on yet. *)
Definition freshConn (arrives : list RxItem) (writes : list TxItem) : Conn :=
  {| rx := arrives; tx := writes; sent := []; closed := false |}.

(** Two connections, numbered 1 and 2. *)
Definition twoConns (a b : Conn) : NetState :=
  {| conns := <[1%nat := a]> (<[2%nat := b]> ∅); netTrace := [] |}.

(** ** ia2.go: [main] and the process *)

(** What the platform answers during start-up: the [-local] flag, the errors
    of the two Nitro calls, of [os.MkdirAll] and of the listener of the web
    server, and the certificate a self-signed start produces. *)
Record Platform := {
  ignoreNitro : bool;
  seedEntropyPool : option string;
  assignLoAddr : option string;
  mkdirAll : option string;
  selfSignedCert : result bytes;
  serverListen : option string
}.

Definition fail_on {A} (err : option string) (msg : string) (k : M A) : M A :=
  match err with
  | Some e => log_Fatal (msg +:+ e)
  | None => k
  end.

(** [main] up to the start of the proxy: the debug banner, the Nitro calls,
    the router, the anonymization key and [NewVProxy].  The goroutine a
    debug build starts after the banner, which each second logs the request
    rate when it is positive, is left out: it is no thread of the process
    below, and no code of these files increments the counter it reads. *)
Definition main_init (cfg : Config) (pf : Platform) : M (Router * VProxy) :=
  (if debug cfg then log_Printf "Enabling debug mode." else ret tt) ;;
  (if negb (ignoreNitro pf) then
     fail_on (seedEntropyPool pf)
       "Failed to initialize the system's entropy pool: "
       (fail_on (assignLoAddr pf) "Failed to assign address to lo: " (ret tt))
   else ret tt) ;;
  log_Printf "Setting up HTTP handlers." ;;
  router <- initRouter ;;
  initAnonymization (useCryptoPAn cfg) ;;
  match NewVProxy with
  | Err e => log_Fatal ("Failed to initialize vsock proxy: " +:+ e)
  | Ok vproxy => ret (router, vproxy)
  end.

Section Main.
Context `{CertLibs}.

(** Modelled from the spec: [genSelfSignedCert] is defined in a file of the
    repository that is not among the sources; the self-issued path is to
    "synthesize a certificate/key pair for a configured name synchronously
    at startup; compute the fingerprint immediately".  The certificate made
    is the platform's; the fingerprint is set from it. *)
Definition genSelfSignedCert (pf : Platform) (name : string) : M (result bytes) :=
  match selfSignedCert pf with
  | Err e => ret (Err e)
  | Ok pemCert => setCertFingerprint pemCert ;; ret (Ok pemCert)
  end.

(** [setupAcme], the part that runs in the caller.  Of the two goroutines
    it starts, the one that waits for the certificate is a thread of the
    process ([acmePoll]); the listener for the HTTP-01 challenge, which logs
    one line and exits if it cannot listen, is left out. *)
Definition setupAcme (pf : Platform) (name : string) : M unit :=
  log_Printf ("ACME hostname set to " +:+ name +:+ ".") ;;
  fail_on (mkdirAll pf) "Failed to create cache directory: " (ret tt).

(** The goroutine of [setupAcme] that waits for the certificate: one call of
    [cache.Get]; an error means another call five seconds later. *)
Definition acmePoll (r : result bytes) : M bool :=
  match r with
  | Err _ => ret false
  | Ok rawData =>
      log_Printf "Got certificates from cache.  Proceeding with start." ;;
      setCertFingerprint rawData ;;
      ret true
  end.

(** [main] after the environment is set: the flusher (of another file; its
    log line is here) and the certificate. *)
Definition main_certificate (cfg : Config) (pf : Platform) : M unit :=
  log_Printf ("Initializing new flusher with interval "
              +:+ fmt_d (flushInterval cfg) +:+ "s.") ;;
  if useAcme cfg then setupAcme pf (fqdn cfg)
  else
    r <- genSelfSignedCert pf (fqdn cfg) ;;
    match r with
    | Err e => log_Fatal ("Failed to generate self-signed certificate: " +:+ e)
    | Ok _ => ret tt
    end.

(** [main] from there to [ServeTLS]. *)
Definition main_listen (cfg : Config) (pf : Platform) : M unit :=
  let addr := ":" +:+ fmt_d (srvPort cfg) in
  log_Printf ("Starting Web server on port " +:+ addr +:+ ".") ;;
  fail_on (serverListen pf) "Failed to listen for HTTPS server: "
    (emit (EvListen addr)).

(** Where the main goroutine stands, with the variables it holds. *)
Inductive MainPc : Type :=
| AtInit                                (* at the start of [main] *)
| AtGo (router : Router) (p : VProxy)   (* before [go vproxy.Start(done)] *)
| AtRecv (router : Router)              (* blocked in [<-done] *)
| AtSetHTTP (router : Router)           (* before setEnvVar("HTTP_PROXY", _) *)
| AtSetHTTPS (router : Router)          (* before setEnvVar("HTTPS_PROXY", _) *)
| AtCertificate (router : Router)       (* before the flusher and certificate *)
| AtServerListen (router : Router)      (* before the listener of the server *)
| Serving (router : Router).            (* in ServeTLS, with this handler *)

(** The router the main goroutine holds, once it made one. *)
Definition routerOf (pc : MainPc) : option Router :=
  match pc with
  | AtInit => None
  | AtGo r _ | AtRecv r | AtSetHTTP r | AtSetHTTPS r | AtCertificate r
  | AtServerListen r | Serving r => Some r
  end.

(** The process: the world, the main goroutine, the goroutine of [Start]
    with its receiver, the goroutine waiting for the ACME certificate
    ([Some false] while it waits), the forwarding goroutines started (each
    runs [pipe] on its source and destination), and whether the process has
    exited. *)
Record Proc := {
  world : World;
  mainPc : MainPc;
  proxy : option (VProxy * ProxyPc);
  poller : option bool;
  pipes : list (ConnId * ConnId);
  exited : bool
}.

Definition initialProc (env : gmap string string) (rnd : bytes) : Proc :=
  {| world := initialWorld env rnd; mainPc := AtInit; proxy := None;
     poller := None; pipes := []; exited := false |}.

(** One goroutine runs sequential code [m] in process [p]; [k] installs its
    result.  If the code exits, the process has exited. *)
Definition run {A} (m : M A) (p : Proc) (k : A -> World -> Proc) : option Proc :=
  match m (world p) with
  | (Returned a, w') => Some (k a w')
  | (Exited _, w') =>
      Some {| world := w'; mainPc := mainPc p; proxy := proxy p;
              poller := poller p; pipes := pipes p; exited := true |}
  | (OutOfFuel, _) => None
  end.

Definition with_main (p : Proc) (pc : MainPc) (w : World) : Proc :=
  {| world := w; mainPc := pc; proxy := proxy p; poller := poller p;
     pipes := pipes p; exited := exited p |}.

(** The steps of the main goroutine: [main], from one stop to the next. *)
Definition main (cfg : Config) (pf : Platform) (p : Proc) : option Proc :=
  match mainPc p with
  | AtInit =>
      run (main_init cfg pf) p (fun rv w => with_main p (AtGo (fst rv) (snd rv)) w)
  | AtGo router vproxy =>
      Some {| world := world p; mainPc := AtRecv router;
              proxy := Some (vproxy, AtListen); poller := poller p;
              pipes := pipes p; exited := exited p |}
  | AtRecv _ => None
  | AtSetHTTP router =>
      run (setEnvVar "HTTP_PROXY" "socks5://127.0.0.1:1080") p
        (fun _ w => with_main p (AtSetHTTPS router) w)
  | AtSetHTTPS router =>
      run (setEnvVar "HTTPS_PROXY" "socks5://127.0.0.1:1080") p
        (fun _ w => with_main p (AtCertificate router) w)
  | AtCertificate router =>
      run (main_certificate cfg pf) p
        (fun _ w =>
           {| world := w; mainPc := AtServerListen router; proxy := proxy p;
              poller := if useAcme cfg then Some false else poller p;
              pipes := pipes p; exited := exited p |})
  | AtServerListen router =>
      run (main_listen cfg pf) p (fun _ w => with_main p (Serving router) w)
  | Serving _ => None
  end.

(** One step of the process. *)
Definition step (cfg : Config) (pf : Platform) (p : Proc) (i : Input)
  : option Proc :=
  if exited p then None
  else
    match i with
    | RunMain => main cfg pf p
    | Rendezvous =>
        match mainPc p, proxy p with
        | AtRecv router, Some (vp, AtSignal) =>
            Some {| world := add_events [EvReady] (world p);
                    mainPc := AtSetHTTP router; proxy := Some (vp, AtLoop);
                    poller := poller p; pipes := pipes p; exited := exited p |}
        | _, _ => None
        end
    | CacheResult r =>
        match poller p with
        | Some false =>
            run (acmePoll r) p
              (fun found w =>
                 {| world := w; mainPc := mainPc p; proxy := proxy p;
                    poller := Some found; pipes := pipes p;
                    exited := exited p |})
        | _ => None
        end
    | _ =>
        match proxy p with
        | Some (vp, pc) =>
            match Start vp pc i with
            | Some m =>
                run m p
                  (fun r w =>
                     {| world := w; mainPc := mainPc p;
                        proxy := Some (vp, fst r); poller := poller p;
                        pipes := pipes p ++ snd r; exited := exited p |})
            | None => None
            end
        | None => None
        end
    end.

(** A run: the steps the inputs select, in order. *)
Fixpoint exec (cfg : Config) (pf : Platform) (p : Proc) (inputs : list Input)
  : option Proc :=
  match inputs with
  | [] => Some p
  | i :: rest =>
      match step cfg pf p i with
      | Some p' => exec cfg pf p' rest
      | None => None
      end
  end.

End Main.

(** A platform on which every call succeeds; the self-signed certificate is
    the sample chain. *)
Definition samplePlatform : Platform :=
  {| ignoreNitro := false; seedEntropyPool := None; assignLoAddr := None;
     mkdirAll := None; selfSignedCert := Ok sampleChain; serverListen := None |}.

(** Enough random bytes for a key. *)
Definition sampleEntropy : bytes := map Z.of_nat (seq 0 32).

(** A start in which the proxy comes up, the environment is set, the
    certificate is made and one connection is bridged after a failed dial. *)
Definition sampleRun : list Input :=
  [RunMain; RunMain; ListenResult None; Rendezvous; RunMain; RunMain;
   RunProxy; AcceptResult (Ok 1%nat); DialResult (Err "connection refused");
   RunMain; RunMain;
   RunProxy; AcceptResult (Ok 2%nat); DialResult (Ok 3%nat)].

(** The build with certificates from ACME, otherwise as the source. *)
Definition acmeConfig : Config :=
  {| useAcme := true; debug := true; useCryptoPAn := true; fqdn := "TODO";
     srvPort := 8080; flushInterval := 300;
     kafkaBridgeURL := "http://127.0.0.1:8081" |}.

(** A start of that build: the server is up when the certificate cache,
    empty at first, delivers the sample chain. *)
Definition sampleRunAcme : list Input :=
  [RunMain; RunMain; ListenResult None; Rendezvous; RunMain; RunMain;
   RunMain; RunMain; CacheResult (Err "cache miss"); CacheResult (Ok sampleChain)].

(** The line [initAnonymization] writes for a key. *)
Definition keyLine (useCryptoPAn : bool) (k : bytes) : string :=
  (if useCryptoPAn then "Crypto-PAn key: " else "HMAC key: ") +:+ fmt_x k.

(** The key the process holds after [initAnonymization]. *)
Definition installedKey (useCryptoPAn : bool) (w : World) : option bytes :=
  if useCryptoPAn then cryptopan.key <$> cryptoPAn w else hmacKey w.

(** A build without debug mode, otherwise as the source. *)
Definition nonDebugConfig (useCP : bool) : Config :=
  {| useAcme := false; debug := false; useCryptoPAn := useCP; fqdn := "TODO";
     srvPort := 8080; flushInterval := 300;
     kafkaBridgeURL := "http://127.0.0.1:8081" |}.

(** One turn of the loop that forwards [data]. *)
Definition forwarded (src dst : ConnId) (data : bytes) : list NetEvent :=
  [NRead src pipeBufSize data None; NWrite dst data (length data) None].

(** The ways the loop of [pipe] ends. *)
Inductive Failure : Type :=
| ReadFailed (data : bytes) (e : string)
| WriteFailed (data : bytes) (n : nat) (e : string)
| ShortWrite (data : bytes) (n : nat).

(** What happens in the last turn of the loop. *)
Definition failureEvents (src dst : ConnId) (f : Failure) : list NetEvent :=
  match f with
  | ReadFailed data e =>
      [NRead src pipeBufSize data (Some e);
       NLog ("Failed to read from src connection: " +:+ e)]
  | WriteFailed data n e =>
      [NRead src pipeBufSize data None; NWrite dst data n (Some e);
       NLog ("Failed to write to dst connection: " +:+ e)]
  | ShortWrite data n =>
      [NRead src pipeBufSize data None; NWrite dst data n None;
       NLog ("Only wrote " +:+ fmt_d (Z.of_nat n) +:+ " out of "
             +:+ fmt_d (Z.of_nat (length data)) +:+ " bytes.")]
  end.

(** A short write wrote fewer bytes than were read; no turn handles more
    bytes than the buffer holds. *)
Definition failureOk (f : Failure) : Prop :=
  match f with
  | ReadFailed data _ => (length data <= pipeBufSize)%nat
  | WriteFailed data n _ => (length data <= pipeBufSize)%nat /\ (n <= length data)%nat
  | ShortWrite data n => (length data <= pipeBufSize)%nat /\ (n < length data)%nat
  end.

(** The bytes the last turn of the loop wrote to the destination. *)
Definition written (f : Failure) : bytes :=
  match f with
  | ReadFailed _ _ => []
  | WriteFailed data n _ | ShortWrite data n => firstn n data
  end.

(** What the deferred function of [pipe] does. *)
Definition closeEvents (src : ConnId) (err : option string) : list NetEvent :=
  match err with
  | None => [NClose src None]
  | Some e => [NClose src (Some e); NLog ("Failed to close connection: " +:+ e)]
  end.

(** The sizes of the reads in a trace, in order. *)
Definition readSizes (t : list NetEvent) : list Z :=
  omap (fun e => match e with
                 | NRead _ _ data _ => Some (Z.of_nat (length data))
                 | _ => None
                 end) t.

(** Events of one goroutine that involve no other: log lines, reads of the
    random source, and the exit. *)
Definition quiet (e : Event) : Prop :=
  match e with
  | EvLog _ | EvRandRead _ | EvExit _ => True
  | _ => False
  end.

(** Events that are no read of the random source. *)
Definition noDraw (e : Event) : Prop :=
  match e with
  | EvRandRead _ => False
  | _ => True
  end.

(** [m] extends the trace, by events that satisfy [P]. *)
Definition emits {A} (P : Event -> Prop) (m : M A) : Prop :=
  forall w, exists es, trace (snd (m w)) = trace w ++ es /\ Forall P es.

(** Events that can come before the readiness signal: those of one
    goroutine alone, and the bind of the proxy's listener. *)
Definition preReady (e : Event) : Prop :=
  match e with
  | EvLog _ | EvRandRead _ | EvExit _ => True
  | EvListen a => a = bindAddr
  | _ => False
  end.

Definition proxyURL : string := "socks5://127.0.0.1:1080".

(** Events that can come after it: anything but a second signal, and of
    the changes of the environment only the two proxy variables. *)
Definition afterReady (e : Event) : Prop :=
  match e with
  | EvReady => False
  | EvSetenv k v => (k = "HTTP_PROXY" \/ k = "HTTPS_PROXY") /\ v = proxyURL
  | _ => True
  end.

(** Events of code that neither signals nor sets the environment. *)
Definition noSync (e : Event) : Prop :=
  match e with
  | EvReady | EvSetenv _ _ => False
  | _ => True
  end.

(** A trace with the signal in it: the listener is bound before the signal,
    and accepts and changes of the environment come after it. *)
Definition signalled (t : list Event) : Prop :=
  exists pre post,
    t = pre ++ EvReady :: post
    /\ Forall preReady pre
    /\ In (EvListen bindAddr) pre
    /\ Forall afterReady post.

(** Whether the signal has happened, by where the two goroutines stand;
    [None] for combinations that do not occur. *)
Definition phaseOf (m : MainPc) (x : option (VProxy * ProxyPc)) : option bool :=
  match m, x with
  | (AtInit | AtGo _ _), None => Some false
  | AtRecv _, Some (_, (AtListen | AtSignal)) => Some false
  | (AtSetHTTP _ | AtSetHTTPS _ | AtCertificate _ | AtServerListen _ | Serving _),
    Some (_, (AtLoop | AtAccept | AtDial _)) => Some true
  | _, _ => None
  end.

(** The sample run up to the first dial. *)
Definition sampleRunToDial : list Input := firstn 8 sampleRun.

(** The value of [certSha256] when the process starts. *)
Definition zeroHash : bytes := replicate sha256.Size 0.

(** ** receiver_web.go: the receiver *)

Module web.

(** Channels are named by numbers. *)
Definition ChanId := nat.

(** The handlers [newRouter] installs: the one [getConfTokenHandler]
    returns, which holds the inbox it was made for, and [indexHandler]. *)
Inductive Handler : Type :=
| ConfTokenHandler (inbox : ChanId)
| IndexHandler.

Record Route := { method : string; pattern : string; handler : Handler }.

(** [newRouter]. *)
Definition newRouter (inbox : ChanId) : list Route :=
  [ {| method := "GET"; pattern := "/v{version}/confirmation/token/{walletID}";
       handler := ConfTokenHandler inbox |};
    {| method := "GET"; pattern := "/"; handler := IndexHandler |} ].

(** The handler a router runs for a method and a path pattern. *)
Definition route (r : list Route) (meth pat : string) : option Handler :=
  handler <$> find (fun rt => bool_decide (method rt = meth)
                              && bool_decide (pattern rt = pat)) r.

(** [webReceiver]. *)
Record webReceiver := {
  done : ChanId;
  in_ : ChanId;
  router : list Route;
  port : Z
}.

(** [config], as far as the receiver reads it. *)
Record config := { configPort : Z }.

(** What the receiver acts on: the channels of the process (for each,
    whether it is closed), the HTTP servers that were started, with their
    address and handler, and the lines logged. *)
Record Heap := {
  chans : gmap ChanId bool;
  servers : list (string * list Route);
  logged : list string
}.

(** How a call ends: it returns, or it panics. *)
Inductive outcome (A : Type) : Type :=
| Done (a : A) (h : Heap)
| Panic (msg : string).
Arguments Done {A} a h.
Arguments Panic {A} msg.

(** [make(chan T)]: a channel that did not exist, open. *)
Definition make_chan (h : Heap) : ChanId * Heap :=
  let c := fresh (dom (chans h)) in
  (c, {| chans := <[c := false]> (chans h); servers := servers h;
         logged := logged h |}).

(** [close(c)]: closing a closed channel panics. *)
Definition close (c : ChanId) (h : Heap) : outcome unit :=
  match chans h !! c with
  | Some false =>
      Done tt {| chans := <[c := true]> (chans h); servers := servers h;
                 logged := logged h |}
  | Some true => Panic "close of closed channel"
  | None => Panic "close of nil channel"
  end.

(** [newWebReceiver]. *)
Definition newWebReceiver (h : Heap) : webReceiver * Heap :=
  let '(cin, h1) := make_chan h in
  let '(cdone, h2) := make_chan h1 in
  ({| done := cdone; in_ := cin; router := newRouter cin; port := 0 |}, h2).

(** [setConfig]. *)
Definition setConfig (w : webReceiver) (c : config) : webReceiver :=
  {| done := done w; in_ := in_ w; router := router w; port := configPort c |}.

(** [inbox]. *)
Definition inbox (w : webReceiver) : ChanId := in_ w.

(** [start], with its goroutine run up to [ListenAndServe]: one line is
    logged and a server listens on the port, with the router as handler. *)
Definition start (w : webReceiver) (h : Heap) : Heap :=
  {| chans := chans h;
     servers := servers h ++ [(":" +:+ fmt_d (port w), router w)];
     logged := logged h ++ ["Starting Web server at :" +:+ fmt_d (port w) +:+ "."] |}.

(** [stop]. *)
Definition stop (w : webReceiver) (h : Heap) : outcome unit :=
  close (done w) h.

End web.

(** ** Further definitions, for the properties below *)

(** [k] times the digit 0. *)
Fixpoint zeros (k : nat) : string :=
  match k with
  | O => EmptyString
  | S k' => String "0"%char (zeros k')
  end.

(** The line feed that ends a line of a response. *)
Definition newline : string := String "010"%char EmptyString.

(** [clientRequest.bytes]: the address. *)
Definition clientRequest_bytes (c : clientRequest) : bytes := Addr c.

(** The line [initAnonymization] logs first, for each strategy. *)
Definition strategyLine (useCryptoPAn : bool) : string :=
  if useCryptoPAn then "Using Crypto-PAn for IP address anonymization."
  else "Using HMAC-SHA256 for IP address anonymization.".

(** A byte. *)
Definition isByte (b : Z) : Prop := 0 <= b < 256.

(** The line with which [main] ends the process when a Nitro call fails;
    with the flag [-local] the calls are not made. *)
Definition nitroError (pf : Platform) : option string :=
  if ignoreNitro pf then None
  else
    match seedEntropyPool pf, assignLoAddr pf with
    | Some e, _ => Some ("Failed to initialize the system's entropy pool: " +:+ e)
    | None, Some e => Some ("Failed to assign address to lo: " +:+ e)
    | None, None => None
    end.

(** The proxy [NewVProxy] makes. *)
Definition theProxy : VProxy :=
  {| raddr := (parentCID, 1080); laddr := bindAddr |}.

(** What the start of [main] does, case by case. *)
Definition main_init_spec (cfg : Config) (pf : Platform) (w : World) : Prop :=
  let r := fst (main_init cfg pf w) in
  let w' := snd (main_init cfg pf w) in
  let size := keySize (useCryptoPAn cfg) in
  environ w' = environ w /\ certSha256 w' = certSha256 w
  /\ match nitroError pf with
     | Some line =>
         r = Exited 1 /\ last (logLines w') = Some line
         /\ randReads w' = randReads w /\ entropy w' = entropy w
         /\ hmacKey w' = hmacKey w /\ cryptoPAn w' = cryptoPAn w
     | None =>
         if bool_decide (size <= length (entropy w))%nat
         then exists router,
             r = Returned (router, theProxy)
             /\ attestedHash router = Some (certSha256 w)
             /\ installedKey (useCryptoPAn cfg) w' = Some (firstn size (entropy w))
             /\ entropy w' = skipn size (entropy w)
             /\ (if useCryptoPAn cfg then hmacKey w' = hmacKey w
                 else cryptoPAn w' = cryptoPAn w)
         else r = Exited 1 /\ last (logLines w') = Some "unexpected EOF"
              /\ cryptoPAn w' = cryptoPAn w
     end.

(** [m] leaves the part [f] of the world as it is. *)
Definition keeps {A X} (f : World -> X) (m : M A) : Prop :=
  forall w, f (snd (m w)) = f w.

(** The key material: the two key variables and the random source. *)
Definition keyStore (w : World) : option bytes * option cryptopan.Cryptopan * bytes :=
  (hmacKey w, cryptoPAn w, entropy w).

(** The ways the process makes a step. *)
Inductive StepKind `{CertLibs} (cfg : Config) (pf : Platform) (p p' : Proc) : Prop :=
| ByMainInit :
    mainPc p = AtInit ->
    run (main_init cfg pf) p (fun rv w => with_main p (AtGo (fst rv) (snd rv)) w)
    = Some p' ->
    StepKind cfg pf p p'
| ByGo router vp :
    mainPc p = AtGo router vp ->
    p' = {| world := world p; mainPc := AtRecv router;
            proxy := Some (vp, AtListen); poller := poller p;
            pipes := pipes p; exited := exited p |} ->
    StepKind cfg pf p p'
| BySetHTTP router :
    mainPc p = AtSetHTTP router ->
    p' = with_main p (AtSetHTTPS router)
           (add_events [EvSetenv "HTTP_PROXY" proxyURL]
              (set_environ (<["HTTP_PROXY" := proxyURL]> (environ (world p)))
                 (world p))) ->
    StepKind cfg pf p p'
| BySetHTTPS router :
    mainPc p = AtSetHTTPS router ->
    p' = with_main p (AtCertificate router)
           (add_events [EvSetenv "HTTPS_PROXY" proxyURL]
              (set_environ (<["HTTPS_PROXY" := proxyURL]> (environ (world p)))
                 (world p))) ->
    StepKind cfg pf p p'
| ByCertificate router :
    mainPc p = AtCertificate router ->
    run (main_certificate cfg pf) p
      (fun _ w =>
         {| world := w; mainPc := AtServerListen router; proxy := proxy p;
            poller := if useAcme cfg then Some false else poller p;
            pipes := pipes p; exited := exited p |})
    = Some p' ->
    StepKind cfg pf p p'
| ByServerListen router :
    mainPc p = AtServerListen router ->
    run (main_listen cfg pf) p (fun _ w => with_main p (Serving router) w)
    = Some p' ->
    StepKind cfg pf p p'
| ByRendezvous router vp :
    mainPc p = AtRecv router -> proxy p = Some (vp, AtSignal) ->
    p' = {| world := add_events [EvReady] (world p);
            mainPc := AtSetHTTP router; proxy := Some (vp, AtLoop);
            poller := poller p; pipes := pipes p; exited := exited p |} ->
    StepKind cfg pf p p'
| ByStart vp pc i m :
    proxy p = Some (vp, pc) -> Start vp pc i = Some m ->
    run m p
      (fun r w =>
         {| world := w; mainPc := mainPc p; proxy := Some (vp, fst r);
            poller := poller p; pipes := pipes p ++ snd r; exited := exited p |})
    = Some p' ->
    StepKind cfg pf p p'
| ByPoller r :
    poller p = Some false ->
    run (acmePoll r) p
      (fun found w =>
         {| world := w; mainPc := mainPc p; proxy := proxy p;
            poller := Some found; pipes := pipes p; exited := exited p |})
    = Some p' ->
    StepKind cfg pf p p'.

(** The environment of the process, by where the main goroutine stands:
    as inherited, then with [HTTP_PROXY], then with [HTTPS_PROXY] too. *)
Definition environAt (env : gmap string string) (pc : MainPc)
  : gmap string string :=
  match pc with
  | AtInit | AtGo _ _ | AtRecv _ | AtSetHTTP _ => env
  | AtSetHTTPS _ => <["HTTP_PROXY" := proxyURL]> env
  | AtCertificate _ | AtServerListen _ | Serving _ =>
      <["HTTPS_PROXY" := proxyURL]> (<["HTTP_PROXY" := proxyURL]> env)
  end.

(** The key material once [initAnonymization] has returned: the key of the
    strategy in use, made of the first bytes of the random source, no key
    of the other strategy, and the rest of the source. *)
Definition keyStoreAfter (useCP : bool) (rnd : bytes)
  : option bytes * option cryptopan.Cryptopan * bytes :=
  let k := firstn (keySize useCP) rnd in
  (if useCP then None else Some k,
   if useCP then Some {| cryptopan.key := k |} else None,
   skipn (keySize useCP) rnd).

(** The two forwarding goroutines of a bridged pair of connections. *)
Definition bothWays (lr : ConnId * ConnId) : list (ConnId * ConnId) :=
  [(fst lr, snd lr); (snd lr, fst lr)].

(** The forwarding goroutines started in a trace, in order. *)
Definition goPipes (t : list Event) : list (ConnId * ConnId) :=
  omap (fun e => match e with EvGoPipe s d => Some (s, d) | _ => None end) t.

(** A dial, if the event is one, goes to the parent instance. *)
Definition dialsParent (e : Event) : Prop :=
  match e with
  | EvDial cid port _ => cid = parentCID /\ port = 1080
  | _ => True
  end.

(** Events that involve no connection. *)
Definition noConn (e : Event) : Prop :=
  match e with
  | EvAccept _ | EvDial _ _ _ | EvGoPipe _ _ => False
  | _ => True
  end.

(** The bytes a peer delivers before its first error. *)
Fixpoint stream (items : list RxItem) : bytes :=
  match items with
  | [] => []
  | RxData bs :: rest => bs ++ stream rest
  | RxErr _ _ :: _ => []
  end.

(** A bound on the turns the loop of [pipe] can make on what a peer
    delivers: every turn takes at least one byte or one item. *)
Fixpoint weight (items : list RxItem) : nat :=
  match items with
  | [] => 0
  | RxData bs :: rest => S (length bs + weight rest)
  | RxErr _ _ :: rest => S (weight rest)
  end.

(** The address the web server listens on. *)
Definition srvAddr (cfg : Config) : string := ":" +:+ fmt_d (srvPort cfg).

(** * Properties *)

(** ** SHA-256 *)

Example Sum256_abc :
  fmt_x (sha256.Sum256 (bytes_of_string "abc"))
  = "ba7816bf8f01cfea414140de5dae2223b00361a396177a9cb410ff61f20015ad".
Proof. vm_compute. reflexivity. Qed.

Example Sum256_empty :
  fmt_x (sha256.Sum256 [])
  = "e3b0c44298fc1c149afbf4c8996fb92427ae41e4649b934ca495991b7852b855".
Proof. vm_compute. reflexivity. Qed.

Example Sum256_two_blocks :
  sha256.Sum256 (map Z.of_nat (seq 0 70))
  = [87; 103; 214; 154; 144; 109; 72; 96; 219; 144; 121; 235; 126; 144; 171;
     74; 84; 62; 92; 176; 50; 252; 232; 70; 85; 74; 239; 108; 235; 96; 14; 29].
Proof. vm_compute. reflexivity. Qed.

Example Sum256_55_bytes :
  fmt_x (sha256.Sum256 (map (fun i => Z.of_nat i mod 251) (seq 0 55)))
  = "463eb28e72f82e0a96c0a4cc53690c571281131f672aa229e0d45ae59b598b59".
Proof. vm_compute. reflexivity. Qed.

Example Sum256_56_bytes :
  fmt_x (sha256.Sum256 (map (fun i => Z.of_nat i mod 251) (seq 0 56)))
  = "da2ae4d6b36748f2a318f23e7ab1dfdf45acdc9d049bd80e59de82a60895f562".
Proof. vm_compute. reflexivity. Qed.

Example Sum256_64_bytes :
  fmt_x (sha256.Sum256 (map (fun i => Z.of_nat i mod 251) (seq 0 64)))
  = "fdeab9acf3710362bd2658cdc9a29e8f9c757fcf9811603a8c447cd1d9151108".
Proof. vm_compute. reflexivity. Qed.

Lemma Sum256_length data : length (sha256.Sum256 data) = sha256.Size.
Proof. reflexivity. Qed.

Lemma Sum256_bytes data : Forall (fun b => 0 <= b < 256) (sha256.Sum256 data).
Proof.
  unfold sha256.Sum256, sha256.digest, sha256.be32.
  repeat (apply Forall_cons; split; [apply Z.mod_pos_bound; lia|]).
  apply Forall_nil. exact I.
Qed.

(** ** The receiver *)

Section ParseUintFacts.

Lemma digit_of_range c d : strconv.digit_of c = Some d -> 0 <= d <= 9.
Proof.
  unfold strconv.digit_of.
  destruct (_ && _) eqn:E; [|discriminate].
  intros [= <-]. apply andb_true_iff in E as [?%Z.leb_le ?%Z.leb_le]. lia.
Qed.

Lemma decimal_loop_mono s : forall n r,
  0 <= n -> decimal_loop n s = Some r -> n <= r.
Proof.
  induction s as [|c s IH]; simpl; intros n r Hn.
  - intros [= <-]. lia.
  - destruct (strconv.digit_of c) as [d|] eqn:Ed; [|discriminate].
    intros Hr. apply digit_of_range in Ed.
    apply IH in Hr; lia.
Qed.

(** A successful parse returns the mathematical value. *)
Lemma parse_loop_decimal maxVal s : forall n r,
  0 <= n -> strconv.parse_loop maxVal n s = Ok r -> decimal_loop n s = Some r.
Proof.
  induction s as [|c s IH]; simpl; intros n r Hn.
  - intros [= <-]. reflexivity.
  - destruct (strconv.digit_of c) as [d|] eqn:Ed; [|discriminate].
    pose proof (digit_of_range _ _ Ed) as Hd.
    destruct (_ <=? n) eqn:Ecut; [discriminate|].
    apply Z.leb_gt in Ecut.
    assert (Hn10 : n * 10 <= strconv.maxUint64).
    { unfold strconv.maxUint64 in *.
      change (2 ^ 64 - 1) with 18446744073709551615 in *.
      change (18446744073709551615 / 10 + 1) with 1844674407370955162 in Ecut.
      lia. }
    assert (Hw : strconv.wrap64 (n * 10) = n * 10).
    { unfold strconv.wrap64. apply Z.mod_small.
      unfold strconv.maxUint64 in Hn10. lia. }
    rewrite Hw.
    destruct (_ || _) eqn:Eov; [discriminate|].
    apply orb_false_iff in Eov as [Hlt Hmax].
    apply Z.ltb_ge in Hlt.
    assert (Hw1 : strconv.wrap64 (n * 10 + d) = n * 10 + d).
    { unfold strconv.wrap64 in *. unfold strconv.maxUint64 in Hn10.
      destruct (Z_lt_ge_dec (n * 10 + d) (2 ^ 64)) as [Hsm|Hbig].
      - apply Z.mod_small. lia.
      - exfalso.
        assert (Hm : (n * 10 + d) mod 2 ^ 64 = n * 10 + d - 2 ^ 64).
        { symmetry. apply Z.mod_unique with (q := 1); lia. }
        rewrite Hm in Hlt. lia. }
    rewrite Hw1. intros Hr. apply IH; [lia | exact Hr].
Qed.

(** A small mathematical value is parsed without a range error. *)
Lemma decimal_loop_parse s : forall n r,
  0 <= n -> decimal_loop n s = Some r -> r <= 4 ->
  strconv.parse_loop (2 ^ 64 - 1) n s = Ok r.
Proof.
  induction s as [|c s IH]; simpl; intros n r Hn.
  - intros [= <-] _. reflexivity.
  - destruct (strconv.digit_of c) as [d|] eqn:Ed; [|discriminate].
    pose proof (digit_of_range _ _ Ed) as Hd.
    intros Hr Hr4.
    assert (Hle : n * 10 + d <= r) by (apply (decimal_loop_mono s); [lia | exact Hr]).
    assert (Hcut : (strconv.maxUint64 / 10 + 1 <=? n) = false).
    { apply Z.leb_gt. unfold strconv.maxUint64.
      change (2 ^ 64 - 1) with 18446744073709551615.
      change (18446744073709551615 / 10 + 1) with 1844674407370955162. lia. }
    rewrite Hcut.
    assert (Hw : strconv.wrap64 (n * 10) = n * 10).
    { unfold strconv.wrap64. apply Z.mod_small. lia. }
    rewrite Hw.
    assert (Hw1 : strconv.wrap64 (n * 10 + d) = n * 10 + d).
    { unfold strconv.wrap64. apply Z.mod_small. lia. }
    rewrite Hw1.
    assert (Hov : ((n * 10 + d <? n * 10) || (2 ^ 64 - 1 <? n * 10 + d)) = false).
    { apply orb_false_iff. split; apply Z.ltb_ge; lia. }
    rewrite Hov. apply IH; [lia | exact Hr | exact Hr4].
Qed.

Lemma ParseUint10_decimal v n :
  strconv.ParseUint10 v 0 = Ok n -> decimal_value v = Some n.
Proof.
  destruct v as [|c v]; [discriminate|].
  unfold strconv.ParseUint10, decimal_value.
  apply parse_loop_decimal. lia.
Qed.

Lemma decimal_ParseUint10 v n :
  decimal_value v = Some n -> n <= 4 -> strconv.ParseUint10 v 0 = Ok n.
Proof.
  destruct v as [|c v]; [discriminate|].
  unfold strconv.ParseUint10, decimal_value.
  apply decimal_loop_parse. lia.
Qed.

Lemma isValidApiVersion_decimal v :
  isValidApiVersion v = true <->
  exists n, decimal_value v = Some n /\ 1 <= n <= 4.
Proof.
  unfold isValidApiVersion. split.
  - destruct (strconv.ParseUint10 v 0) as [num|] eqn:E; [|discriminate].
    intros Hb. apply andb_true_iff in Hb as [?%Z.leb_le ?%Z.leb_le].
    exists num. split; [apply ParseUint10_decimal; exact E | lia].
  - intros (n & Hv & Hn).
    rewrite (decimal_ParseUint10 v n Hv) by lia.
    apply andb_true_iff. split; apply Z.leb_le; lia.
Qed.

End ParseUintFacts.

Section ReceiverFacts.
Context `{WebLibs}.

Lemma errAndReport_response text m q :
  let s' := errAndReport text StatusBadRequest (freshResponse m q) in
  responseCode s' = 400
  /\ body s' = text +:+ String "010"%char EmptyString
  /\ inboxSent s' = q.
Proof. repeat split. Qed.

Lemma refusalReasons_NoDup : NoDup refusalReasons.
Proof.
  apply (bool_decide_unpack _). vm_compute. exact I.
Qed.

(** Leading zeros are read over; a sign is no part of a version; a numeral
    that a 64-bit integer cannot hold is refused, though it would wrap around
    to 1. *)
Example isValidApiVersion_samples :
  map isValidApiVersion
    ["1"; "4"; "03"; "0"; "5"; "+1"; "-1"; "1 "; "3.0"; "18446744073709551617";
     EmptyString]
  = [true; true; true; false; false; false; false; false; false; false; false].
Proof. vm_compute. reflexivity. Qed.

(** C6: [isValidApiVersion v] holds exactly when [v] is a decimal numeral
    whose value is between 1 and 4; version 5 is refused, and the handler
    answers it with 400 and the bad-version reason; version 2 is accepted. *)
Theorem C6_isValidApiVersion_accepts_1_to_4 :
  (forall v, isValidApiVersion v = true <->
             exists n, decimal_value v = Some n /\ 1 <= n <= 4)
  /\ isValidApiVersion "5" = false
  /\ isValidApiVersion "2" = true
  /\ (forall params hdr m q,
        let r := {| urlParams := <["version" := "5"]> params; header := hdr |} in
        let s' := getConfTokenHandler r (freshResponse m q) in
        responseCode s' = 400
        /\ body s' = errBadApiVersion +:+ String "010"%char EmptyString
        /\ inboxSent s' = q).
Proof.
  split; [exact isValidApiVersion_decimal|].
  split; [reflexivity|]. split; [reflexivity|].
  intros params hdr m q r s'. subst s' r.
  unfold getConfTokenHandler, chi_URLParam. cbn [urlParams].
  rewrite lookup_insert_eq. cbn [default].
  change (isValidApiVersion "5") with false. cbn [negb].
  apply errAndReport_response.
Qed.

Lemma Header_Get_absent (h : gmap string (list string)) key :
  ~ Header_has h key -> Header_Get h key = EmptyString.
Proof.
  unfold Header_Get, Header_has. intros Hno.
  destruct (h !! textproto.CanonicalMIMEHeaderKey key) as [vs|]; [|reflexivity].
  exfalso. apply Hno. eexists. reflexivity.
Qed.

Example canonical_fastlyClientIP :
  textproto.CanonicalMIMEHeaderKey fastlyClientIP = "Fastly-Client-Ip".
Proof. reflexivity. Qed.

(** C3: there are four reasons, all different; a request that is wrong in
    one of the four ways is answered with 400 and one of the four reasons,
    and nothing is sent on the inbox; any other request sends exactly one
    record, made of the parsed address and wallet identifier, and is
    answered with 200 and an empty body. *)
Theorem C3_getConfTokenHandler_validates_before_enqueue
    (HemptyIP : net_ParseIP EmptyString = None)
    (r : Request) (m : gmap (string * string) nat) (q : list clientRequest) :
  let s' := getConfTokenHandler r (freshResponse m q) in
  NoDup refusalReasons /\ length refusalReasons = 4%nat
  /\ (badRequest r ->
     responseCode s' = 400
     /\ (exists reason, In reason refusalReasons
          /\ body s' = reason +:+ String "010"%char EmptyString)
     /\ inboxSent s' = q)
  /\ (~ badRequest r ->
      exists addr wallet,
        net_ParseIP (Header_Get (header r) fastlyClientIP) = Some addr
        /\ uuid_Parse (chi_URLParam r "walletID") = Ok wallet
        /\ inboxSent s' = q ++ [{| Addr := addr; Wallet := wallet |}]
        /\ responseCode s' = 200
        /\ body s' = EmptyString).
Proof.
  intros s'. subst s'.
  split; [exact refusalReasons_NoDup|]. split; [reflexivity|].
  unfold getConfTokenHandler, badRequest.
  destruct (isValidApiVersion (chi_URLParam r "version")) eqn:Ever; cbn [negb].
  2:{ split.
      - intros _. repeat split. exists errBadApiVersion. split; [|reflexivity].
        unfold refusalReasons. simpl. tauto.
      - intros Hgood. exfalso. apply Hgood. left. reflexivity. }
  destruct (uuid_Parse (chi_URLParam r "walletID")) as [wallet|e] eqn:Euuid.
  2:{ split.
      - intros _. repeat split. exists errBadWalletFmt. split; [|reflexivity].
        unfold refusalReasons. simpl. tauto.
      - intros Hgood. exfalso. apply Hgood. right. left. exists e. reflexivity. }
  destruct (bool_decide (Header_Get (header r) fastlyClientIP = EmptyString)) eqn:Ehdr.
  { apply bool_decide_eq_true in Ehdr. split.
    - intros _. repeat split. exists errNoFastlyHeader. split; [|reflexivity].
      unfold refusalReasons. simpl. tauto.
    - intros Hgood. exfalso. apply Hgood. right. right. right.
      rewrite Ehdr. exact HemptyIP. }
  apply bool_decide_eq_false in Ehdr.
  destruct (net_ParseIP (Header_Get (header r) fastlyClientIP)) as [addr|] eqn:Eip.
  2:{ split.
      - intros _. repeat split. exists errBadFastlyAddrFormat. split; [|reflexivity].
        unfold refusalReasons. simpl. tauto.
      - intros Hgood. exfalso. apply Hgood. right. right. right. reflexivity. }
  split.
  - intros [Hbad|[[e Hbad]|[Hbad|Hbad]]]; try discriminate.
    exfalso. apply Ehdr. apply Header_Get_absent. exact Hbad.
  - intros _. exists addr, wallet. repeat split.
Qed.

End ReceiverFacts.

(** C3 on two requests: one with version 2, the sample wallet and the header
    set to the sample address, and the same request without the header. *)
Lemma C3_getConfTokenHandler_witness :
  (let s' := getConfTokenHandler
               (sampleRequest "2" (Header_Set ∅ fastlyClientIP sampleIP))
               (freshResponse ∅ []) in
   inboxSent s' = [{| Addr := sampleIPBytes; Wallet := sampleUUIDBytes |}]
   /\ responseCode s' = 200 /\ body s' = EmptyString)
  /\ (let s' := getConfTokenHandler (sampleRequest "2" ∅) (freshResponse ∅ []) in
      responseCode s' = 400 /\ inboxSent s' = []).
Proof.
  split.
  - destruct (C3_getConfTokenHandler_validates_before_enqueue
                (H := sampleWebLibs) eq_refl
                (sampleRequest "2" (Header_Set ∅ fastlyClientIP sampleIP)) ∅ [])
      as (_ & _ & _ & Hgood).
    destruct Hgood as (addr & wallet & Hip & Huuid & Hsent & Hcode & Hbody).
    + unfold badRequest. intros [Hb|[[e Hb]|[Hb|Hb]]].
      * vm_compute in Hb. discriminate.
      * vm_compute in Hb. discriminate.
      * apply Hb. eexists. vm_compute. reflexivity.
      * vm_compute in Hb. discriminate.
    + vm_compute in Hip, Huuid.
      injection Hip as <-. injection Huuid as <-.
      intros s'. subst s'.
      split; [exact Hsent | split; [exact Hcode | exact Hbody]].
  - destruct (C3_getConfTokenHandler_validates_before_enqueue
                (H := sampleWebLibs) eq_refl (sampleRequest "2" ∅) ∅ [])
      as (_ & _ & Hbad & _).
    destruct Hbad as (Hcode & _ & Hsent).
    + unfold badRequest. right. right. left. intros [vs Hvs]. discriminate.
    + intros s'. subst s'. split; [exact Hcode | exact Hsent].
Defined.

(** ** The certificate fingerprint *)

Section FingerprintFacts.
Context `{CertLibs}.

Lemma classify_leaf b c :
  classify b = Leaf c ->
  blockType b = "CERTIFICATE"
  /\ x509_ParseCertificate (blockBytes b) = Ok c /\ IsCA c = false.
Proof.
  unfold classify. case_bool_decide as Ht; [|discriminate].
  destruct (x509_ParseCertificate (blockBytes b)) as [c'|e]; [|discriminate].
  destruct (IsCA c') eqn:Eca; [discriminate|].
  intros [= <-]. auto.
Qed.

(** One turn of the loop over an entry that is stepped over. *)
Lemma loop_skipped fuel x data b rest w :
  pem_Decode data = (Some b, rest) -> skipped b ->
  setCertFingerprint_loop (S fuel) (Some x) data w
  = setCertFingerprint_loop fuel (Some x) rest w.
Proof.
  intros Hd Hs. cbn [setCertFingerprint_loop]. rewrite Hd.
  unfold skipped, classify in Hs.
  case_bool_decide as Ht.
  - destruct (x509_ParseCertificate (blockBytes b)) as [c'|e].
    + destruct (IsCA c'); [reflexivity|].
      destruct Hs as [Hs|[c Hs]]; discriminate.
    + destruct Hs as [Hs|[c Hs]]; discriminate.
  - reflexivity.
Qed.

Lemma loop_leaf fuel x data b rest c w :
  pem_Decode data = (Some b, rest) -> classify b = Leaf c ->
  setCertFingerprint_loop (S fuel) (Some x) data w
  = (Returned tt,
     add_events [EvLog ("SHA-256 of server's certificate: "
                        +:+ fmt_x (sha256.Sum256 (Raw c)))]
       (set_certSha256 (sha256.Sum256 (Raw c)) w)).
Proof.
  intros Hd Hc. apply classify_leaf in Hc as (Ht & Hp & Hca).
  cbn [setCertFingerprint_loop]. rewrite Hd.
  rewrite bool_decide_eq_true_2 by exact Ht.
  rewrite Hp, Hca. reflexivity.
Qed.

Lemma loop_reaches_leaf (Hcons : pem_Decode_consumes) pre :
  forall fuel fuel' x data b c post w,
    (length data < fuel)%nat -> (length data < fuel')%nat ->
    pemBlocks fuel' data = pre ++ b :: post ->
    Forall skipped pre -> classify b = Leaf c ->
    setCertFingerprint_loop fuel (Some x) data w
    = (Returned tt,
       add_events [EvLog ("SHA-256 of server's certificate: "
                          +:+ fmt_x (sha256.Sum256 (Raw c)))]
         (set_certSha256 (sha256.Sum256 (Raw c)) w)).
Proof.
  induction pre as [|a pre IH]; intros fuel fuel' x data b c post w Hf Hf' Hbl Hsk Hleaf.
  - destruct fuel' as [|fuel']; [lia|]. destruct fuel as [|fuel]; [lia|].
    cbn [pemBlocks app] in Hbl.
    destruct (pem_Decode data) as [[b'|] rest] eqn:Hd; [|discriminate].
    injection Hbl as -> _. eapply loop_leaf; eauto.
  - destruct fuel' as [|fuel']; [lia|]. destruct fuel as [|fuel]; [lia|].
    cbn [pemBlocks] in Hbl. rewrite <- app_comm_cons in Hbl.
    destruct (pem_Decode data) as [[b'|] rest] eqn:Hd; [|discriminate].
    injection Hbl as -> Hbl.
    apply Forall_cons in Hsk as [Ha Hsk].
    rewrite (loop_skipped _ _ _ _ _ _ Hd Ha).
    pose proof (Hcons _ _ _ Hd) as Hlen.
    apply (IH fuel fuel' x rest b c post w); [lia | lia | exact Hbl | exact Hsk | exact Hleaf].
Qed.

Lemma loop_unparsable fuel x data b rest e w :
  pem_Decode data = (Some b, rest) -> classify b = Unparsable e ->
  setCertFingerprint_loop (S fuel) (Some x) data w
  = (Exited 1,
     add_events [EvLog ("Failed to parse X509 certificate: " +:+ e); EvExit 1] w).
Proof.
  intros Hd Hc. cbn [setCertFingerprint_loop]. rewrite Hd.
  unfold classify in Hc. case_bool_decide; [|discriminate].
  destruct (x509_ParseCertificate (blockBytes b)) as [c'|e'].
  - destruct (IsCA c'); discriminate.
  - injection Hc as ->. reflexivity.
Qed.

Lemma loop_reaches_unparsable (Hcons : pem_Decode_consumes) pre :
  forall fuel fuel' x data b e post w,
    (length data < fuel)%nat -> (length data < fuel')%nat ->
    pemBlocks fuel' data = pre ++ b :: post ->
    Forall skipped pre -> classify b = Unparsable e ->
    setCertFingerprint_loop fuel (Some x) data w
    = (Exited 1,
       add_events [EvLog ("Failed to parse X509 certificate: " +:+ e); EvExit 1] w).
Proof.
  induction pre as [|a pre IH]; intros fuel fuel' x data b e post w Hf Hf' Hbl Hsk Hbad.
  - destruct fuel' as [|fuel']; [lia|]. destruct fuel as [|fuel]; [lia|].
    cbn [pemBlocks app] in Hbl.
    destruct (pem_Decode data) as [[b'|] rest] eqn:Hd; [|discriminate].
    injection Hbl as -> _. eapply loop_unparsable; eauto.
  - destruct fuel' as [|fuel']; [lia|]. destruct fuel as [|fuel]; [lia|].
    cbn [pemBlocks] in Hbl. rewrite <- app_comm_cons in Hbl.
    destruct (pem_Decode data) as [[b'|] rest] eqn:Hd; [|discriminate].
    injection Hbl as -> Hbl.
    apply Forall_cons in Hsk as [Ha Hsk].
    rewrite (loop_skipped _ _ _ _ _ _ Hd Ha).
    pose proof (Hcons _ _ _ Hd) as Hlen.
    apply (IH fuel fuel' x rest b e post w); [lia | lia | exact Hbl | exact Hsk | exact Hbad].
Qed.

Lemma loop_without_leaf (Hcons : pem_Decode_consumes) fuel :
  forall fuel' x data w,
    (length data < fuel)%nat -> (length data < fuel')%nat ->
    Forall notLeaf (pemBlocks fuel' data) ->
    exists line,
      setCertFingerprint_loop fuel (Some x) data w
      = (Exited 1, add_events [EvLog line; EvExit 1] w).
Proof.
  induction fuel as [|fuel IH]; intros fuel' x data w Hf Hf' Hnl; [lia|].
  destruct fuel' as [|fuel']; [lia|].
  cbn [pemBlocks] in Hnl.
  destruct (pem_Decode data) as [[b|] rest] eqn:Hd.
  - apply Forall_cons in Hnl as [Hb Hnl].
    pose proof (Hcons _ _ _ Hd) as Hlen.
    destruct (classify b) as [|e|c|c] eqn:Hc.
    + rewrite (loop_skipped _ _ _ _ _ _ Hd) by (left; exact Hc).
      apply (IH fuel'); [lia | lia | exact Hnl].
    + cbn [setCertFingerprint_loop]. rewrite Hd.
      unfold classify in Hc. case_bool_decide; [|discriminate].
      destruct (x509_ParseCertificate (blockBytes b)) as [c'|e'].
      * destruct (IsCA c'); discriminate.
      * eexists. reflexivity.
    + rewrite (loop_skipped _ _ _ _ _ _ Hd) by (right; eexists; exact Hc).
      apply (IH fuel'); [lia | lia | exact Hnl].
    + exfalso. exact (Hb c Hc).
  - cbn [setCertFingerprint_loop]. rewrite Hd. eexists. reflexivity.
Qed.

(** What a run of the loop does depends on the input alone: it either
    stores the digest of one certificate, or exits, whatever the world. *)
Lemma loop_shape fuel : forall x data,
  exists (r : outcome x509_Certificate) (es : list Event),
    forall w,
      setCertFingerprint_loop fuel (Some x) data w
      = match r with
        | Returned c =>
            (Returned tt, add_events es (set_certSha256 (sha256.Sum256 (Raw c)) w))
        | Exited code => (Exited code, add_events es w)
        | OutOfFuel => (OutOfFuel, w)
        end.
Proof.
  induction fuel as [|fuel IH]; intros x data.
  - exists OutOfFuel, []. reflexivity.
  - cbn [setCertFingerprint_loop].
    destruct (pem_Decode data) as [[b|] rest] eqn:Hd.
    + case_bool_decide as Ht; [|apply IH].
      destruct (x509_ParseCertificate (blockBytes b)) as [c|e].
      * destruct (IsCA c); [apply IH|].
        exists (Returned c),
          [EvLog ("SHA-256 of server's certificate: "
                  +:+ fmt_x (sha256.Sum256 (Raw c)))].
        intros w. reflexivity.
      * exists (Exited 1). eexists. intros w. reflexivity.
    + exists (Exited 1). eexists. intros w. reflexivity.
Qed.

(** C7: [setCertFingerprint] stores the SHA-256 digest of the encoded bytes
    of the first certificate of the chain that is no authority's, stepping
    over authorities' certificates (and blocks of other types) before it;
    the digest has 32 bytes and depends on the input alone; on a chain
    without such a certificate the process exits and the stored value is
    left as it was.  (A certificate that does not parse, met before any
    leaf, ends the process as well.) *)
Theorem C7_setCertFingerprint_hashes_first_leaf
    (Hcons : pem_Decode_consumes) (rawData : bytes) (w : World) :
  (forall pre b c post,
      pemChain rawData = pre ++ b :: post ->
      Forall skipped pre -> classify b = Leaf c ->
      exists w',
        setCertFingerprint rawData w = (Returned tt, w')
        /\ certSha256 w' = sha256.Sum256 (Raw c)
        /\ length (certSha256 w') = 32%nat)
  /\ (Forall notLeaf (pemChain rawData) ->
      exists w',
        setCertFingerprint rawData w = (Exited 1, w')
        /\ certSha256 w' = certSha256 w)
  /\ (forall w2 w' w2',
        setCertFingerprint rawData w = (Returned tt, w') ->
        setCertFingerprint rawData w2 = (Returned tt, w2') ->
        certSha256 w' = certSha256 w2')
  /\ (forall pre b e post,
        pemChain rawData = pre ++ b :: post ->
        Forall skipped pre -> classify b = Unparsable e ->
        exists w',
          setCertFingerprint rawData w = (Exited 1, w')
          /\ certSha256 w' = certSha256 w).
Proof.
  split; [|split; [|split]].
  - intros pre b c post Hchain Hsk Hleaf.
    eexists. split; [|split].
    + unfold setCertFingerprint.
      eapply (loop_reaches_leaf Hcons pre); eauto.
    + reflexivity.
    + reflexivity.
  - intros Hnl.
    destruct (loop_without_leaf Hcons (S (length rawData)) (S (length rawData))
                [] rawData w) as [line Hrun]; [lia | lia | exact Hnl |].
    eexists. split; [exact Hrun | reflexivity].
  - intros w2 w' w2' Hrun Hrun2. unfold setCertFingerprint in *.
    destruct (loop_shape (S (length rawData)) [] rawData) as (r & es & Hshape).
    rewrite Hshape in Hrun. rewrite Hshape in Hrun2.
    destruct r as [c|code|]; try discriminate.
    injection Hrun as <-. injection Hrun2 as <-. reflexivity.
  - intros pre b e post Hchain Hsk Hbad.
    eexists. split.
    + unfold setCertFingerprint.
      eapply (loop_reaches_unparsable Hcons pre); eauto.
    + reflexivity.
Qed.

End FingerprintFacts.

Lemma sample_pem_Decode_consumes : pem_Decode_consumes (H := sampleCertLibs).
Proof.
  intros data b rest. cbn [pem_Decode sampleCertLibs].
  destruct data as [|tag [|n data]]; try discriminate.
  case_bool_decide as Hn; [|discriminate].
  intros [= _ <-]. rewrite length_skipn. cbn [length]. lia.
Qed.

(** C7 on the sample chain: the key and the authority's certificate are
    stepped over and the leaf is hashed; without the leaf the process
    exits. *)
Lemma C7_setCertFingerprint_witness :
  (exists w',
      setCertFingerprint sampleChain (initialWorld ∅ []) = (Returned tt, w')
      /\ certSha256 w' = sha256.Sum256 [0; 5; 6; 7])
  /\ (exists w',
      setCertFingerprint sampleChainNoLeaf (initialWorld ∅ []) = (Exited 1, w')
      /\ certSha256 w' = replicate 32 0).
Proof.
  split.
  - destruct (C7_setCertFingerprint_hashes_first_leaf
                sample_pem_Decode_consumes sampleChain (initialWorld ∅ []))
      as (Hleaf & _).
    destruct (Hleaf
                [ {| blockType := "PRIVATE KEY"; blockBytes := [9; 9] |};
                  {| blockType := "CERTIFICATE"; blockBytes := [1; 7; 7] |} ]
                {| blockType := "CERTIFICATE"; blockBytes := [0; 5; 6; 7] |}
                {| Raw := [0; 5; 6; 7]; IsCA := false |} [])
      as (w' & Hrun & Hsum & _).
    + reflexivity.
    + apply Forall_cons_2; [left; reflexivity|].
      apply Forall_cons_2; [right; eexists; reflexivity|].
      apply Forall_nil_2.
    + reflexivity.
    + exists w'. split; [exact Hrun | exact Hsum].
  - destruct (C7_setCertFingerprint_hashes_first_leaf
                sample_pem_Decode_consumes sampleChainNoLeaf (initialWorld ∅ []))
      as (_ & Hnone & _ & _).
    destruct Hnone as (w' & Hrun & Hsame).
    + apply Forall_cons_2; [intros c; discriminate|].
      apply Forall_cons_2; [intros c; discriminate|].
      apply Forall_nil_2.
    + exists w'. split; [exact Hrun | exact Hsame].
Defined.

(** ** The anonymization key *)

Ltac run_M :=
  unfold log_Printf, log_Fatal, emit; unfold bind, ret, get, modify;
  cbn [fst snd entropy trace certSha256 hmacKey cryptoPAn environ
       add_events set_entropy set_hmacKey set_cryptoPAn set_certSha256
       set_environ].

Lemma rand_Read_enough n w :
  (n <= length (entropy w))%nat ->
  rand_Read n w
  = (Returned (Ok (firstn n (entropy w))),
     set_entropy (skipn n (entropy w)) (add_events [EvRandRead n] w)).
Proof.
  intros Hn. unfold rand_Read. run_M.
  rewrite bool_decide_eq_true_2 by exact Hn. reflexivity.
Qed.

Lemma rand_Read_short n w :
  (length (entropy w) < n)%nat ->
  rand_Read n w
  = (Returned (Err "unexpected EOF"),
     set_entropy [] (add_events [EvRandRead n] w)).
Proof.
  intros Hn. unfold rand_Read. run_M.
  rewrite bool_decide_eq_false_2 by lia. reflexivity.
Qed.

Lemma initAnonymization_hmac_ok w :
  (hmacKeySize <= length (entropy w))%nat ->
  initAnonymization false w
  = (Returned tt,
     add_events [EvLog ("HMAC key: " +:+ fmt_x (firstn hmacKeySize (entropy w)))]
       (set_hmacKey (Some (firstn hmacKeySize (entropy w)))
          (set_entropy (skipn hmacKeySize (entropy w))
             (add_events [EvRandRead hmacKeySize]
                (set_hmacKey (Some (replicate hmacKeySize 0))
                   (add_events
                      [EvLog "Using HMAC-SHA256 for IP address anonymization."]
                      w)))))).
Proof.
  intros Hn. unfold initAnonymization. cbn [negb].
  run_M. rewrite rand_Read_enough by exact Hn. run_M. reflexivity.
Qed.

Lemma initAnonymization_hmac_short w :
  (length (entropy w) < hmacKeySize)%nat ->
  initAnonymization false w
  = (Exited 1,
     add_events [EvLog "unexpected EOF"; EvExit 1]
       (set_entropy []
          (add_events [EvRandRead hmacKeySize]
             (set_hmacKey (Some (replicate hmacKeySize 0))
                (add_events
                   [EvLog "Using HMAC-SHA256 for IP address anonymization."]
                   w))))).
Proof.
  intros Hn. unfold initAnonymization. cbn [negb].
  run_M. rewrite rand_Read_short by exact Hn. run_M. reflexivity.
Qed.

Lemma initAnonymization_cryptopan_enough w :
  (cryptopan.Size <= length (entropy w))%nat ->
  let buf := firstn cryptopan.Size (entropy w) in
  let w1 :=
    add_events [EvLog ("Crypto-PAn key: " +:+ fmt_x buf)]
      (set_entropy (skipn cryptopan.Size (entropy w))
         (add_events [EvRandRead cryptopan.Size]
            (add_events
               [EvLog "Using Crypto-PAn for IP address anonymization."] w))) in
  initAnonymization true w
  = match cryptopan.New buf with
    | Ok c => (Returned tt, set_cryptoPAn (Some c) w1)
    | Err e =>
        (Exited 1, add_events [EvLog e; EvExit 1] (set_cryptoPAn None w1))
    end.
Proof.
  intros Hn buf w1. subst buf w1. unfold initAnonymization. cbn [negb].
  run_M. rewrite rand_Read_enough by exact Hn. run_M.
  destruct (cryptopan.New _); reflexivity.
Qed.

Lemma initAnonymization_cryptopan_short w :
  (length (entropy w) < cryptopan.Size)%nat ->
  initAnonymization true w
  = (Exited 1,
     add_events [EvLog "unexpected EOF"; EvExit 1]
       (set_entropy []
          (add_events [EvRandRead cryptopan.Size]
             (add_events
                [EvLog "Using Crypto-PAn for IP address anonymization."] w)))).
Proof.
  intros Hn. unfold initAnonymization. cbn [negb].
  run_M. rewrite rand_Read_short by exact Hn. run_M. reflexivity.
Qed.

Lemma New_key_of_size buf c : cryptopan.New buf = Ok c -> c = {| cryptopan.key := buf |}.
Proof.
  unfold cryptopan.New. case_bool_decide; [|discriminate]. intros [= <-]. reflexivity.
Qed.

Lemma last_two {A} (l : list A) a b : last (l ++ [a; b]) = Some b.
Proof. change [a; b] with ([a] ++ [b]). rewrite app_assoc. apply last_snoc. Qed.

Ltac trace_simpl :=
  unfold randReads, logLines;
  cbn [trace add_events set_entropy set_hmacKey set_cryptoPAn set_certSha256
       set_environ];
  rewrite ?omap_app; cbn [omap list_omap]; rewrite ?app_nil_r.

(** C8: [initAnonymization] reads the random source exactly once, for as
    many bytes as the key of the strategy has; when the source cannot
    deliver them, or the Crypto-PAn object cannot be made, the process exits
    there, with no Crypto-PAn object installed; otherwise the key installed
    is the bytes read. *)
Theorem C8_initAnonymization_one_draw_or_exit (useCryptoPAn : bool) (w : World) :
  let size := keySize useCryptoPAn in
  let r := fst (initAnonymization useCryptoPAn w) in
  let w' := snd (initAnonymization useCryptoPAn w) in
  let drawn := firstn size (entropy w) in
  randReads w' = randReads w ++ [size]
  /\ match r with
     | Returned _ =>
         (size <= length (entropy w))%nat
         /\ (if useCryptoPAn
             then cryptoPAn w' = Some {| cryptopan.key := drawn |}
             else hmacKey w' = Some drawn)
     | Exited code =>
         code = 1
         /\ ((length (entropy w) < size)%nat
             \/ (useCryptoPAn = true /\ exists e, cryptopan.New drawn = Err e))
         /\ last (trace w') = Some (EvExit 1)
         /\ (if useCryptoPAn
             then cryptoPAn w' = cryptoPAn w \/ cryptoPAn w' = None
             else True)
     | OutOfFuel => False
     end
  /\ ((length (entropy w) < size)%nat -> r = Exited 1).
Proof.
  intros size r w' drawn. subst size r w' drawn.
  destruct (le_lt_dec (keySize useCryptoPAn) (length (entropy w))) as [Hn|Hn];
    destruct useCryptoPAn; unfold keySize in *.
  - rewrite (initAnonymization_cryptopan_enough w Hn).
    destruct (cryptopan.New (firstn cryptopan.Size (entropy w))) as [c|e] eqn:Enew;
      cbn [fst snd].
    + split; [trace_simpl; reflexivity|].
      split; [|intros; lia].
      split; [exact Hn|]. apply New_key_of_size in Enew. subst c. reflexivity.
    + split; [trace_simpl; reflexivity|].
      split; [|intros; lia].
      split; [reflexivity|].
      split; [right; split; [reflexivity | exists e; reflexivity]|].
      split; [|right; reflexivity].
      cbn [trace add_events set_entropy set_cryptoPAn].
      apply last_two.
  - rewrite (initAnonymization_hmac_ok w Hn). cbn [fst snd].
    split; [trace_simpl; reflexivity|].
    split; [|intros; lia].
    split; [exact Hn | reflexivity].
  - rewrite (initAnonymization_cryptopan_short w Hn). cbn [fst snd].
    split; [trace_simpl; reflexivity|].
    split; [|reflexivity].
    split; [reflexivity|]. split; [left; exact Hn|].
    split; [|left; reflexivity].
    cbn [trace add_events set_entropy].
    apply last_two.
  - rewrite (initAnonymization_hmac_short w Hn). cbn [fst snd].
    split; [trace_simpl; reflexivity|].
    split; [|reflexivity].
    split; [reflexivity|]. split; [left; exact Hn|].
    split; [|exact I].
    cbn [trace add_events set_entropy set_hmacKey].
    apply last_two.
Qed.

(** ** Logging of the key *)

Lemma logLines_add_events es w :
  logLines (add_events es w)
  = logLines w ++ omap (fun e => match e with EvLog l => Some l | _ => None end) es.
Proof. unfold logLines, add_events. cbn [trace]. apply omap_app. Qed.

Lemma bind_Returned {A B} (m : M A) (k : A -> M B) w b w' :
  bind m k w = (Returned b, w') ->
  exists a w1, m w = (Returned a, w1) /\ k a w1 = (Returned b, w').
Proof.
  unfold bind. destruct (m w) as [[a|c|] w1]; try discriminate.
  intros Hk. exists a, w1. split; [reflexivity | exact Hk].
Qed.

Lemma fail_on_Returned {A} err msg (k : M A) w a w' :
  fail_on err msg k w = (Returned a, w') -> k w = (Returned a, w').
Proof. destruct err; [discriminate | trivial]. Qed.

Lemma initAnonymization_Returned useCP w w' :
  initAnonymization useCP w = (Returned tt, w') ->
  let k := firstn (keySize useCP) (entropy w) in
  installedKey useCP w' = Some k
  /\ length k = keySize useCP
  /\ exists pre, logLines w' = logLines w ++ pre ++ [keyLine useCP k].
Proof.
  intros Hrun k. subst k.
  destruct (le_lt_dec (keySize useCP) (length (entropy w))) as [Hn|Hn];
    destruct useCP; unfold keySize in *.
  - rewrite (initAnonymization_cryptopan_enough w Hn) in Hrun.
    destruct (cryptopan.New _) as [c|e] eqn:Enew; [|discriminate].
    apply New_key_of_size in Enew. subst c.
    injection Hrun as <-. split; [reflexivity|].
    split; [apply length_take_le; exact Hn|].
    exists ["Using Crypto-PAn for IP address anonymization."].
    trace_simpl. rewrite <- !app_assoc. reflexivity.
  - rewrite (initAnonymization_hmac_ok w Hn) in Hrun.
    injection Hrun as <-. split; [reflexivity|].
    split; [apply length_take_le; exact Hn|].
    exists ["Using HMAC-SHA256 for IP address anonymization."].
    trace_simpl. rewrite <- !app_assoc. reflexivity.
  - rewrite (initAnonymization_cryptopan_short w Hn) in Hrun. discriminate.
  - rewrite (initAnonymization_hmac_short w Hn) in Hrun. discriminate.
Qed.

(** Up to [initAnonymization], [main] changes neither the random source nor
    what the log holds already. *)
Lemma main_init_Returned cfg pf w rv w' :
  main_init cfg pf w = (Returned rv, w') ->
  exists w1,
    entropy w1 = entropy w
    /\ (exists pre, logLines w1 = logLines w ++ pre)
    /\ initAnonymization (useCryptoPAn cfg) w1 = (Returned tt, w').
Proof.
  unfold main_init. intros Hrun.
  apply bind_Returned in Hrun as ([] & wa & Ha & Hrun).
  apply bind_Returned in Hrun as ([] & wb & Hb & Hrun).
  apply bind_Returned in Hrun as ([] & wc & Hc & Hrun).
  apply bind_Returned in Hrun as (router & wd & Hd & Hrun).
  apply bind_Returned in Hrun as ([] & we & He & Hrun).
  assert (Hw' : we = w').
  { unfold NewVProxy, net_ResolveTCPAddr in Hrun. cbv [ret] in Hrun. congruence. }
  subst we. exists wd. split; [|split]; [| |exact He].
  - assert (entropy wa = entropy w) as <-.
    { destruct (debug cfg); cbv [log_Printf emit modify ret] in Ha;
        injection Ha as <-; reflexivity. }
    assert (entropy wb = entropy wa) as <-.
    { destruct (ignoreNitro pf); cbn [negb] in Hb.
      - cbv [ret] in Hb. congruence.
      - do 2 apply fail_on_Returned in Hb. cbv [ret] in Hb. congruence. }
    cbv [log_Printf emit modify] in Hc. injection Hc as <-.
    unfold initRouter in Hd. run_M. injection Hd as _ <-. reflexivity.
  - assert (exists pre, logLines wa = logLines w ++ pre) as [pa Hpa].
    { destruct (debug cfg); cbv [log_Printf emit modify ret] in Ha;
        injection Ha as <-.
      - eexists. apply logLines_add_events.
      - exists []. rewrite app_nil_r. reflexivity. }
    assert (wb = wa) as ->.
    { destruct (ignoreNitro pf); cbn [negb] in Hb.
      - cbv [ret] in Hb. congruence.
      - do 2 apply fail_on_Returned in Hb. cbv [ret] in Hb. congruence. }
    cbv [log_Printf emit modify] in Hc. injection Hc as <-.
    unfold initRouter in Hd. run_M. injection Hd as _ <-.
    rewrite logLines_add_events, Hpa, <- app_assoc. eexists. reflexivity.
Qed.

(** C2, in the form that holds of the code: in every build, with debug mode
    or without it, the start
    of [main] writes the key it installs to the log: whenever [main] gets past
    [initAnonymization], the log holds the line made of the strategy's label
    and the key in hexadecimal, and that key is the one the process holds. *)
Theorem C2_key_is_logged_in_every_build
    (cfg : Config) (pf : Platform) (w w' : World) (rv : Router * VProxy)
    (Hrun : main_init cfg pf w = (Returned rv, w')) :
  exists k,
    installedKey (useCryptoPAn cfg) w' = Some k
    /\ length k = keySize (useCryptoPAn cfg)
    /\ In (keyLine (useCryptoPAn cfg) k) (logLines w').
Proof.
  apply main_init_Returned in Hrun as (w1 & Hent & [pre Hlog] & Hinit).
  apply initAnonymization_Returned in Hinit as (Hkey & Hlen & [pre' Hlog']).
  eexists. split; [exact Hkey|]. split; [exact Hlen|].
  rewrite Hlog'. apply in_app_iff. right. apply in_app_iff. right.
  left. reflexivity.
Qed.

(** C2 in a build without debug mode, for each strategy. *)
Lemma C2_key_is_logged_witness :
  (exists k, In (keyLine true k)
                (logLines (snd (main_init (nonDebugConfig true) samplePlatform
                                  (initialWorld ∅ sampleEntropy)))))
  /\ (exists k, In (keyLine false k)
                  (logLines (snd (main_init (nonDebugConfig false) samplePlatform
                                    (initialWorld ∅ sampleEntropy))))).
Proof.
  split.
  - edestruct (C2_key_is_logged_in_every_build (nonDebugConfig true)
                 samplePlatform (initialWorld ∅ sampleEntropy))
      as (k & _ & _ & Hin).
    + reflexivity.
    + exists k. exact Hin.
  - edestruct (C2_key_is_logged_in_every_build (nonDebugConfig false)
                 samplePlatform (initialWorld ∅ sampleEntropy))
      as (k & _ & _ & Hin).
    + reflexivity.
    + exists k. exact Hin.
Defined.

(** C2 as stated fails: in a build without debug mode, started with the
    bytes 0 to 31 as random source, the log holds the Crypto-PAn key the
    process installs. *)
Lemma C2_key_logged_without_debug :
  let cfg := nonDebugConfig true in
  let w' := snd (main_init cfg samplePlatform (initialWorld ∅ sampleEntropy)) in
  debug cfg = false
  /\ cryptoPAn w' = Some {| cryptopan.key := sampleEntropy |}
  /\ logLines w'
     = [ "Setting up HTTP handlers.";
         "Using Crypto-PAn for IP address anonymization.";
         "Crypto-PAn key: 000102030405060708090a0b0c0d0e0f101112131415161718191a1b1c1d1e1f" ].
Proof. vm_compute. repeat split. Qed.

(** ** The forwarding goroutines *)

Section PipeFacts.

Lemma closed_insert (m : gmap ConnId Conn) c k k' c' :
  m !! c = Some k -> closed k' = closed k ->
  closed <$> <[c := k']> m !! c' = closed <$> m !! c'.
Proof.
  intros Hk Hcl. destruct (decide (c = c')) as [<-|Hne].
  - rewrite lookup_insert_eq, Hk. cbn. congruence.
  - rewrite lookup_insert_ne by exact Hne. reflexivity.
Qed.

Ltac net_simpl :=
  unfold isClosed; cbn [conns netTrace net_event net_update].

Ltac unchanged :=
  repeat match goal with
         | |- _ /\ _ => split
         | |- forall _, _ => intro
         end;
  try reflexivity; try (cbn; lia).

Lemma conn_Read_spec c n st :
  match conn_Read c n st with
  | (None, st') => st' = st
  | (Some (data, err), st') =>
      netTrace st' = netTrace st ++ [NRead c n data err]
      /\ (length data <= n)%nat
      /\ (forall c', isClosed st' c' = isClosed st c')
      /\ (forall c', c' <> c -> conns st' !! c' = conns st !! c')
  end.
Proof.
  unfold conn_Read.
  destruct (conns st !! c) as [k|] eqn:Hk.
  2:{ net_simpl. unchanged. }
  destruct (closed k) eqn:Hcl.
  { net_simpl. unchanged. }
  destruct (rx k) as [|[bs|bs msg] rest].
  - reflexivity.
  - net_simpl.
    split; [reflexivity|]. split; [rewrite length_take; lia|]. split.
    + intros c'. apply (closed_insert _ _ k); [exact Hk | cbn; congruence].
    + intros c' Hne. rewrite lookup_insert_ne by congruence. reflexivity.
  - net_simpl.
    split; [reflexivity|]. split; [rewrite length_take; lia|]. split.
    + intros c'. apply (closed_insert _ _ k); [exact Hk | cbn; congruence].
    + intros c' Hne. rewrite lookup_insert_ne by congruence. reflexivity.
Qed.

Lemma conn_Write_spec c b st :
  match conn_Write c b st with
  | ((n, err), st') =>
      netTrace st' = netTrace st ++ [NWrite c b n err]
      /\ (n <= length b)%nat
      /\ (forall c', isClosed st' c' = isClosed st c')
      /\ (forall c', c' <> c -> conns st' !! c' = conns st !! c')
  end.
Proof.
  unfold conn_Write.
  destruct (conns st !! c) as [k|] eqn:Hk.
  2:{ net_simpl. unchanged. }
  destruct (closed k) eqn:Hcl.
  { net_simpl. unchanged. }
  destruct (tx k) as [|[|m|m msg] rest]; net_simpl.
  all: split; [reflexivity|]; split; [lia|]; split;
    [intros c'; apply (closed_insert _ _ k); [exact Hk | cbn; congruence]
    |intros c' Hne; rewrite lookup_insert_ne by congruence; reflexivity].
Qed.

Lemma conn_Close_spec c st :
  match conn_Close c st with
  | (err, st') =>
      netTrace st' = netTrace st ++ [NClose c err]
      /\ (forall c', c' <> c -> conns st' !! c' = conns st !! c')
      /\ (is_Some (conns st !! c) -> isClosed st' c = Some true)
  end.
Proof.
  unfold conn_Close.
  destruct (conns st !! c) as [k|] eqn:Hk.
  2:{ net_simpl. split; [reflexivity|]. split; [reflexivity|].
      intros [? ?]; discriminate. }
  destruct (closed k) eqn:Hcl; net_simpl.
  - split; [reflexivity|]. split; [reflexivity|].
    intros _. rewrite Hk. cbn. congruence.
  - split; [reflexivity|]. split.
    + intros c' Hne. rewrite lookup_insert_ne by congruence. reflexivity.
    + intros _. rewrite lookup_insert_eq. reflexivity.
Qed.

(** The loop of [pipe]: some turns that forward what they read, then the
    turn that fails, if the loop ends. *)
Lemma pipe_loop_spec fuel : forall src dst st,
  exists datas,
    Forall (fun d => (length d <= pipeBufSize)%nat) datas
    /\ (forall c, isClosed (snd (pipe_loop fuel src dst st)) c = isClosed st c)
    /\ (forall c, c <> src -> c <> dst ->
          conns (snd (pipe_loop fuel src dst st)) !! c = conns st !! c)
    /\ match fst (pipe_loop fuel src dst st) with
       | PipeRunning =>
           netTrace (snd (pipe_loop fuel src dst st))
           = netTrace st ++ flat_map (forwarded src dst) datas
           /\ length datas = fuel
       | PipeBlocked =>
           netTrace (snd (pipe_loop fuel src dst st))
           = netTrace st ++ flat_map (forwarded src dst) datas
       | PipeReturned =>
           exists f,
             failureOk f
             /\ netTrace (snd (pipe_loop fuel src dst st))
                = netTrace st ++ flat_map (forwarded src dst) datas
                  ++ failureEvents src dst f
       end.
Proof.
  induction fuel as [|fuel IH]; intros src dst st.
  { exists []. cbn. rewrite app_nil_r. auto. }
  cbn [pipe_loop].
  pose proof (conn_Read_spec src pipeBufSize st) as Hr.
  destruct (conn_Read src pipeBufSize st) as [[[data [e|]]|] st1].
  - (* the read fails *)
    destruct Hr as (Ht & Hlen & Hcl & Hfr).
    exists []. split; [constructor|]. cbn [fst snd].
    split; [exact Hcl|]. split; [intros c Hs _; apply Hfr; exact Hs|].
    exists (ReadFailed data e). split; [exact Hlen|].
    cbn [net_event netTrace flat_map failureEvents app]. rewrite Ht.
    rewrite <- app_assoc. reflexivity.
  - (* the read succeeds *)
    destruct Hr as (Ht & Hlen & Hcl & Hfr).
    pose proof (conn_Write_spec dst data st1) as Hw.
    destruct (conn_Write dst data st1) as [[n [e|]] st2];
      destruct Hw as (Ht2 & Hn & Hcl2 & Hfr2).
    + exists []. split; [constructor|]. cbn [fst snd].
      split; [intros c; unfold isClosed in *; cbn [conns net_event];
              rewrite Hcl2; apply Hcl|].
      split; [intros c Hs Hd; cbn [conns net_event];
              rewrite Hfr2 by exact Hd; apply Hfr; exact Hs|].
      exists (WriteFailed data n e). split; [split; assumption|].
      cbn [net_event netTrace flat_map failureEvents app].
      rewrite Ht2, Ht, <- !app_assoc. reflexivity.
    + case_bool_decide as Hshort.
      * exists []. split; [constructor|]. cbn [fst snd].
        split; [intros c; unfold isClosed in *; cbn [conns net_event];
                rewrite Hcl2; apply Hcl|].
        split; [intros c Hs Hd; cbn [conns net_event];
                rewrite Hfr2 by exact Hd; apply Hfr; exact Hs|].
        exists (ShortWrite data n). split; [split; [assumption | lia]|].
        cbn [net_event netTrace flat_map failureEvents app].
        rewrite Ht2, Ht, <- !app_assoc. reflexivity.
      * assert (n = length data) as -> by (destruct (decide (n = length data)); tauto).
        destruct (IH src dst st2) as (datas & Hds & Hcl3 & Hfr3 & Hend).
        exists (data :: datas). split; [constructor; assumption|].
        split; [intros c; rewrite Hcl3, Hcl2; apply Hcl|].
        split; [intros c Hs Hd; rewrite Hfr3 by assumption;
                rewrite Hfr2 by exact Hd; apply Hfr; exact Hs|].
        cbn [flat_map forwarded app].
        destruct (fst (pipe_loop fuel src dst st2)).
        -- destruct Hend as (f & Hf & Hend). exists f. split; [exact Hf|].
           rewrite Hend, Ht2, Ht, <- !app_assoc. reflexivity.
        -- rewrite Hend, Ht2, Ht, <- !app_assoc. reflexivity.
        -- destruct Hend as [Hend Hlen']. split; [|cbn; lia].
           rewrite Hend, Ht2, Ht, <- !app_assoc. reflexivity.
  - (* the read blocks *)
    subst st1. exists []. split; [constructor|]. cbn [fst snd flat_map].
    rewrite app_nil_r. auto.
Qed.

(** [pipe]: the loop, and the close of the source when the loop ends. *)
Lemma pipe_spec fuel src dst st :
  exists datas,
    Forall (fun d => (length d <= pipeBufSize)%nat) datas
    /\ (forall c, c <> src -> isClosed (snd (pipe fuel src dst st)) c = isClosed st c)
    /\ (forall c, c <> src -> c <> dst ->
          conns (snd (pipe fuel src dst st)) !! c = conns st !! c)
    /\ match fst (pipe fuel src dst st) with
       | PipeRunning =>
           netTrace (snd (pipe fuel src dst st))
           = netTrace st ++ flat_map (forwarded src dst) datas
           /\ length datas = fuel
           /\ isClosed (snd (pipe fuel src dst st)) src = isClosed st src
       | PipeBlocked =>
           netTrace (snd (pipe fuel src dst st))
           = netTrace st ++ flat_map (forwarded src dst) datas
           /\ isClosed (snd (pipe fuel src dst st)) src = isClosed st src
       | PipeReturned =>
           exists f err,
             failureOk f
             /\ netTrace (snd (pipe fuel src dst st))
                = netTrace st ++ flat_map (forwarded src dst) datas
                  ++ failureEvents src dst f ++ closeEvents src err
             /\ (is_Some (conns st !! src) ->
                 isClosed (snd (pipe fuel src dst st)) src = Some true)
       end.
Proof.
  destruct (pipe_loop_spec fuel src dst st) as (datas & Hds & Hcl & Hfr & Hend).
  exists datas. split; [exact Hds|]. unfold pipe.
  destruct (pipe_loop fuel src dst st) as [[| |] st1]; cbn [fst snd] in *.
  - destruct Hend as (f & Hf & Hend).
    pose proof (conn_Close_spec src st1) as Hc.
    destruct (conn_Close src st1) as [[e|] st2];
      destruct Hc as (Ht & Hfr2 & Hclosed); cbn [fst snd].
    + split; [intros c Hne; unfold isClosed in *; cbn [conns net_event];
              rewrite Hfr2 by exact Hne; apply Hcl|].
      split; [intros c Hs Hd; cbn [conns net_event];
              rewrite Hfr2 by exact Hs; apply Hfr; assumption|].
      exists f, (Some e). split; [exact Hf|]. split.
      * cbn [net_event netTrace closeEvents]. rewrite Ht, Hend.
        rewrite <- !app_assoc. reflexivity.
      * intros [k Hk]. unfold isClosed in *. cbn [conns net_event].
        apply Hclosed. specialize (Hcl src). rewrite Hk in Hcl.
        destruct (conns st1 !! src); [eauto | discriminate].
    + split; [intros c Hne; unfold isClosed in *;
              rewrite Hfr2 by exact Hne; apply Hcl|].
      split; [intros c Hs Hd; rewrite Hfr2 by exact Hs; apply Hfr; assumption|].
      exists f, None. split; [exact Hf|]. split.
      * cbn [closeEvents]. rewrite Ht, Hend. rewrite <- !app_assoc. reflexivity.
      * intros [k Hk]. apply Hclosed. specialize (Hcl src).
        unfold isClosed in Hcl. rewrite Hk in Hcl.
        destruct (conns st1 !! src); [eauto | discriminate].
  - split; [intros c _; apply Hcl|]. split; [exact Hfr|].
    split; [exact Hend | apply Hcl].
  - split; [intros c _; apply Hcl|]. split; [exact Hfr|].
    destruct Hend as [Hend Hlen]. split; [exact Hend|]. split; [exact Hlen | apply Hcl].
Qed.

Lemma no_close_in_forwarded src dst datas c err :
  ~ In (NClose c err) (flat_map (forwarded src dst) datas).
Proof.
  intros Hin. apply in_flat_map in Hin as (d & _ & Hin).
  cbn in Hin. intuition discriminate.
Qed.

Lemma no_close_in_failure src dst f c err :
  ~ In (NClose c err) (failureEvents src dst f).
Proof. destruct f; cbn; intuition discriminate. Qed.

Lemma close_in_closeEvents src e c err :
  In (NClose c err) (closeEvents src e) -> c = src.
Proof. destruct e; cbn; intuition congruence. Qed.

(** Every close among the events of [pipe] is a close of its source. *)
Lemma pipe_closes_in_trace fuel src dst st :
  exists new,
    netTrace (snd (pipe fuel src dst st)) = netTrace st ++ new
    /\ forall c err, In (NClose c err) new -> c = src.
Proof.
  destruct (pipe_spec fuel src dst st) as (datas & _ & _ & _ & Hend).
  destruct (fst (pipe fuel src dst st)).
  - destruct Hend as (f & err & _ & Ht & _).
    eexists. split; [exact Ht|]. intros c e Hin.
    apply in_app_iff in Hin as [Hin|Hin];
      [exfalso; exact (no_close_in_forwarded _ _ _ _ _ Hin)|].
    apply in_app_iff in Hin as [Hin|Hin];
      [exfalso; exact (no_close_in_failure _ _ _ _ _ Hin)|].
    exact (close_in_closeEvents _ _ _ _ Hin).
  - destruct Hend as [Ht _]. eexists. split; [exact Ht|]. intros c e Hin.
    exfalso. exact (no_close_in_forwarded _ _ _ _ _ Hin).
  - destruct Hend as [Ht _]. eexists. split; [exact Ht|]. intros c e Hin.
    exfalso. exact (no_close_in_forwarded _ _ _ _ _ Hin).
Qed.

Lemma pipeBufSize_pos : (0 < pipeBufSize)%nat.
Proof. unfold pipeBufSize. lia. Qed.

Ltac same_closed Hcl :=
  first [reflexivity | assumption | exact Hcl | symmetry; exact Hcl
        | cbn; congruence].

(** The loop of [pipe] on two connections of the process and a source that
    delivers finitely much: it stops, blocked or returned, and what the
    destination has received by then is what the turns read, in order. *)
Lemma pipe_loop_run fuel : forall src dst st ks kd,
  src <> dst -> conns st !! src = Some ks -> conns st !! dst = Some kd ->
  (weight (rx ks) < fuel)%nat ->
  exists ks' kd' datas,
    conns (snd (pipe_loop fuel src dst st)) !! src = Some ks'
    /\ conns (snd (pipe_loop fuel src dst st)) !! dst = Some kd'
    /\ Forall (fun d => (length d <= pipeBufSize)%nat) datas
    /\ rx kd' = rx kd /\ closed kd' = closed kd /\ sent ks' = sent ks
    /\ closed ks' = closed ks
    /\ match fst (pipe_loop fuel src dst st) with
       | PipeRunning => False
       | PipeBlocked =>
           netTrace (snd (pipe_loop fuel src dst st))
           = netTrace st ++ flat_map (forwarded src dst) datas
           /\ concat datas = stream (rx ks)
           /\ sent kd' = sent kd ++ concat datas
           /\ rx ks' = [] /\ closed ks = false
           /\ (forall bs msg, ~ In (RxErr bs msg) (rx ks))
       | PipeReturned =>
           exists f rest,
             failureOk f
             /\ netTrace (snd (pipe_loop fuel src dst st))
                = netTrace st ++ flat_map (forwarded src dst) datas
                  ++ failureEvents src dst f
             /\ sent kd' = sent kd ++ concat datas ++ written f
             /\ stream (rx ks) = concat datas ++ written f ++ rest
       end.
Proof.
  induction fuel as [|fuel IH]; intros src dst st ks kd Hne Hs Hd Hw; [lia|].
  cbn [pipe_loop]. unfold conn_Read. rewrite Hs.
  destruct (closed ks) eqn:Hcl.
  { (* the source is closed: the read fails *)
    cbn [fst snd]. exists ks, kd, [].
    cbn [conns net_event netTrace].
    do 2 (split; [assumption|]). split; [constructor|].
    do 3 (split; [same_closed Hcl|]). split; [same_closed Hcl|].
    exists (ReadFailed [] errClosed), (stream (rx ks)).
    split; [cbn; lia|]. split; [|split; [rewrite app_nil_r|]; reflexivity].
    cbn [flat_map failureEvents app]. rewrite <- app_assoc. reflexivity. }
  destruct (rx ks) as [|[bs|bs msg] items] eqn:Hrx.
  - (* nothing arrives: the goroutine blocks *)
    cbn [fst snd]. exists ks, kd, [].
    do 2 (split; [assumption|]). split; [constructor|].
    do 3 (split; [same_closed Hcl|]). split; [same_closed Hcl|].
    cbn [flat_map concat stream]. rewrite !app_nil_r.
    repeat split; try reflexivity; try exact Hcl; try exact Hrx;
      try (intros bs msg []).
  - (* some bytes arrive *)
    set (n := Nat.min pipeBufSize (length bs)).
    set (left := if (n <? length bs)%nat then RxData (skipn n bs) :: items else items).
    set (ks1 := {| rx := left; tx := tx ks; sent := sent ks; closed := false |}).
    set (st1 := net_event _ (net_update src ks1 st)).
    assert (Hs1 : conns st1 !! src = Some ks1) by apply lookup_insert_eq.
    assert (Hd1 : conns st1 !! dst = Some kd).
    { subst st1. cbn [conns net_event net_update].
      rewrite lookup_insert_ne by exact Hne. exact Hd. }
    assert (Hstream : bs ++ stream items = firstn n bs ++ stream left).
    { subst left. destruct (n <? length bs)%nat eqn:Hlt.
      - cbn [stream]. rewrite app_assoc, firstn_skipn. reflexivity.
      - apply Nat.ltb_ge in Hlt. rewrite firstn_all2 by exact Hlt. reflexivity. }
    assert (Hlen : (length (firstn n bs) <= pipeBufSize)%nat).
    { rewrite length_firstn. subst n. lia. }
    assert (Hleft : (weight left < fuel)%nat).
    { cbn [weight] in Hw. subst left. pose proof pipeBufSize_pos.
      destruct (n <? length bs)%nat eqn:Hlt.
      - apply Nat.ltb_lt in Hlt. cbn [weight]. rewrite length_skipn. lia.
      - lia. }
    assert (Ht1 : netTrace st1
                  = netTrace st ++ [NRead src pipeBufSize (firstn n bs) None])
      by reflexivity.
    unfold conn_Write. rewrite Hd1.
    destruct (closed kd) eqn:Hcld.
    { (* the destination is closed: the write fails *)
      cbn [fst snd]. exists ks1, kd, [].
      cbn [conns net_event netTrace].
      do 2 (split; [assumption|]). split; [constructor|].
      do 3 (split; [same_closed Hcl|]). split; [same_closed Hcl|].
      exists (WriteFailed (firstn n bs) 0 errClosed), (bs ++ stream items).
      split; [cbn; lia|].
      split; [|split; [rewrite app_nil_r|]; reflexivity].
      rewrite Ht1. cbn [flat_map failureEvents app]. rewrite <- !app_assoc.
      reflexivity. }
    set (res := match tx kd with
                | [] | TxAll :: _ => (length (firstn n bs), None)
                | TxShort m :: _ => (Nat.min m (length (firstn n bs)), None)
                | TxErr m msg :: _ => (Nat.min m (length (firstn n bs)), Some msg)
                end).
    assert (Hm : (fst res <= length (firstn n bs))%nat).
    { subst res. destruct (tx kd) as [|[| |] ?]; cbn [fst]; lia. }
    destruct res as [m err] eqn:Hres. cbn [fst] in Hm.
    set (kd2 := {| rx := rx kd; tx := tail (tx kd);
                   sent := sent kd ++ firstn m (firstn n bs); closed := false |}).
    set (st2 := net_event _ (net_update dst kd2 st1)).
    assert (Hd2 : conns st2 !! dst = Some kd2) by apply lookup_insert_eq.
    assert (Hs2 : conns st2 !! src = Some ks1).
    { subst st2. cbn [conns net_event net_update].
      rewrite lookup_insert_ne by congruence. exact Hs1. }
    assert (Ht2 : netTrace st2
                  = netTrace st ++ [NRead src pipeBufSize (firstn n bs) None;
                                    NWrite dst (firstn n bs) m err]).
    { subst st2. cbn [netTrace net_event net_update]. rewrite Ht1, <- app_assoc.
      reflexivity. }
    assert (Hrest : bs ++ stream items
                    = firstn m (firstn n bs) ++ skipn m (firstn n bs) ++ stream left).
    { rewrite Hstream, app_assoc, firstn_skipn. reflexivity. }
    destruct err as [e|].
    { (* the write fails *)
      cbn [fst snd]. exists ks1, kd2, [].
      cbn [conns net_event netTrace].
      do 2 (split; [assumption|]). split; [constructor|].
      split; [reflexivity|]. split; [same_closed Hcld|].
      split; [reflexivity|]. split; [same_closed Hcl|].
      exists (WriteFailed (firstn n bs) m e), (skipn m (firstn n bs) ++ stream left).
      split; [cbn; lia|]. split; [|split].
      - rewrite Ht2. cbn [flat_map failureEvents app]. rewrite <- !app_assoc.
        reflexivity.
      - reflexivity.
      - cbn [concat written app stream]. exact Hrest. }
    case_bool_decide as Hshort.
    { (* the write is short *)
      cbn [fst snd]. exists ks1, kd2, [].
      cbn [conns net_event netTrace].
      do 2 (split; [assumption|]). split; [constructor|].
      split; [reflexivity|]. split; [same_closed Hcld|].
      split; [reflexivity|]. split; [same_closed Hcl|].
      exists (ShortWrite (firstn n bs) m), (skipn m (firstn n bs) ++ stream left).
      split; [cbn; lia|]. split; [|split].
      - rewrite Ht2. cbn [flat_map failureEvents app]. rewrite <- !app_assoc.
        reflexivity.
      - reflexivity.
      - cbn [concat written app stream]. exact Hrest. }
    (* the whole chunk was written: the loop goes on *)
    assert (m = length (firstn n bs)) as Hfull by lia.
    destruct (IH src dst st2 ks1 kd2 Hne Hs2 Hd2 Hleft)
      as (ks' & kd' & datas & H1 & H2 & Hds & H5 & H6 & H7 & H8 & Hend).
    exists ks', kd', (firstn n bs :: datas).
    do 2 (split; [assumption|]). split; [constructor; assumption|].
    split; [exact H5|]. split; [rewrite H6; same_closed Hcld|].
    split; [exact H7|]. split; [rewrite H8; same_closed Hcl|].
    cbn [flat_map forwarded concat app stream].
    assert (Hsent2 : sent kd2 = sent kd ++ firstn n bs).
    { cbn [sent kd2]. rewrite Hfull, firstn_all. reflexivity. }
    destruct (fst (pipe_loop fuel src dst st2)).
    + destruct Hend as (f & rest & Hf & Ht & Hsent & Hstr).
      exists f, rest. split; [exact Hf|]. split; [|split].
      * rewrite Ht, Ht2, Hfull, <- !app_assoc. reflexivity.
      * rewrite Hsent, Hsent2, <- !app_assoc. reflexivity.
      * cbn [rx ks1] in Hstr. rewrite Hstream, Hstr, <- !app_assoc. reflexivity.
    + destruct Hend as (Ht & Hall & Hsent & Hnil & _ & Hne').
      split; [rewrite Ht, Ht2, Hfull, <- !app_assoc; reflexivity|].
      split; [cbn [rx ks1] in Hall; rewrite Hstream, Hall; reflexivity|].
      split; [rewrite Hsent, Hsent2, <- !app_assoc; reflexivity|].
      split; [exact Hnil|]. split; [reflexivity|].
      intros b msg Hin. destruct Hin as [Hin|Hin]; [discriminate|].
      apply (Hne' b msg). cbn [rx ks1]. subst left.
      destruct (n <? length bs)%nat; [right|]; exact Hin.
    + exact Hend.
  - (* an error arrives *)
    set (n := Nat.min pipeBufSize (length bs)).
    set (ks1 := {| rx := items; tx := tx ks; sent := sent ks; closed := false |}).
    cbn [fst snd net_event conns net_update netTrace].
    exists ks1, kd, [].
    split; [apply lookup_insert_eq|].
    split; [rewrite lookup_insert_ne by exact Hne; exact Hd|].
    split; [constructor|].
    do 3 (split; [same_closed Hcl|]). split; [same_closed Hcl|].
    exists (ReadFailed (firstn n bs) msg), [].
    split; [cbn; rewrite length_firstn; subst n; lia|].
    split; [|split; [rewrite app_nil_r|]; reflexivity].
    cbn [flat_map failureEvents app]. rewrite <- !app_assoc. reflexivity.
Qed.

End PipeFacts.

(** C4, in the form that holds of the code: a forwarding task reads into a
    buffer of 65535 bytes (0xffff, one byte less than 64 KiB), so no read
    returns more.  On two connections of the process and a source that
    delivers finitely much, the task forwards what the source delivers turn
    by turn, each turn writing to the destination exactly the bytes it
    read, and it stops in one of two ways.  It blocks in [Read] only when
    the source is open, has delivered no error and has nothing left to
    deliver, and then all that was delivered has been written.  Or it
    returns: the turn in which the read fails, the write fails or the write
    is short is the last one, the task then closes its source, and what the
    destination has received is what the turns before read, followed by
    what the last write took: a prefix of what the source delivered.  The
    task reads nothing from its destination and writes nothing to its
    source. *)
Theorem C4_pipe_forwards_reads_of_at_most_65535_bytes
    (fuel : nat) (src dst : ConnId) (st : NetState) (ks kd : Conn)
    (Hne : src <> dst)
    (Hsrc : conns st !! src = Some ks) (Hdst : conns st !! dst = Some kd)
    (Hfuel : (weight (rx ks) < fuel)%nat) :
  let o := fst (pipe fuel src dst st) in
  let st' := snd (pipe fuel src dst st) in
  pipeBufSize = Z.to_nat 65535
  /\ exists ks' kd' datas,
       conns st' !! src = Some ks' /\ conns st' !! dst = Some kd'
       /\ Forall (fun d => (length d <= pipeBufSize)%nat) datas
       /\ rx kd' = rx kd /\ closed kd' = closed kd /\ sent ks' = sent ks
       /\ match o with
          | PipeRunning => False
          | PipeBlocked =>
              netTrace st' = netTrace st ++ flat_map (forwarded src dst) datas
              /\ concat datas = stream (rx ks)
              /\ sent kd' = sent kd ++ concat datas
              /\ rx ks' = [] /\ closed ks' = false
              /\ closed ks = false
              /\ (forall bs msg, ~ In (RxErr bs msg) (rx ks))
          | PipeReturned =>
              exists f err rest,
                failureOk f
                /\ netTrace st'
                   = netTrace st ++ flat_map (forwarded src dst) datas
                     ++ failureEvents src dst f ++ closeEvents src err
                /\ sent kd' = sent kd ++ concat datas ++ written f
                /\ stream (rx ks) = concat datas ++ written f ++ rest
                /\ closed ks' = true
          end.
Proof.
  intros o st'. subst o st'. split; [reflexivity|].
  pose proof (pipe_loop_run fuel src dst st ks kd Hne Hsrc Hdst Hfuel) as Hrun.
  unfold pipe.
  destruct (pipe_loop fuel src dst st) as [[| |] st1]; cbn [fst snd] in *.
  - destruct Hrun as (ks' & kd' & datas & H1 & H2 & Hds & H5 & H6 & H7 & H8
                      & f & rest & Hf & Ht & Hsent & Hstr).
    unfold conn_Close. rewrite H1.
    destruct (closed ks') eqn:Hcl; cbn [fst snd conns net_event net_update netTrace].
    + exists ks', kd', datas.
      do 2 (split; [assumption|]). split; [exact Hds|].
      do 3 (split; [assumption|]).
      exists f, (Some errClosed), rest. split; [exact Hf|].
      split; [|split; [exact Hsent|split; [exact Hstr|exact Hcl]]].
      rewrite Ht. cbn [closeEvents]. rewrite <- !app_assoc. reflexivity.
    + eexists _, kd', datas.
      split; [apply lookup_insert_eq|].
      split; [rewrite lookup_insert_ne by exact Hne; exact H2|].
      split; [exact Hds|].
      do 2 (split; [assumption|]). split; [exact H7|].
      exists f, None, rest. split; [exact Hf|].
      split; [|split; [exact Hsent|split; [exact Hstr|reflexivity]]].
      rewrite Ht. cbn [closeEvents]. rewrite <- !app_assoc. reflexivity.
  - destruct Hrun as (ks' & kd' & datas & H1 & H2 & Hds & H5 & H6 & H7 & H8
                      & Ht & Hall & Hsent & Hnil & Hcl & Hnoerr).
    exists ks', kd', datas.
    do 2 (split; [assumption|]). split; [exact Hds|].
    do 3 (split; [assumption|]).
    split; [exact Ht|]. split; [exact Hall|]. split; [exact Hsent|].
    split; [exact Hnil|]. split; [congruence|]. split; [exact Hcl | exact Hnoerr].
  - destruct Hrun as (ks' & kd' & datas & _ & _ & _ & _ & _ & _ & _ & []).
Qed.

(** C4 on a run in which five bytes arrive in two pieces and the stream
    then ends: the task makes three reads, writes the five bytes in order,
    returns and closes its source. *)
Lemma C4_pipe_forwards_witness :
  let ks := freshConn [RxData [1; 2; 3]; RxData [4; 5]; RxErr [] "EOF"] [] in
  let kd := freshConn [] [] in
  let st' := snd (pipe 10 1%nat 2%nat (twoConns ks kd)) in
  fst (pipe 10 1%nat 2%nat (twoConns ks kd)) = PipeReturned
  /\ readSizes (netTrace st') = [3; 2; 0]
  /\ exists ks' kd',
       conns st' !! 1%nat = Some ks' /\ conns st' !! 2%nat = Some kd'
       /\ closed ks' = true /\ sent kd' = [1; 2; 3; 4; 5].
Proof.
  intros ks kd st'.
  assert (Ho : fst (pipe 10 1%nat 2%nat (twoConns ks kd)) = PipeReturned)
    by (vm_compute; reflexivity).
  split; [exact Ho|]. split; [vm_compute; reflexivity|].
  destruct (C4_pipe_forwards_reads_of_at_most_65535_bytes 10 1%nat 2%nat
              (twoConns ks kd) ks kd ltac:(discriminate) eq_refl eq_refl
              ltac:(cbn; lia))
    as (_ & ks' & kd' & datas & H1 & H2 & _ & _ & _ & _ & Hend).
  rewrite Ho in Hend. destruct Hend as (f & err & rest & _ & _ & _ & _ & Hcl).
  exists ks', kd'. fold st' in H1, H2.
  split; [exact H1|]. split; [exact H2|]. split; [exact Hcl|].
  assert (Hkd : Some kd'
                = Some {| rx := []; tx := []; sent := [1; 2; 3; 4; 5];
                          closed := false |})
    by (rewrite <- H2; vm_compute; reflexivity).
  injection Hkd as ->. reflexivity.
Defined.

(** C4 as stated fails on the size of the buffer: when 64 KiB arrive at
    once, the task needs two reads, of 65535 bytes and of 1 byte. *)
Lemma C4_buffer_is_one_byte_short_of_64KiB :
  let arrives := [RxData (replicate (Z.to_nat (64 * 1024)) 7)] in
  let st := twoConns (freshConn arrives []) (freshConn [] []) in
  readSizes (netTrace (snd (pipe 3 1%nat 2%nat st))) = [65535; 1]
  /\ Z.of_nat pipeBufSize = 64 * 1024 - 1.
Proof. vm_compute. split; reflexivity. Qed.

(** C10: a forwarding task closes no connection but its source: the closed
    flag of every other connection, the destination among them, is as
    before, and every close in its events is a close of the source.  The
    two tasks [Start] begins for a pair of connections run in opposite
    directions, so the destination of each is the source of the other. *)
Theorem C10_pipe_closes_only_its_source
    (fuel : nat) (src dst : ConnId) (st : NetState) (Hne : src <> dst) :
  let st' := snd (pipe fuel src dst st) in
  (forall c, c <> src -> isClosed st' c = isClosed st c)
  /\ isClosed st' dst = isClosed st dst
  /\ (exists new,
        netTrace st' = netTrace st ++ new
        /\ forall c err, In (NClose c err) new -> c = src)
  /\ (forall vp lconn rconn w,
        exists m,
          Start vp (AtDial lconn) (DialResult (Ok rconn)) = Some m
          /\ fst (m w) = Returned (AtLoop, [(lconn, rconn); (rconn, lconn)])).
Proof.
  intros st'. subst st'.
  destruct (pipe_spec fuel src dst st) as (datas & _ & Hcl & _ & Hend).
  split; [exact Hcl|]. split; [apply Hcl; congruence|]. split.
  - destruct (fst (pipe fuel src dst st)).
    + destruct Hend as (f & err & _ & Ht & _).
      eexists. split; [exact Ht|]. intros c e Hin.
      apply in_app_iff in Hin as [Hin|Hin];
        [exfalso; exact (no_close_in_forwarded _ _ _ _ _ Hin)|].
      apply in_app_iff in Hin as [Hin|Hin];
        [exfalso; exact (no_close_in_failure _ _ _ _ _ Hin)|].
      exact (close_in_closeEvents _ _ _ _ Hin).
    + destruct Hend as [Ht _]. eexists. split; [exact Ht|]. intros c e Hin.
      exfalso. exact (no_close_in_forwarded _ _ _ _ _ Hin).
    + destruct Hend as [Ht _]. eexists. split; [exact Ht|]. intros c e Hin.
      exfalso. exact (no_close_in_forwarded _ _ _ _ _ Hin).
  - intros vp lconn rconn w. eexists. split; [reflexivity|]. reflexivity.
Qed.

(** C10 on a run in which the source delivers three bytes and ends: the
    task closes connection 1 and leaves connection 2 open. *)
Lemma C10_pipe_closes_only_its_source_witness :
  let st := twoConns (freshConn [RxData [1; 2; 3]; RxErr [] "EOF"] []) (freshConn [] []) in
  let st' := snd (pipe 5 1%nat 2%nat st) in
  isClosed st' 1%nat = Some true /\ isClosed st' 2%nat = Some false.
Proof.
  intros st st'.
  destruct (C10_pipe_closes_only_its_source 5 1%nat 2%nat st ltac:(discriminate))
    as (_ & Hdst & _).
  split; [reflexivity|]. fold st' in Hdst. rewrite Hdst. reflexivity.
Defined.

(** ** What sequential code adds to the trace *)

Section Emits.
Context {P : Event -> Prop}.

Lemma emits_ret {A} (a : A) : emits P (ret a).
Proof. intros w. exists []. rewrite app_nil_r. split; [reflexivity | constructor]. Qed.

Lemma emits_get {A} (f : World -> A) : emits P (get f).
Proof. intros w. exists []. rewrite app_nil_r. split; [reflexivity | constructor]. Qed.

Lemma emits_modify f : (forall w, trace (f w) = trace w) -> emits P (modify f).
Proof.
  intros Hf w. exists []. rewrite app_nil_r. split; [apply Hf | constructor].
Qed.

Lemma emits_emit e : P e -> emits P (emit e).
Proof. intros He w. exists [e]. split; [reflexivity | repeat constructor; exact He]. Qed.

Lemma emits_log_Printf line : P (EvLog line) -> emits P (log_Printf line).
Proof. apply emits_emit. Qed.

Lemma emits_log_Fatal {A} line :
  P (EvLog line) -> P (EvExit 1) -> emits P (log_Fatal (A := A) line).
Proof.
  intros Hl He w. exists [EvLog line; EvExit 1].
  split; [reflexivity | repeat constructor; assumption].
Qed.

Lemma emits_bind {A B} (m : M A) (k : A -> M B) :
  emits P m -> (forall a, emits P (k a)) -> emits P (bind m k).
Proof.
  intros Hm Hk w. unfold bind.
  destruct (Hm w) as (es & Ht & Hes).
  destruct (m w) as [[a|c|] w1]; cbn [snd] in *.
  - destruct (Hk a w1) as (es' & Ht' & Hes').
    exists (es ++ es'). rewrite Ht', Ht, app_assoc.
    split; [reflexivity | apply Forall_app; split; assumption].
  - exists es. split; assumption.
  - exists es. split; assumption.
Qed.

Lemma emits_fail_on {A} err msg (k : M A) :
  (forall e, P (EvLog (msg +:+ e))) -> P (EvExit 1) -> emits P k ->
  emits P (fail_on err msg k).
Proof.
  intros Hl He Hk. destruct err as [e|]; cbn [fail_on]; [|exact Hk].
  apply emits_log_Fatal; [apply Hl | exact He].
Qed.

End Emits.

(** Closes goals of the form [emits P m] for code built from the monad's
    operations, when [P] holds of every log line and exit. *)
Ltac emits_step :=
  first
    [ apply emits_ret
    | apply emits_get
    | apply emits_log_Printf
    | apply emits_log_Fatal
    | apply emits_emit
    | apply emits_modify; intros; reflexivity
    | apply emits_fail_on; [intros | | ]
    | apply emits_bind; [ | intros ] ].

Ltac emits_auto := repeat emits_step; try solve [exact I | auto].

Lemma emits_rand_Read n : emits quiet (rand_Read n).
Proof.
  unfold rand_Read. emits_auto. case_bool_decide; emits_auto.
Qed.

Lemma emits_initAnonymization useCP : emits quiet (initAnonymization useCP).
Proof.
  unfold initAnonymization. destruct useCP; cbn [negb].
  - apply emits_bind; [emits_auto|intros _].
    apply emits_bind; [apply emits_rand_Read|intros [buf|e]]; emits_auto.
    destruct (cryptopan.New buf); emits_auto.
  - apply emits_bind; [emits_auto|intros _].
    apply emits_bind; [emits_auto|intros _].
    apply emits_bind; [apply emits_rand_Read|intros [k|e]]; emits_auto.
Qed.

Lemma emits_initRouter {P} : emits P initRouter.
Proof. unfold initRouter. emits_auto. Qed.

Lemma emits_main_init cfg pf : emits quiet (main_init cfg pf).
Proof.
  unfold main_init.
  apply emits_bind; [destruct (debug cfg); emits_auto|intros _].
  apply emits_bind; [destruct (ignoreNitro pf); cbn [negb]; emits_auto|intros _].
  apply emits_bind; [emits_auto|intros _].
  apply emits_bind; [apply emits_initRouter|intros router].
  apply emits_bind; [apply emits_initAnonymization|intros _].
  destruct NewVProxy; emits_auto.
Qed.

Section EmitsMain.
Context `{CertLibs} {P : Event -> Prop}.

(** The code around the certificate adds log lines and, at most, the exit. *)
Lemma emits_setCertFingerprint_loop
    (Plog : forall l, P (EvLog l)) (Pexit : P (EvExit 1)) fuel :
  forall rest rawData, emits P (setCertFingerprint_loop fuel rest rawData).
Proof.
  induction fuel as [|fuel IH]; intros rest rawData.
  - intros w. exists []. rewrite app_nil_r. split; [reflexivity | constructor].
  - cbn [setCertFingerprint_loop]. destruct rest as [x|]; [|emits_auto].
    destruct (pem_Decode rawData) as [[b|] rest']; [|emits_auto].
    case_bool_decide; [|apply IH].
    destruct (x509_ParseCertificate (blockBytes b)) as [c|e]; [|emits_auto].
    destruct (IsCA c); cbn [negb]; [apply IH | emits_auto].
Qed.

Lemma emits_setCertFingerprint
    (Plog : forall l, P (EvLog l)) (Pexit : P (EvExit 1)) rawData :
  emits P (setCertFingerprint rawData).
Proof. apply emits_setCertFingerprint_loop; assumption. Qed.

Lemma emits_main_certificate
    (Plog : forall l, P (EvLog l)) (Pexit : P (EvExit 1)) cfg pf :
  emits P (main_certificate cfg pf).
Proof.
  unfold main_certificate. apply emits_bind; [emits_auto|intros _].
  destruct (useAcme cfg).
  - unfold setupAcme. emits_auto.
  - apply emits_bind.
    + unfold genSelfSignedCert. destruct (selfSignedCert pf); [|emits_auto].
      apply emits_bind; [apply emits_setCertFingerprint; assumption
                        | intros; emits_auto].
    + intros [pem|e]; emits_auto.
Qed.

Lemma emits_acmePoll
    (Plog : forall l, P (EvLog l)) (Pexit : P (EvExit 1)) r :
  emits P (acmePoll r).
Proof.
  unfold acmePoll. destruct r as [rawData|e]; [|emits_auto].
  apply emits_bind; [emits_auto|intros _].
  apply emits_bind; [apply emits_setCertFingerprint; assumption
                    | intros; emits_auto].
Qed.

End EmitsMain.

(** ** The readiness signal *)

Section Readiness.
Context `{CertLibs}.

(** The invariant of the process. *)
Definition Inv (p : Proc) : Prop :=
  let t := trace (world p) in
  match phaseOf (mainPc p) (proxy p) with
  | Some false =>
      Forall preReady t
      /\ (forall vp, proxy p = Some (vp, AtSignal) -> In (EvListen bindAddr) t)
  | Some true => signalled t
  | None => False
  end.

Lemma quiet_preReady e : quiet e -> preReady e.
Proof. destruct e; cbn; tauto. Qed.

Lemma quiet_afterReady e : quiet e -> afterReady e.
Proof. destruct e; cbn; tauto. Qed.

Lemma noSync_afterReady e : noSync e -> afterReady e.
Proof. destruct e; cbn; tauto. Qed.

Lemma signalled_app t es :
  signalled t -> Forall afterReady es -> signalled (t ++ es).
Proof.
  intros (pre & post & -> & Hpre & Hl & Hpost) Hes.
  exists pre, (post ++ es). rewrite <- app_assoc. cbn.
  repeat split; try assumption. apply Forall_app. split; assumption.
Qed.

(** How [run] ends: the code returned, or the process exited in it. *)
Lemma run_cases {A} (m : M A) p k p' :
  run m p k = Some p' ->
  (exists a, fst (m (world p)) = Returned a /\ p' = k a (snd (m (world p))))
  \/ (mainPc p' = mainPc p /\ proxy p' = proxy p /\ pipes p' = pipes p
      /\ poller p' = poller p /\ exited p' = true
      /\ world p' = snd (m (world p))).
Proof.
  unfold run. destruct (m (world p)) as [[a|c|] w']; intros [= <-].
  - left. exists a. split; reflexivity.
  - right. repeat split.
Qed.

Lemma setEnvVar_HTTP_PROXY w :
  setEnvVar "HTTP_PROXY" proxyURL w
  = (Returned tt,
     add_events [EvSetenv "HTTP_PROXY" proxyURL]
       (set_environ (<["HTTP_PROXY" := proxyURL]> (environ w)) w)).
Proof. reflexivity. Qed.

Lemma setEnvVar_HTTPS_PROXY w :
  setEnvVar "HTTPS_PROXY" proxyURL w
  = (Returned tt,
     add_events [EvSetenv "HTTPS_PROXY" proxyURL]
       (set_environ (<["HTTPS_PROXY" := proxyURL]> (environ w)) w)).
Proof. reflexivity. Qed.

Lemma emits_main_listen cfg pf : emits noSync (main_listen cfg pf).
Proof. unfold main_listen. emits_auto. Qed.

(** [Start] before the signal adds the bind of the listener or exits. *)
Lemma emits_Start_listen vp i m :
  Start vp AtListen i = Some m -> emits preReady m.
Proof.
  destruct i as [| |[e|]| | | |]; try discriminate; intros [= <-]; emits_auto.
  reflexivity.
Qed.

(** [Start] in its loop neither signals nor sets the environment. *)
Lemma emits_Start_loop vp pc i m :
  pc <> AtListen -> pc <> AtSignal -> Start vp pc i = Some m -> emits noSync m.
Proof.
  intros Hl Hs.
  destruct pc; try congruence;
    destruct i as [| |[e|]| |[c|e]|[c|e]|]; try discriminate;
    intros [= <-]; emits_auto.
Qed.

Lemma Start_next_loop vp pc i m w r :
  pc <> AtListen -> pc <> AtSignal -> Start vp pc i = Some m ->
  fst (m w) = Returned r ->
  fst r = AtLoop \/ fst r = AtAccept \/ exists l, fst r = AtDial l.
Proof.
  intros Hl Hs.
  destruct pc; try congruence;
    destruct i as [| |[e|]| |[c|e]|[c|e]|]; try discriminate;
    intros [= <-]; cbn; intros [= <-]; cbn; eauto.
Qed.

Lemma Start_next_listen vp i m w r :
  Start vp AtListen i = Some m -> fst (m w) = Returned r ->
  fst r = AtSignal /\ trace (snd (m w)) = trace w ++ [EvListen bindAddr].
Proof.
  destruct i as [| |[e|]| | | |]; try discriminate; intros [= <-]; cbn;
    [discriminate|]. intros [= <-]. split; reflexivity.
Qed.

Lemma Inv_before p p' es :
  phaseOf (mainPc p') (proxy p') = Some false ->
  trace (world p') = trace (world p) ++ es -> Forall preReady es ->
  Forall preReady (trace (world p)) ->
  (forall vp, proxy p' = Some (vp, AtSignal) ->
              In (EvListen bindAddr) (trace (world p'))) ->
  Inv p'.
Proof.
  intros Hph Ht Hes Hpre Hl. unfold Inv. rewrite Hph. split; [|exact Hl].
  rewrite Ht. apply Forall_app. split; assumption.
Qed.

Lemma Inv_after p p' es :
  phaseOf (mainPc p') (proxy p') = Some true ->
  trace (world p') = trace (world p) ++ es -> Forall afterReady es ->
  signalled (trace (world p)) ->
  Inv p'.
Proof.
  intros Hph Ht Hes Hs. unfold Inv. rewrite Hph, Ht.
  apply signalled_app; assumption.
Qed.

Lemma Inv_exited p p' es :
  mainPc p' = mainPc p -> proxy p' = proxy p ->
  trace (world p') = trace (world p) ++ es ->
  Forall preReady es -> Forall afterReady es ->
  Inv p -> Inv p'.
Proof.
  unfold Inv. intros -> -> -> Hpre Haft.
  destruct (phaseOf (mainPc p) (proxy p)) as [[|]|]; [| |tauto].
  - intros Hs. apply signalled_app; assumption.
  - intros [Hp Hl]. split.
    + apply Forall_app. split; assumption.
    + intros vp Hvp. apply in_app_iff. left. eapply Hl. exact Hvp.
Qed.

Lemma Forall_quiet_preReady es : Forall quiet es -> Forall preReady es.
Proof. intros Hq. eapply Forall_impl; [exact Hq | apply quiet_preReady]. Qed.

Lemma Forall_quiet_afterReady es : Forall quiet es -> Forall afterReady es.
Proof. intros Hq. eapply Forall_impl; [exact Hq | apply quiet_afterReady]. Qed.

Lemma Forall_noSync_afterReady es : Forall noSync es -> Forall afterReady es.
Proof. intros Hq. eapply Forall_impl; [exact Hq | apply noSync_afterReady]. Qed.

(** A goroutine ran code [m] that adds quiet events and moved to a
    position of the same phase. *)
Lemma run_Inv_quiet {A} (m : M A) p (k : A -> World -> Proc) p' :
  emits quiet m ->
  (forall a w, trace (world (k a w)) = trace w) ->
  (forall a w, phaseOf (mainPc (k a w)) (proxy (k a w))
               = phaseOf (mainPc p) (proxy p)) ->
  (forall a w vp, proxy (k a w) = Some (vp, AtSignal) ->
                  proxy p = Some (vp, AtSignal)) ->
  run m p k = Some p' -> Inv p -> Inv p'.
Proof.
  intros Hm Hkt Hkp Hks Hrun HI.
  destruct (Hm (world p)) as (es & Ht & Hes).
  apply run_cases in Hrun as [(a & Hret & ->) | (Hmp & Hp & _ & _ & _ & Hw)].
  - unfold Inv in *. rewrite Hkp, Hkt, Ht.
    destruct (phaseOf (mainPc p) (proxy p)) as [[|]|]; [| |tauto].
    + apply signalled_app; [exact HI | apply Forall_quiet_afterReady; exact Hes].
    + destruct HI as [Hp Hl]. split.
      * apply Forall_app. split; [exact Hp | apply Forall_quiet_preReady; exact Hes].
      * intros vp Hvp. apply in_app_iff. left. eapply Hl, Hks, Hvp.
  - apply (Inv_exited p p' es); try assumption.
    + rewrite Hw. exact Ht.
    + apply Forall_quiet_preReady. exact Hes.
    + apply Forall_quiet_afterReady. exact Hes.
Qed.

Lemma preReady_afterReady e : preReady e -> afterReady e.
Proof. destruct e; cbn; tauto. Qed.

(** A step of [Start] keeps the invariant. *)
Lemma Start_Inv p vp pc i m p' :
  proxy p = Some (vp, pc) -> Start vp pc i = Some m ->
  run m p
    (fun r w =>
       {| world := w; mainPc := mainPc p; proxy := Some (vp, fst r);
          poller := poller p; pipes := pipes p ++ snd r; exited := false |})
  = Some p' ->
  Inv p -> Inv p'.
Proof.
  intros Hpx HS Hrun HI.
  destruct (decide (pc = AtSignal)) as [->|Hns]; [discriminate|].
  destruct (decide (pc = AtListen)) as [->|Hnl].
  - (* before the signal *)
    destruct (emits_Start_listen vp i m HS (world p)) as (es & Ht & Hes).
    assert (Hbefore : phaseOf (mainPc p) (proxy p) = Some false
                      /\ Forall preReady (trace (world p))).
    { unfold Inv in HI. rewrite Hpx in *.
      destruct (mainPc p); cbn in HI |- *; try tauto. }
    destruct Hbefore as [Hph Hpre].
    apply run_cases in Hrun as [(r & Hret & ->) | (Hmp & Hp & _ & _ & _ & Hw)].
    + destruct (Start_next_listen vp i m (world p) r HS Hret) as [Hr Ht'].
      eapply (Inv_before p _ es); cbn [mainPc proxy world]; try eassumption.
      * rewrite Hr. rewrite Hpx in Hph.
        destruct (mainPc p); cbn in Hph |- *; congruence.
      * intros _ _. rewrite Ht'. apply in_app_iff. right. left. reflexivity.
    + eapply (Inv_exited p p' es); try eassumption.
      * rewrite Hw. exact Ht.
      * eapply Forall_impl; [exact Hes | apply preReady_afterReady].
  - (* in the loop *)
    destruct (emits_Start_loop vp pc i m Hnl Hns HS (world p)) as (es & Ht & Hes).
    assert (Hafter : phaseOf (mainPc p) (proxy p) = Some true
                     /\ signalled (trace (world p))).
    { unfold Inv in HI. rewrite Hpx in *.
      destruct (mainPc p), pc; cbn in HI |- *; try tauto; congruence. }
    destruct Hafter as [Hph Hsig].
    assert (Hmain : forall pc', pc' = AtLoop \/ pc' = AtAccept \/ (exists l, pc' = AtDial l) ->
                    phaseOf (mainPc p) (Some (vp, pc')) = Some true).
    { intros pc' Hpc'. rewrite Hpx in Hph.
      destruct (mainPc p), pc; cbn in Hph; try congruence;
        destruct Hpc' as [->|[->|[l ->]]]; reflexivity. }
    apply run_cases in Hrun as [(r & Hret & ->) | (Hmp & Hp & _ & _ & _ & Hw)].
    + eapply (Inv_after p _ es); cbn [mainPc proxy world]; try eassumption.
      * apply Hmain. eapply Start_next_loop; eauto.
      * apply Forall_noSync_afterReady. exact Hes.
    + eapply (Inv_after p p' es); try eassumption.
      * rewrite Hmp, Hp. exact Hph.
      * rewrite Hw. exact Ht.
      * apply Forall_noSync_afterReady. exact Hes.
Qed.

Lemma Inv_phase p : Inv p -> phaseOf (mainPc p) (proxy p) <> None.
Proof. unfold Inv. destruct (phaseOf _ _); [discriminate | tauto]. Qed.

(** Every step keeps the invariant. *)
Lemma step_Inv cfg pf p i p' : Inv p -> step cfg pf p i = Some p' -> Inv p'.
Proof.
  intros HI. pose proof (Inv_phase p HI) as Hph.
  unfold step. destruct (exited p); [discriminate|].
  destruct i as [| |err| |r|r|r].
  - (* the main goroutine *)
    unfold main. destruct (mainPc p) as [|router vp|router|router|router|router|router|router] eqn:Hpc.
    + intros Hrun. eapply (run_Inv_quiet (main_init cfg pf)); eauto.
      * apply emits_main_init.
      * reflexivity.
      * intros a w. cbn. rewrite Hpc. destruct (proxy p) as [[? []]|]; reflexivity.
      * intros a w vp Hvp. exact Hvp.
    + intros [= <-]. unfold Inv in *. cbn. rewrite Hpc in HI.
      destruct (proxy p) as [[? ?]|]; cbn in Hph; [congruence|].
      cbn in HI. destruct HI as [HI _]. split; [exact HI | discriminate].
    + discriminate.
    + intros Hrun. unfold run in Hrun.
      change "socks5://127.0.0.1:1080" with proxyURL in Hrun.
      rewrite setEnvVar_HTTP_PROXY in Hrun. injection Hrun as <-.
      unfold Inv in HI. rewrite Hpc in HI.
      destruct (proxy p) as [[vp' pc]|] eqn:Hpx; [|cbn in Hph; congruence].
      destruct pc; cbn in Hph, HI; try congruence.
      all: eapply (Inv_after p _ [EvSetenv "HTTP_PROXY" proxyURL]);
        [cbn; rewrite Hpx; reflexivity | reflexivity
        | apply Forall_cons_2; [cbn; auto | apply Forall_nil_2] | exact HI].
    + intros Hrun. unfold run in Hrun.
      change "socks5://127.0.0.1:1080" with proxyURL in Hrun.
      rewrite setEnvVar_HTTPS_PROXY in Hrun. injection Hrun as <-.
      unfold Inv in HI. rewrite Hpc in HI.
      destruct (proxy p) as [[vp' pc]|] eqn:Hpx; [|cbn in Hph; congruence].
      destruct pc; cbn in Hph, HI; try congruence.
      all: eapply (Inv_after p _ [EvSetenv "HTTPS_PROXY" proxyURL]);
        [cbn; rewrite Hpx; reflexivity | reflexivity
        | apply Forall_cons_2; [cbn; auto | apply Forall_nil_2] | exact HI].
    + intros Hrun. eapply (run_Inv_quiet (main_certificate cfg pf)); eauto.
      * apply emits_main_certificate; cbn; auto.
      * reflexivity.
      * intros a w. cbn. rewrite Hpc. reflexivity.
      * intros a w vp Hvp. exact Hvp.
    + intros Hrun.
      destruct (emits_main_listen cfg pf (world p)) as (es & Ht & Hes).
      unfold Inv in HI. rewrite Hpc in HI.
      destruct (proxy p) as [[vp' pc]|] eqn:Hpx; [|cbn in Hph; congruence].
      assert (Hs : signalled (trace (world p))).
      { destruct pc; cbn in Hph, HI; try congruence; exact HI. }
      assert (Hphase : phaseOf (Serving router) (Some (vp', pc)) = Some true).
      { destruct pc; cbn in Hph |- *; congruence. }
      apply run_cases in Hrun as [(a & Hret & ->) | (Hmp & Hp & _ & _ & _ & Hw)].
      * eapply (Inv_after p _ es);
          [cbn; rewrite Hpx; exact Hphase | exact Ht
          | apply Forall_noSync_afterReady; exact Hes | exact Hs].
      * eapply (Inv_after p _ es);
          [rewrite Hmp, Hp, Hpc, Hpx; destruct pc; cbn in Hph |- *; congruence
          | rewrite Hw; exact Ht
          | apply Forall_noSync_afterReady; exact Hes | exact Hs].
    + discriminate.
  - (* Start runs *)
    destruct (proxy p) as [[vp pc]|] eqn:Hpx; [|discriminate].
    destruct (Start vp pc RunProxy) as [m|] eqn:HS; [|discriminate].
    intros Hrun. eapply Start_Inv; eauto.
  - destruct (proxy p) as [[vp pc]|] eqn:Hpx; [|discriminate].
    destruct (Start vp pc (ListenResult err)) as [m|] eqn:HS; [|discriminate].
    intros Hrun. eapply Start_Inv; eauto.
  - (* the signal *)
    destruct (mainPc p) as [|router vp|router|router|router|router|router|router] eqn:Hpc;
      try discriminate.
    destruct (proxy p) as [[vp pc]|] eqn:Hpx; [|discriminate].
    destruct pc; try discriminate. intros [= <-].
    unfold Inv in *. rewrite Hpc, Hpx in HI. cbn in HI |- *.
    destruct HI as [Hpre Hl].
    exists (trace (world p)), [].
    split; [reflexivity|]. split; [exact Hpre|].
    split; [eapply Hl; reflexivity | constructor].
  - destruct (proxy p) as [[vp pc]|] eqn:Hpx; [|discriminate].
    destruct (Start vp pc (AcceptResult r)) as [m|] eqn:HS; [|discriminate].
    intros Hrun. eapply Start_Inv; eauto.
  - destruct (proxy p) as [[vp pc]|] eqn:Hpx; [|discriminate].
    destruct (Start vp pc (DialResult r)) as [m|] eqn:HS; [|discriminate].
    intros Hrun. eapply Start_Inv; eauto.
  - (* the goroutine of setupAcme *)
    destruct (poller p) as [[|]|]; try discriminate.
    intros Hrun. eapply (run_Inv_quiet (acmePoll r)); eauto.
    + apply emits_acmePoll; cbn; auto.
    + reflexivity.
    + reflexivity.
    + intros a w vp Hvp. exact Hvp.
Qed.

Lemma initial_Inv env rnd : Inv (initialProc env rnd).
Proof. unfold Inv. cbn. split; [constructor | discriminate]. Qed.

Lemma exec_Inv cfg pf inputs : forall p p',
  Inv p -> exec cfg pf p inputs = Some p' -> Inv p'.
Proof.
  induction inputs as [|i inputs IH]; intros p p' HI; cbn [exec].
  - intros [= <-]. exact HI.
  - destruct (step cfg pf p i) as [p1|] eqn:Hstep; [|discriminate].
    apply IH. eapply step_Inv; eauto.
Qed.

Lemma lookup_around {A} (pre post : list A) x i e :
  (pre ++ x :: post) !! i = Some e ->
  ((i < length pre)%nat /\ pre !! i = Some e)
  \/ (i = length pre /\ e = x)
  \/ ((length pre < i)%nat /\ post !! (i - S (length pre))%nat = Some e).
Proof.
  intros Hi. destruct (lt_eq_lt_dec i (length pre)) as [[Hlt|Heq]|Hgt].
  - left. split; [exact Hlt|]. rewrite lookup_app_l in Hi by exact Hlt. exact Hi.
  - right. left. split; [exact Heq|]. subst i.
    rewrite list_lookup_middle in Hi by reflexivity. congruence.
  - right. right. split; [exact Hgt|].
    rewrite lookup_app_r in Hi by lia.
    replace (i - length pre)%nat with (S (i - S (length pre))) in Hi by lia.
    exact Hi.
Qed.

(** C9: in every state a run of the process reaches, the trace holds at most
    one readiness signal; the signal comes after the bind of the proxy's
    listener and before every call of Accept; every change of the
    environment comes after the signal and sets one of the two proxy
    variables; and once [Start] is in its loop the signal has been sent. *)
Theorem C9_readiness_signal_orders_start_up
    (cfg : Config) (pf : Platform) (env : gmap string string) (rnd : bytes)
    (inputs : list Input) (p : Proc)
    (Hrun : exec cfg pf (initialProc env rnd) inputs = Some p) :
  let t := trace (world p) in
  (forall i j, t !! i = Some EvReady -> t !! j = Some EvReady -> i = j)
  /\ (forall j, t !! j = Some EvReady ->
        exists i, (i < j)%nat /\ t !! i = Some (EvListen bindAddr))
  /\ (forall i, t !! i = Some EvAcceptCall ->
        exists j, (j < i)%nat /\ t !! j = Some EvReady)
  /\ (forall i k v, t !! i = Some (EvSetenv k v) ->
        (exists j, (j < i)%nat /\ t !! j = Some EvReady)
        /\ (k = "HTTP_PROXY" \/ k = "HTTPS_PROXY") /\ v = proxyURL)
  /\ (forall vp pc, proxy p = Some (vp, pc) -> pc <> AtListen -> pc <> AtSignal ->
        exists j, t !! j = Some EvReady).
Proof.
  intros t. subst t.
  pose proof (exec_Inv cfg pf inputs _ _ (initial_Inv env rnd) Hrun) as HI.
  unfold Inv in HI.
  destruct (phaseOf (mainPc p) (proxy p)) as [[|]|] eqn:Hph; [| |contradiction].
  - (* the signal has happened *)
    destruct HI as (pre & post & Ht & Hpre & Hl & Hpost). rewrite Ht.
    assert (Hno : forall i e, pre !! i = Some e -> preReady e).
    { intros i e Hi. eapply Forall_lookup_1; eauto. }
    assert (Hpo : forall i e, post !! i = Some e -> afterReady e).
    { intros i e Hi. eapply Forall_lookup_1; eauto. }
    assert (Hsig : (pre ++ EvReady :: post) !! length pre = Some EvReady).
    { apply list_lookup_middle. reflexivity. }
    assert (Hone : forall i, (pre ++ EvReady :: post) !! i = Some EvReady ->
                             i = length pre).
    { intros i Hi. apply lookup_around in Hi as [[_ Hi]|[[Hi _]|[_ Hi]]].
      - apply Hno in Hi. contradiction.
      - exact Hi.
      - apply Hpo in Hi. contradiction. }
    split; [|split; [|split; [|split]]].
    + intros i j Hi Hj. rewrite (Hone i Hi), (Hone j Hj). reflexivity.
    + intros j Hj. rewrite (Hone j Hj).
      apply list_elem_of_In, list_elem_of_lookup in Hl as [i Hi].
      exists i. split; [eapply lookup_lt_Some; exact Hi|].
      rewrite lookup_app_l by (eapply lookup_lt_Some; exact Hi). exact Hi.
    + intros i Hi. exists (length pre). split; [|exact Hsig].
      apply lookup_around in Hi as [[_ Hi]|[[_ Hi]|[Hi _]]].
      * apply Hno in Hi. contradiction.
      * discriminate.
      * exact Hi.
    + intros i k v Hi.
      apply lookup_around in Hi as [[_ Hi]|[[_ Hi]|[Hlt Hi]]].
      * apply Hno in Hi. contradiction.
      * discriminate.
      * apply Hpo in Hi. cbn in Hi. destruct Hi as [Hk Hv].
        split; [exists (length pre); split; [exact Hlt | exact Hsig]|].
        split; assumption.
    + intros _ _ _ _ _. exists (length pre). exact Hsig.
  - (* the signal has not happened *)
    destruct HI as [Hpre _].
    assert (Hno : forall i e, trace (world p) !! i = Some e -> preReady e).
    { intros i e Hi. eapply Forall_lookup_1; eauto. }
    split; [|split; [|split; [|split]]].
    + intros i j Hi. apply Hno in Hi. contradiction.
    + intros j Hj. apply Hno in Hj. contradiction.
    + intros i Hi. apply Hno in Hi. contradiction.
    + intros i k v Hi. apply Hno in Hi. contradiction.
    + intros vp pc Hpx Hnl Hns. exfalso. rewrite Hpx in Hph.
      destruct (mainPc p), pc; cbn in Hph; congruence.
Qed.

End Readiness.

(** C9 on the sample run: the orderings hold of its trace, in which the
    listener is bound at position 5, the signal is at position 6, the two
    variables are set at positions 7 and 8, and Accept is first called at
    position 10. *)
Lemma C9_readiness_signal_witness :
  exists p,
    exec sourceConfig samplePlatform (initialProc ∅ sampleEntropy) sampleRun = Some p
    /\ (forall i, trace (world p) !! i = Some EvAcceptCall ->
          exists j, (j < i)%nat /\ trace (world p) !! j = Some EvReady)
    /\ (forall i k v, trace (world p) !! i = Some (EvSetenv k v) ->
          exists j, (j < i)%nat /\ trace (world p) !! j = Some EvReady)
    /\ trace (world p) !! 5%nat = Some (EvListen bindAddr)
    /\ trace (world p) !! 6%nat = Some EvReady
    /\ trace (world p) !! 7%nat = Some (EvSetenv "HTTP_PROXY" proxyURL)
    /\ trace (world p) !! 8%nat = Some (EvSetenv "HTTPS_PROXY" proxyURL)
    /\ trace (world p) !! 10%nat = Some EvAcceptCall
    /\ environ (world p) !! "HTTP_PROXY" = Some proxyURL
    /\ environ (world p) !! "HTTPS_PROXY" = Some proxyURL.
Proof.
  destruct (exec sourceConfig samplePlatform (initialProc ∅ sampleEntropy) sampleRun)
    as [p|] eqn:Hrun; [|vm_compute in Hrun; discriminate].
  destruct (C9_readiness_signal_orders_start_up _ _ _ _ _ _ Hrun)
    as (_ & _ & Hacc & Henv & _).
  exists p. split; [reflexivity|].
  split; [exact Hacc|].
  split; [intros i k v Hi; apply (Henv i k v Hi)|].
  clear Hacc Henv. vm_compute in Hrun. injection Hrun as <-. vm_compute.
  repeat split.
Defined.

(** ** A failed dial *)

Section Dial.
Context `{CertLibs}.

(** When the dial for an accepted connection fails, the failure is logged,
    no forwarding task is started for that connection, nothing else of the
    process changes, and [Start] is back at the head of its loop: the next
    connection it accepts is dialed and bridged, and the forwarding tasks
    that ran before are still there.  [Start] makes no call on the
    connection it had accepted. *)
Lemma failed_dial_starts_no_task
    (cfg : Config) (pf : Platform) (p : Proc) (vp : VProxy) (lconn : ConnId)
    (e : string)
    (Hlive : exited p = false) (Hdial : proxy p = Some (vp, AtDial lconn)) :
  exists p1,
    step cfg pf p (DialResult (Err e)) = Some p1
    /\ world p1
       = add_events
           [EvLog ("Failed to establish connection to SOCKS proxy: " +:+ e)]
           (world p)
    /\ pipes p1 = pipes p
    /\ mainPc p1 = mainPc p /\ poller p1 = poller p /\ exited p1 = false
    /\ proxy p1 = Some (vp, AtLoop)
    /\ forall lconn2 rconn2,
         exists p2,
           exec cfg pf p1 [RunProxy; AcceptResult (Ok lconn2); DialResult (Ok rconn2)]
           = Some p2
           /\ pipes p2 = pipes p ++ [(lconn2, rconn2); (rconn2, lconn2)]
           /\ exited p2 = false.
Proof.
  eexists. split.
  { unfold step. rewrite Hlive, Hdial. cbn [Start]. unfold run. run_M.
    reflexivity. }
  cbn [world pipes mainPc poller exited proxy].
  repeat (split; [rewrite ?app_nil_r; reflexivity|]).
  intros lconn2 rconn2. eexists. split.
  { cbn [exec]. unfold step at 1. cbn [exited proxy Start]. unfold run. run_M.
    cbn [world mainPc proxy poller pipes exited].
    unfold step at 1. cbn [exited proxy Start]. unfold run. run_M.
    cbn [world mainPc proxy poller pipes exited].
    unfold step at 1. cbn [exited proxy Start]. unfold run. run_M.
    cbn [world mainPc proxy poller pipes exited fst snd]. reflexivity. }
  cbn [pipes exited]. rewrite !app_nil_r.
  split; reflexivity.
Qed.

End Dial.

(** On the sample run: the dial for connection 1 fails; connection 2 is
    then accepted and bridged to connection 3, and no task holds
    connection 1. *)
Lemma failed_dial_on_the_sample_run :
  exists p p2,
    exec sourceConfig samplePlatform (initialProc ∅ sampleEntropy) sampleRunToDial
    = Some p
    /\ proxy p = Some ({| raddr := (parentCID, 1080); laddr := "127.0.0.1:1080" |},
                       AtDial 1%nat)
    /\ exec sourceConfig samplePlatform p
         [DialResult (Err "connection refused"); RunProxy;
          AcceptResult (Ok 2%nat); DialResult (Ok 3%nat)] = Some p2
    /\ pipes p2 = [(2%nat, 3%nat); (3%nat, 2%nat)].
Proof.
  destruct (exec sourceConfig samplePlatform (initialProc ∅ sampleEntropy)
              sampleRunToDial) as [p|] eqn:Hrun; [|vm_compute in Hrun; discriminate].
  assert (Hp : exited p = false
               /\ proxy p = Some ({| raddr := (parentCID, 1080);
                                     laddr := "127.0.0.1:1080" |}, AtDial 1%nat)
               /\ pipes p = []).
  { vm_compute in Hrun. injection Hrun as <-. repeat split. }
  destruct Hp as (Hlive & Hdial & Hpipes).
  destruct (failed_dial_starts_no_task sourceConfig samplePlatform
              p _ 1%nat "connection refused" Hlive Hdial)
    as (p1 & Hstep & _ & _ & _ & _ & _ & _ & Hnext).
  destruct (Hnext 2%nat 3%nat) as (p2 & Hexec & Hp2 & _).
  exists p, p2. split; [reflexivity|]. split; [exact Hdial|]. split.
  - cbn [exec]. rewrite Hstep. exact Hexec.
  - rewrite Hp2, Hpipes. reflexivity.
Defined.

(** C5 fails on the code: [Start] does not drop the connection whose dial
    failed.  On the sample run the dial for the accepted connection 1
    fails.  The failure is logged and the loop goes on: connection 2 is
    accepted and bridged to connection 3, and the two forwarding tasks of
    that pair are the only ones of the process.  But connection 1 is never
    closed: [Start] calls nothing on it after the dial, and no turn of
    either task touches it or closes it, whatever the state of the
    connections.  When both tasks have run to their end, on three open
    connections of which 2 and 3 deliver their end of stream, 2 and 3 are
    closed and 1 is still open.  [pipe], by
    contrast, closes its source whenever it returns. *)
Theorem C5_failed_dial_leaves_the_inbound_connection_open :
  exists p,
    exec sourceConfig samplePlatform (initialProc ∅ sampleEntropy) sampleRun = Some p
    /\ exited p = false
    /\ In (EvAccept 1%nat) (trace (world p))
    /\ In "Failed to establish connection to SOCKS proxy: connection refused"
         (logLines (world p))
    /\ pipes p = [(2, 3); (3, 2)]%nat
    /\ goPipes (trace (world p)) = [(2, 3); (3, 2)]%nat
    /\ (forall s d fuel st,
          In (s, d) (pipes p) ->
          conns (snd (pipe fuel s d st)) !! 1%nat = conns st !! 1%nat
          /\ exists new,
               netTrace (snd (pipe fuel s d st)) = netTrace st ++ new
               /\ forall err, ~ In (NClose 1%nat err) new)
    /\ (let st :=
          {| conns := <[1%nat := freshConn [] []]>
                        (<[2%nat := freshConn [RxData [7]; RxErr [] "EOF"] []]>
                           (<[3%nat := freshConn [RxErr [] "EOF"] []]> ∅));
             netTrace := [] |} in
        let st' := snd (pipe 5 3%nat 2%nat (snd (pipe 5 2%nat 3%nat st))) in
        isClosed st' 1%nat = Some false
        /\ isClosed st' 2%nat = Some true
        /\ isClosed st' 3%nat = Some true).
Proof.
  destruct (exec sourceConfig samplePlatform (initialProc ∅ sampleEntropy) sampleRun)
    as [p|] eqn:Hrun; [|vm_compute in Hrun; discriminate].
  exists p. split; [reflexivity|].
  assert (Hp : exited p = false
               /\ In (EvAccept 1%nat) (trace (world p))
               /\ In "Failed to establish connection to SOCKS proxy: connection refused"
                    (logLines (world p))
               /\ pipes p = [(2, 3); (3, 2)]%nat
               /\ goPipes (trace (world p)) = [(2, 3); (3, 2)]%nat).
  { vm_compute in Hrun. injection Hrun as <-.
    split; [reflexivity|].
    split; [cbn; repeat (first [left; reflexivity | right])|].
    split; [vm_compute; repeat (first [left; reflexivity | right])|].
    split; reflexivity. }
  destruct Hp as (Hlive & Hacc & Hlog & Hpipes & Hgo).
  do 5 (split; [assumption|]). split.
  - intros s d fuel st Hin. rewrite Hpipes in Hin.
    assert (Hsd : s <> 1%nat /\ d <> 1%nat).
    { destruct Hin as [[= <- <-]|[[= <- <-]|[]]]; split; discriminate. }
    destruct Hsd as [Hs Hd].
    destruct (pipe_spec fuel s d st) as (_ & _ & _ & Hfr & _).
    split; [apply Hfr; congruence|].
    destruct (pipe_closes_in_trace fuel s d st) as (new & Ht & Hclose).
    exists new. split; [exact Ht|].
    intros err Hc. apply Hclose in Hc. congruence.
  - vm_compute. repeat split.
Qed.

(** ** The hash in the attestation handler *)

Lemma main_init_router cfg pf w rv w' :
  main_init cfg pf w = (Returned rv, w') ->
  attestedHash (fst rv) = Some (certSha256 w).
Proof.
  unfold main_init. intros Hrun.
  apply bind_Returned in Hrun as ([] & wa & Ha & Hrun).
  apply bind_Returned in Hrun as ([] & wb & Hb & Hrun).
  apply bind_Returned in Hrun as ([] & wc & Hc & Hrun).
  apply bind_Returned in Hrun as (router & wd & Hd & Hrun).
  apply bind_Returned in Hrun as ([] & we & He & Hrun).
  assert (Hrv : fst rv = router).
  { unfold NewVProxy, net_ResolveTCPAddr in Hrun. cbv [ret] in Hrun.
    injection Hrun as <- _. reflexivity. }
  rewrite Hrv.
  assert (certSha256 wa = certSha256 w) as <-.
  { destruct (debug cfg); cbv [log_Printf emit modify ret] in Ha;
      injection Ha as <-; reflexivity. }
  assert (wb = wa) as ->.
  { destruct (ignoreNitro pf); cbn [negb] in Hb.
    - cbv [ret] in Hb. congruence.
    - do 2 apply fail_on_Returned in Hb. cbv [ret] in Hb. congruence. }
  cbv [log_Printf emit modify] in Hc. injection Hc as <-.
  unfold initRouter in Hd. run_M. injection Hd as <- _. reflexivity.
Qed.

Section AttestedHash.
Context `{CertLibs}.

(** Once the main goroutine holds a router, this is the router made from
    the start value of [certSha256]. *)
Definition RouterInv (env : gmap string string) (rnd : bytes) (p : Proc) : Prop :=
  match routerOf (mainPc p) with
  | None => exited p = true \/ p = initialProc env rnd
  | Some r => attestedHash r = Some zeroHash
  end.

Lemma run_router {A} (m : M A) p (k : A -> World -> Proc) p' r :
  routerOf (mainPc p) = Some r ->
  (forall a w, routerOf (mainPc (k a w)) = Some r) ->
  run m p k = Some p' -> routerOf (mainPc p') = Some r.
Proof.
  intros Hr Hk Hrun.
  apply run_cases in Hrun as [(a & _ & ->) | (Hm & _)].
  - apply Hk.
  - rewrite Hm. exact Hr.
Qed.

Lemma step_RouterInv cfg pf env rnd p i p' :
  RouterInv env rnd p -> step cfg pf p i = Some p' -> RouterInv env rnd p'.
Proof.
  unfold RouterInv. intros HI. unfold step.
  destruct (exited p) eqn:Hex; [discriminate|].
  destruct (routerOf (mainPc p)) as [r|] eqn:Hr.
  - (* the router stays *)
    intros Hstep.
    assert (Hr' : routerOf (mainPc p') = Some r); [|rewrite Hr'; exact HI].
    destruct i as [| |err| |res|res|res].
    + unfold main in Hstep.
      destruct (mainPc p) as [|router vp|router|router|router|router|router|router]
        eqn:Hpc;
        try discriminate; cbn in Hr; injection Hr as ->;
        try (injection Hstep as <-; reflexivity);
        (eapply run_router; [| |exact Hstep];
         [rewrite Hpc; reflexivity | reflexivity]).
    + destruct (proxy p) as [[vp pc]|]; [|discriminate].
      destruct (Start vp pc RunProxy); [|discriminate].
      eapply run_router; [exact Hr | | exact Hstep]. intros a w. exact Hr.
    + destruct (proxy p) as [[vp pc]|]; [|discriminate].
      destruct (Start vp pc (ListenResult err)); [|discriminate].
      eapply run_router; [exact Hr | | exact Hstep]. intros a w. exact Hr.
    + destruct (mainPc p) as [|router vp|router|router|router|router|router|router];
        try discriminate.
      destruct (proxy p) as [[vp []]|]; try discriminate.
      injection Hstep as <-. cbn in Hr |- *. exact Hr.
    + destruct (proxy p) as [[vp pc]|]; [|discriminate].
      destruct (Start vp pc (AcceptResult res)); [|discriminate].
      eapply run_router; [exact Hr | | exact Hstep]. intros a w. exact Hr.
    + destruct (proxy p) as [[vp pc]|]; [|discriminate].
      destruct (Start vp pc (DialResult res)); [|discriminate].
      eapply run_router; [exact Hr | | exact Hstep]. intros a w. exact Hr.
    + destruct (poller p) as [[|]|]; try discriminate.
      eapply run_router; [exact Hr | | exact Hstep]. intros a w. exact Hr.
  - (* the first step of main *)
    destruct HI as [HI| ->]; [congruence|].
    destruct i; cbn; try discriminate.
    unfold main. cbn [initialProc mainPc]. intros Hstep.
    apply run_cases in Hstep as [(rv & Hret & ->) | (Hm & _ & _ & _ & Hexit & _)].
    + cbn [with_main mainPc routerOf].
      destruct (main_init cfg pf (world (initialProc env rnd))) as [o w'] eqn:Hrun.
      cbn in Hret. subst o.
      apply main_init_router in Hrun. exact Hrun.
    + rewrite Hm. cbn. left. exact Hexit.
Qed.

Lemma exec_RouterInv cfg pf env rnd inputs : forall q p,
  RouterInv env rnd q -> exec cfg pf q inputs = Some p -> RouterInv env rnd p.
Proof.
  induction inputs as [|i inputs IH]; intros q p Hq; cbn [exec].
  - intros [= <-]. exact Hq.
  - destruct (step cfg pf q i) as [q1|] eqn:Hstep; [|discriminate].
    apply IH. eapply step_RouterInv; eauto.
Qed.

(** In every state of every run, the handler of [GET /attest] holds the
    start value of [certSha256], 32 zero bytes. *)
Lemma attestedHash_is_start_value cfg pf env rnd inputs p r :
  exec cfg pf (initialProc env rnd) inputs = Some p ->
  routerOf (mainPc p) = Some r ->
  attestedHash r = Some zeroHash.
Proof.
  intros Hrun Hr.
  assert (HI : RouterInv env rnd p).
  { eapply exec_RouterInv; [|exact Hrun]. unfold RouterInv. cbn. right. reflexivity. }
  unfold RouterInv in HI. rewrite Hr in HI. exact HI.
Qed.

End AttestedHash.

(** C1 fails on the code: when the server is up and the certificate is
    there, the handler of [GET /attest] holds 32 zero bytes, while
    [certSha256] is the digest of the leaf certificate.  This is so in the
    build with certificates from ACME, where [setupAcme] sets the
    fingerprint, and in the build of the source, with a self-signed
    certificate. *)
Theorem C1_attest_handler_holds_zeros_not_fingerprint :
  (exists p router,
      exec acmeConfig samplePlatform (initialProc ∅ sampleEntropy) sampleRunAcme
      = Some p
      /\ mainPc p = Serving router
      /\ poller p = Some true
      /\ attestedHash router = Some zeroHash
      /\ certSha256 (world p) = sha256.Sum256 [0; 5; 6; 7]
      /\ attestedHash router <> Some (certSha256 (world p)))
  /\ (exists p router,
        exec sourceConfig samplePlatform (initialProc ∅ sampleEntropy) sampleRun
        = Some p
        /\ mainPc p = Serving router
        /\ attestedHash router = Some zeroHash
        /\ certSha256 (world p) = sha256.Sum256 [0; 5; 6; 7]
        /\ attestedHash router <> Some (certSha256 (world p))).
Proof.
  split.
  - destruct (exec acmeConfig samplePlatform (initialProc ∅ sampleEntropy)
                sampleRunAcme) as [p|] eqn:Hrun; [|vm_compute in Hrun; discriminate].
    vm_compute in Hrun. injection Hrun as <-.
    eexists. eexists. split; [reflexivity|]. split; [reflexivity|].
    split; [reflexivity|]. split; [reflexivity|].
    split; [vm_compute; reflexivity|]. vm_compute. discriminate.
  - destruct (exec sourceConfig samplePlatform (initialProc ∅ sampleEntropy)
                sampleRun) as [p|] eqn:Hrun; [|vm_compute in Hrun; discriminate].
    vm_compute in Hrun. injection Hrun as <-.
    eexists. eexists. split; [reflexivity|]. split; [reflexivity|].
    split; [reflexivity|]. split; [vm_compute; reflexivity|].
    vm_compute. discriminate.
Qed.

(** ** One draw in the life of the process *)

Lemma randReads_app_noDraw t es :
  Forall noDraw es ->
  omap (fun e => match e with EvRandRead n => Some n | _ => None end) (t ++ es)
  = omap (fun e => match e with EvRandRead n => Some n | _ => None end) t.
Proof.
  intros Hes. rewrite omap_app.
  assert (Hnil : omap (fun e => match e with EvRandRead n => Some n | _ => None end) es
                 = []).
  { induction Hes as [|e es He _ IH]; [reflexivity|].
    destruct e; cbn in He |- *; try contradiction; exact IH. }
  rewrite Hnil. apply app_nil_r.
Qed.

(** [initAnonymization] reads the random source once, and ends. *)
Lemma initAnonymization_randReads useCP w :
  randReads (snd (initAnonymization useCP w)) = randReads w ++ [keySize useCP]
  /\ fst (initAnonymization useCP w) <> OutOfFuel.
Proof.
  destruct (le_lt_dec (keySize useCP) (length (entropy w))) as [Hn|Hn];
    destruct useCP; unfold keySize in *.
  - rewrite (initAnonymization_cryptopan_enough w Hn).
    destruct (cryptopan.New (firstn cryptopan.Size (entropy w))); cbn [fst snd];
      (split; [trace_simpl; reflexivity | discriminate]).
  - rewrite (initAnonymization_hmac_ok w Hn). cbn [fst snd].
    split; [trace_simpl; reflexivity | discriminate].
  - rewrite (initAnonymization_cryptopan_short w Hn). cbn [fst snd].
    split; [trace_simpl; reflexivity | discriminate].
  - rewrite (initAnonymization_hmac_short w Hn). cbn [fst snd].
    split; [trace_simpl; reflexivity | discriminate].
Qed.

(** The start of [main] reads the random source in [initAnonymization] and
    nowhere else. *)
Lemma main_init_randReads cfg pf w r w' :
  main_init cfg pf w = (r, w') ->
  (randReads w' = randReads w
   \/ randReads w' = randReads w ++ [keySize (useCryptoPAn cfg)])
  /\ (forall rv, r = Returned rv ->
        randReads w' = randReads w ++ [keySize (useCryptoPAn cfg)]).
Proof.
  unfold main_init. intros Hrun.
  (* the banner *)
  assert (Ha : exists wa,
             (if debug cfg then log_Printf "Enabling debug mode." else ret tt) w
             = (Returned tt, wa) /\ randReads wa = randReads w).
  { destruct (debug cfg); eexists; (split; [reflexivity|]); [|reflexivity].
    trace_simpl. reflexivity. }
  destruct Ha as (wa & Ha & Hra).
  unfold bind at 1 in Hrun. rewrite Ha in Hrun.
  (* the Nitro calls *)
  set (nitro := if negb (ignoreNitro pf) then _ else _) in Hrun.
  assert (Hb : nitro wa = (Returned tt, wa)
               \/ exists wb, nitro wa = (Exited 1, wb) /\ randReads wb = randReads wa).
  { subst nitro. destruct (ignoreNitro pf); cbn [negb]; [left; reflexivity|].
    destruct (seedEntropyPool pf) as [e|]; cbn [fail_on].
    - right. eexists. split; [reflexivity|]. trace_simpl. reflexivity.
    - destruct (assignLoAddr pf) as [e|]; cbn [fail_on].
      + right. eexists. split; [reflexivity|]. trace_simpl. reflexivity.
      + left. reflexivity. }
  unfold bind at 1 in Hrun.
  destruct Hb as [Hb|(wb & Hb & Hrb)]; rewrite Hb in Hrun.
  2:{ injection Hrun as <- <-.
      split; [left; congruence | intros rv Hrv; discriminate]. }
  unfold bind at 1 in Hrun. unfold log_Printf at 1, emit, modify in Hrun.
  unfold bind at 1 in Hrun. unfold initRouter at 1 in Hrun.
  unfold bind at 1, get, ret in Hrun. unfold bind at 1 in Hrun.
  destruct (initAnonymization_randReads (useCryptoPAn cfg)
              (add_events [EvLog "Setting up HTTP handlers."] wa))
    as (Hdraw & Hout).
  assert (Hrw : randReads (add_events [EvLog "Setting up HTTP handlers."] wa)
                = randReads w).
  { trace_simpl. exact Hra. }
  rewrite Hrw in Hdraw.
  destruct (initAnonymization (useCryptoPAn cfg)
              (add_events [EvLog "Setting up HTTP handlers."] wa)) as [[[]|c|] wi];
    cbn [fst snd] in *.
  - unfold NewVProxy, net_ResolveTCPAddr in Hrun. injection Hrun as <- <-.
    split; [right; exact Hdraw | intros _ _; exact Hdraw].
  - injection Hrun as <- <-.
    split; [right; exact Hdraw | intros rv Hrv; discriminate].
  - contradiction.
Qed.

Section Draws.
Context `{CertLibs}.

(** The reads of the random source so far, by where [main] stands. *)
Definition DrawInv (cfg : Config) (p : Proc) : Prop :=
  match mainPc p with
  | AtInit =>
      if exited p
      then randReads (world p) = []
           \/ randReads (world p) = [keySize (useCryptoPAn cfg)]
      else randReads (world p) = []
  | _ => randReads (world p) = [keySize (useCryptoPAn cfg)]
  end.

Lemma DrawInv_same cfg p p' :
  randReads (world p') = randReads (world p) ->
  (mainPc p' = AtInit <-> mainPc p = AtInit) ->
  exited p = false ->
  DrawInv cfg p -> DrawInv cfg p'.
Proof.
  unfold DrawInv. intros -> Hpc ->.
  destruct (mainPc p) eqn:Hp.
  1:{ rewrite (proj2 Hpc eq_refl). intros ->. destruct (exited p'); auto. }
  all: intros ->; destruct (mainPc p') eqn:Hp'; try reflexivity;
    destruct Hpc as [Hpc _]; specialize (Hpc eq_refl); discriminate.
Qed.

Lemma run_noDraw cfg {A} (m : M A) p (k : A -> World -> Proc) p' :
  emits noDraw m ->
  (forall a w, world (k a w) = w) ->
  (forall a w, mainPc (k a w) = AtInit <-> mainPc p = AtInit) ->
  exited p = false ->
  run m p k = Some p' -> DrawInv cfg p -> DrawInv cfg p'.
Proof.
  intros Hm Hkw Hkp Hex Hrun. apply DrawInv_same; [| |exact Hex].
  - destruct (Hm (world p)) as (es & Ht & Hes).
    apply run_cases in Hrun as [(a & _ & ->) | (_ & _ & _ & _ & _ & Hw)].
    + rewrite Hkw. unfold randReads. rewrite Ht. apply randReads_app_noDraw, Hes.
    + rewrite Hw. unfold randReads. rewrite Ht. apply randReads_app_noDraw, Hes.
  - apply run_cases in Hrun as [(a & _ & ->) | (Hmp & _)].
    + apply Hkp.
    + rewrite Hmp. tauto.
Qed.

Lemma emits_Start_noDraw vp pc i m : Start vp pc i = Some m -> emits noDraw m.
Proof.
  destruct pc; destruct i as [| |[e|]| |[c|e]|[c|e]|]; try discriminate;
    intros [= <-]; emits_auto.
Qed.

Lemma step_DrawInv cfg pf p i p' :
  DrawInv cfg p -> step cfg pf p i = Some p' -> DrawInv cfg p'.
Proof.
  intros HI. unfold step. destruct (exited p) eqn:Hex; [discriminate|].
  destruct i as [| |err| |res|res|res].
  - unfold main.
    destruct (mainPc p) as [|router vp|router|router|router|router|router|router]
      eqn:Hpc.
    + (* the start of main *)
      intros Hrun. unfold DrawInv in HI. rewrite Hpc, Hex in HI.
      destruct (main_init_randReads cfg pf (world p) _ _
                  (surjective_pairing (main_init cfg pf (world p))))
        as [Hany Hret].
      rewrite HI in Hany, Hret. cbn [app] in Hany, Hret.
      apply run_cases in Hrun as [(rv & Hrv & ->) | (Hmp & _ & _ & _ & Hexit & Hw)].
      * unfold DrawInv. cbn [with_main mainPc world]. eapply Hret. exact Hrv.
      * unfold DrawInv. rewrite Hmp, Hpc, Hexit, Hw. tauto.
    + intros [= <-]. unfold DrawInv in *. rewrite Hpc in HI. exact HI.
    + discriminate.
    + intros Hrun. eapply (run_noDraw cfg); [| | |exact Hex|exact Hrun|exact HI].
      * intros w. eexists. split; [reflexivity|]. repeat constructor.
      * reflexivity.
      * intros a w. rewrite Hpc. cbn. split; discriminate.
    + intros Hrun. eapply (run_noDraw cfg); [| | |exact Hex|exact Hrun|exact HI].
      * intros w. eexists. split; [reflexivity|]. repeat constructor.
      * reflexivity.
      * intros a w. rewrite Hpc. cbn. split; discriminate.
    + intros Hrun. eapply (run_noDraw cfg); [| | |exact Hex|exact Hrun|exact HI].
      * apply emits_main_certificate; cbn; auto.
      * reflexivity.
      * intros a w. rewrite Hpc. cbn. split; discriminate.
    + intros Hrun. eapply (run_noDraw cfg); [| | |exact Hex|exact Hrun|exact HI].
      * unfold main_listen. emits_auto.
      * reflexivity.
      * intros a w. rewrite Hpc. cbn. split; discriminate.
    + discriminate.
  - destruct (proxy p) as [[vp pc]|]; [|discriminate].
    destruct (Start vp pc RunProxy) as [m|] eqn:HS; [|discriminate].
    intros Hrun. eapply (run_noDraw cfg); [| | |exact Hex|exact Hrun|exact HI].
    + eapply emits_Start_noDraw; exact HS.
    + reflexivity.
    + reflexivity.
  - destruct (proxy p) as [[vp pc]|]; [|discriminate].
    destruct (Start vp pc (ListenResult err)) as [m|] eqn:HS; [|discriminate].
    intros Hrun. eapply (run_noDraw cfg); [| | |exact Hex|exact Hrun|exact HI].
    + eapply emits_Start_noDraw; exact HS.
    + reflexivity.
    + reflexivity.
  - destruct (mainPc p) as [|router vp|router|router|router|router|router|router]
      eqn:Hpc; try discriminate.
    destruct (proxy p) as [[vp []]|]; try discriminate.
    intros [= <-]. unfold DrawInv in *. rewrite Hpc in HI. cbn [mainPc world].
    unfold randReads in *. cbn [trace add_events].
    rewrite randReads_app_noDraw by (repeat constructor). exact HI.
  - destruct (proxy p) as [[vp pc]|]; [|discriminate].
    destruct (Start vp pc (AcceptResult res)) as [m|] eqn:HS; [|discriminate].
    intros Hrun. eapply (run_noDraw cfg); [| | |exact Hex|exact Hrun|exact HI].
    + eapply emits_Start_noDraw; exact HS.
    + reflexivity.
    + reflexivity.
  - destruct (proxy p) as [[vp pc]|]; [|discriminate].
    destruct (Start vp pc (DialResult res)) as [m|] eqn:HS; [|discriminate].
    intros Hrun. eapply (run_noDraw cfg); [| | |exact Hex|exact Hrun|exact HI].
    + eapply emits_Start_noDraw; exact HS.
    + reflexivity.
    + reflexivity.
  - destruct (poller p) as [[|]|]; try discriminate.
    intros Hrun. eapply (run_noDraw cfg); [| | |exact Hex|exact Hrun|exact HI].
    + apply emits_acmePoll; cbn; auto.
    + reflexivity.
    + reflexivity.
Qed.

Lemma exec_DrawInv cfg pf inputs : forall q p,
  DrawInv cfg q -> exec cfg pf q inputs = Some p -> DrawInv cfg p.
Proof.
  induction inputs as [|i inputs IH]; intros q p Hq; cbn [exec].
  - intros [= <-]. exact Hq.
  - destruct (step cfg pf q i) as [q1|] eqn:Hstep; [|discriminate].
    apply IH. eapply step_DrawInv; eauto.
Qed.

(** The reads of the random source that the code of these files makes:
    in every state of every run at most one, for the size of the key, and
    exactly one once [main] is past its start.  What the libraries and the
    other files of the repository read (for a certificate, for TLS) is no
    event of this model. *)
Lemma process_draws_key_once cfg pf env rnd inputs p :
  exec cfg pf (initialProc env rnd) inputs = Some p ->
  (randReads (world p) = [] \/ randReads (world p) = [keySize (useCryptoPAn cfg)])
  /\ (mainPc p <> AtInit -> randReads (world p) = [keySize (useCryptoPAn cfg)]).
Proof.
  intros Hrun.
  assert (HI : DrawInv cfg p).
  { eapply exec_DrawInv; [|exact Hrun]. reflexivity. }
  unfold DrawInv in HI.
  destruct (mainPc p); [destruct (exited p)|..];
    (split; [tauto | try congruence; intros _; exact HI]).
Qed.

End Draws.

(** ** More on the receiver *)

Lemma digit_of_inv c d :
  strconv.digit_of c = Some d -> c = ascii_of_nat (Z.to_nat (d + 48)).
Proof.
  unfold strconv.digit_of. destruct (_ && _) eqn:E; [|discriminate].
  intros [= <-].
  replace (Z.of_nat (nat_of_ascii c) - 48 + 48) with (Z.of_nat (nat_of_ascii c)) by lia.
  rewrite Nat2Z.id, ascii_nat_embedding. reflexivity.
Qed.

Lemma decimal_loop_small s : forall n,
  decimal_loop 0 s = Some n -> 1 <= n <= 4 ->
  exists k c, s = zeros k +:+ String c EmptyString /\ strconv.digit_of c = Some n.
Proof.
  induction s as [|c s IH]; intros n; cbn [decimal_loop].
  - intros [= <-] Hn. lia.
  - destruct (strconv.digit_of c) as [d|] eqn:Ed; [|discriminate].
    pose proof (digit_of_range _ _ Ed) as Hd. cbn [Z.mul].
    intros Hr Hn.
    destruct (Z.eq_dec d 0) as [->|Hd0].
    + apply digit_of_inv in Ed. cbn in Ed. subst c.
      destruct (IH n Hr Hn) as (k & c' & -> & Hc').
      exists (S k), c'. split; [reflexivity | exact Hc'].
    + destruct s as [|c2 s].
      * cbn in Hr. injection Hr as <-. exists O, c. split; [reflexivity | exact Ed].
      * exfalso. cbn [decimal_loop] in Hr.
        destruct (strconv.digit_of c2) as [d2|] eqn:Ed2; [|discriminate].
        pose proof (digit_of_range _ _ Ed2) as Hd2.
        apply decimal_loop_mono in Hr; lia.
Qed.

Lemma decimal_loop_zeros k c :
  decimal_loop 0 (zeros k +:+ String c EmptyString)
  = strconv.digit_of c.
Proof.
  induction k as [|k IH].
  - change (zeros 0 +:+ String c EmptyString) with (String c EmptyString).
    cbn [decimal_loop]. destruct (strconv.digit_of c); reflexivity.
  - change (zeros (S k) +:+ String c EmptyString)
      with (String "0"%char (zeros k +:+ String c EmptyString)).
    cbn [decimal_loop].
    change (strconv.digit_of "0") with (Some 0). exact IH.
Qed.

(** X1: the strings [isValidApiVersion] accepts are any number of zeros followed
    by one of the digits 1, 2, 3 and 4: leading zeros are read over, and
    nothing else is accepted, no sign, no space, nothing after the digit. *)
Theorem isValidApiVersion_accepts_zeros_then_one_digit (v : string) :
  isValidApiVersion v = true
  <-> exists k c,
        v = zeros k +:+ String c EmptyString
        /\ In c ["1"; "2"; "3"; "4"]%char.
Proof.
  rewrite isValidApiVersion_decimal. split.
  - intros (n & Hv & Hn).
    destruct v as [|a v]; [discriminate|]. unfold decimal_value in Hv.
    destruct (decimal_loop_small _ _ Hv Hn) as (k & c & Heq & Hc).
    exists k, c. split; [exact Heq|].
    apply digit_of_inv in Hc. subst c.
    assert (Hcase : n = 1 \/ n = 2 \/ n = 3 \/ n = 4) by lia.
    destruct Hcase as [-> | [-> | [-> | ->]]]; cbn; auto.
  - intros (k & c & -> & Hc).
    assert (Hd : exists n, strconv.digit_of c = Some n /\ 1 <= n <= 4).
    { cbn in Hc. destruct Hc as [<-|[<-|[<-|[<-|[]]]]]; eexists; (split; [vm_compute; reflexivity|lia]). }
    destruct Hd as (n & Hd & Hn). exists n. split; [|exact Hn].
    unfold decimal_value.
    destruct (zeros k +:+ String c EmptyString) eqn:E.
    + destruct k; discriminate.
    + rewrite <- E, decimal_loop_zeros. exact Hd.
Qed.

Section ReceiverMore.
Context `{WebLibs}.

(** X2: the first check that fails decides the answer: the version is checked
    before the wallet identifier, the wallet identifier before the header,
    and the presence of the header before its content.  A header that is
    there with an empty value is answered as a header that is not there. *)
Theorem getConfTokenHandler_first_failure_decides
    (r : Request) (m : gmap (string * string) nat) (q : list clientRequest) :
  let s' := getConfTokenHandler r (freshResponse m q) in
  let version := chi_URLParam r "version" in
  let wallet := chi_URLParam r "walletID" in
  let rawAddr := Header_Get (header r) fastlyClientIP in
  (isValidApiVersion version = false ->
   body s' = errBadApiVersion +:+ newline)
  /\ (forall e, isValidApiVersion version = true ->
        uuid_Parse wallet = Err e ->
        body s' = errBadWalletFmt +:+ newline)
  /\ (forall id, isValidApiVersion version = true ->
        uuid_Parse wallet = Ok id -> rawAddr = EmptyString ->
        body s' = errNoFastlyHeader +:+ newline)
  /\ (forall id vs, isValidApiVersion version = true ->
        uuid_Parse wallet = Ok id ->
        header r !! "Fastly-Client-Ip" = Some (EmptyString :: vs) ->
        body s' = errNoFastlyHeader +:+ newline)
  /\ (forall id, isValidApiVersion version = true ->
        uuid_Parse wallet = Ok id -> rawAddr <> EmptyString ->
        net_ParseIP rawAddr = None ->
        body s' = errBadFastlyAddrFormat +:+ newline).
Proof.
  intros s' version wallet rawAddr. subst s' version wallet rawAddr.
  unfold getConfTokenHandler.
  split; [|split; [|split; [|split]]].
  - intros ->. reflexivity.
  - intros e -> ->. reflexivity.
  - intros id -> -> ->. reflexivity.
  - intros id vs -> -> Hh. unfold Header_Get.
    change (textproto.CanonicalMIMEHeaderKey fastlyClientIP) with "Fastly-Client-Ip".
    rewrite Hh. reflexivity.
  - intros id -> -> Hne ->. cbn [negb].
    rewrite bool_decide_eq_false_2 by exact Hne. reflexivity.
Qed.

(** X3: every request is counted exactly once in [m.webResponses], whatever the
    counters, the response and the inbox held before: a refused request
    under the code 400 and the reason that is sent as the body, an accepted
    one under the code 200 and the empty body; no other counter changes.  A
    refused request writes the reason and sends nothing; an accepted one
    writes nothing and sends one record. *)
Theorem getConfTokenHandler_counts_each_request_once
    (r : Request) (s : HandlerState) :
  let s' := getConfTokenHandler r s in
  exists code label,
    webResponses s'
    = <[(code, label) := S (default 0%nat (webResponses s !! (code, label)))]>
        (webResponses s)
    /\ ((code = "400" /\ In label refusalReasons
         /\ body s' = body s +:+ label +:+ newline
         /\ inboxSent s' = inboxSent s)
        \/ (code = "200" /\ label = EmptyString
            /\ body s' = body s /\ statusCode s' = statusCode s
            /\ exists req, inboxSent s' = inboxSent s ++ [req])).
Proof.
  intros s'. subst s'. unfold getConfTokenHandler.
  destruct (isValidApiVersion _); cbn [negb].
  2:{ exists "400", errBadApiVersion. split; [reflexivity|]. left.
      repeat split. cbn. tauto. }
  destruct (uuid_Parse _) as [id|e].
  2:{ exists "400", errBadWalletFmt. split; [reflexivity|]. left.
      repeat split. cbn. tauto. }
  case_bool_decide.
  { exists "400", errNoFastlyHeader. split; [reflexivity|]. left.
    repeat split. cbn. tauto. }
  destruct (net_ParseIP _) as [addr|].
  2:{ exists "400", errBadFastlyAddrFormat. split; [reflexivity|]. left.
      repeat split. cbn. tauto. }
  exists "200", EmptyString. split; [reflexivity|]. right.
  repeat split. eexists. reflexivity.
Qed.

(** X4: the handler reads the client's address from the first value of the
    header alone: further values of the same header make no difference, nor
    do other headers; and the header is found under whatever spelling of its
    name it was set, as long as the spelling has the canonical form of
    [Fastly-Client-IP]. *)
Theorem getConfTokenHandler_reads_first_header_value
    (params : gmap string string) (h : gmap string (list string))
    (s : HandlerState) :
  (forall v vs,
      getConfTokenHandler
        {| urlParams := params; header := <["Fastly-Client-Ip" := v :: vs]> h |} s
      = getConfTokenHandler
          {| urlParams := params; header := <["Fastly-Client-Ip" := [v]]> h |} s)
  /\ (forall key v,
        textproto.CanonicalMIMEHeaderKey key
        = textproto.CanonicalMIMEHeaderKey fastlyClientIP ->
        Header_Get (Header_Set h key v) fastlyClientIP = v)
  /\ (forall key v,
        textproto.CanonicalMIMEHeaderKey key
        <> textproto.CanonicalMIMEHeaderKey fastlyClientIP ->
        getConfTokenHandler
          {| urlParams := params; header := Header_Set h key v |} s
        = getConfTokenHandler {| urlParams := params; header := h |} s).
Proof.
  split; [|split].
  - intros v vs. unfold getConfTokenHandler, Header_Get. cbn [header].
    change (textproto.CanonicalMIMEHeaderKey fastlyClientIP) with "Fastly-Client-Ip".
    rewrite !lookup_insert_eq. reflexivity.
  - intros key v Hk. unfold Header_Get, Header_Set. rewrite Hk.
    rewrite lookup_insert_eq. reflexivity.
  - intros key v Hk. unfold getConfTokenHandler, Header_Get, Header_Set.
    cbn [header]. rewrite lookup_insert_ne by exact Hk. reflexivity.
Qed.

End ReceiverMore.

Example header_spellings :
  map (fun key => Header_Get (Header_Set ∅ key sampleIP) fastlyClientIP)
      ["fastly-client-ip"; "FASTLY-CLIENT-IP"; "Fastly-Client-IP"; "Fastly_Client_IP"]
  = [sampleIP; sampleIP; sampleIP; EmptyString].
Proof. vm_compute. reflexivity. Qed.

Section Serialized.
Context `{WebLibs}.

(** X5: what the consumer of the inbox gets to serialize for an accepted
    request is the client's address as [net.ParseIP] read it from the first
    value of the header, and nothing of the wallet identifier: the bytes of
    the record are the same whatever the wallet and the version. *)
Theorem accepted_request_is_handed_on_as_its_address
    (HemptyIP : net_ParseIP EmptyString = None)
    (r : Request) (m : gmap (string * string) nat) (q : list clientRequest)
    (Hgood : ~ badRequest r) :
  exists addr,
    net_ParseIP (Header_Get (header r) fastlyClientIP) = Some addr
    /\ map clientRequest_bytes (inboxSent (getConfTokenHandler r (freshResponse m q)))
       = map clientRequest_bytes q ++ [addr].
Proof.
  unfold badRequest in Hgood. unfold getConfTokenHandler.
  destruct (isValidApiVersion (chi_URLParam r "version")) eqn:Ever; cbn [negb];
    [|exfalso; apply Hgood; left; reflexivity].
  destruct (uuid_Parse (chi_URLParam r "walletID")) as [wallet|e] eqn:Euuid;
    [|exfalso; apply Hgood; right; left; exists e; reflexivity].
  destruct (net_ParseIP (Header_Get (header r) fastlyClientIP)) as [addr|] eqn:Eip;
    [|exfalso; apply Hgood; right; right; right; reflexivity].
  case_bool_decide as Hhdr; [rewrite Hhdr in Eip; congruence|].
  exists addr. split; [reflexivity|].
  cbn [inboxSent inbox_send webResponses_Inc freshResponse].
  rewrite map_app. reflexivity.
Qed.

End Serialized.

Lemma accepted_request_is_handed_on_as_its_address_witness :
  map clientRequest_bytes
    (inboxSent (getConfTokenHandler
                  (sampleRequest "3" (Header_Set ∅ fastlyClientIP sampleIP))
                  (freshResponse ∅ [])))
  = [sampleIPBytes].
Proof.
  destruct (accepted_request_is_handed_on_as_its_address (H := sampleWebLibs)
              eq_refl (sampleRequest "3" (Header_Set ∅ fastlyClientIP sampleIP))
              ∅ []) as (addr & Hip & Hsent).
  - unfold badRequest. intros [Hb|[[e Hb]|[Hb|Hb]]].
    + vm_compute in Hb. discriminate.
    + vm_compute in Hb. discriminate.
    + apply Hb. eexists. vm_compute. reflexivity.
    + vm_compute in Hb. discriminate.
  - vm_compute in Hip. injection Hip as <-. exact Hsent.
Defined.

(** ** The life of a receiver *)

Section WebReceiverFacts.

Lemma make_chan_fresh h :
  web.chans h !! fst (web.make_chan h) = None.
Proof.
  unfold web.make_chan. cbn [fst].
  apply not_elem_of_dom. apply is_fresh.
Qed.

(** X6: [stop] closes the channel [done] and nothing else: the inbox, which is
    another channel and the one the handler of the token route sends on,
    stays open, and a server that [start] has started stays as it is, with
    the port of the configuration in its address.  A second [stop] panics. *)
Theorem stop_closes_done_and_nothing_else (h : web.Heap) (c : web.config) :
  let w := fst (web.newWebReceiver h) in
  let h1 := snd (web.newWebReceiver h) in
  let w' := web.setConfig w c in
  let h2 := web.start w' h1 in
  web.inbox w' <> web.done w'
  /\ web.route (web.router w') "GET" "/v{version}/confirmation/token/{walletID}"
     = Some (web.ConfTokenHandler (web.inbox w'))
  /\ web.servers h2
     = web.servers h ++ [(":" +:+ fmt_d (web.configPort c), web.router w')]
  /\ exists h3,
       web.stop w' h2 = web.Done tt h3
       /\ web.chans h3 !! web.done w' = Some true
       /\ web.chans h3 !! web.inbox w' = Some false
       /\ web.servers h3 = web.servers h2
       /\ web.stop w' h3 = web.Panic "close of closed channel".
Proof.
  intros w h1 w' h2. subst w h1 w' h2.
  pose proof (make_chan_fresh h) as Hf1.
  unfold web.newWebReceiver, web.setConfig, web.start, web.stop, web.close,
    web.inbox.
  destruct (web.make_chan h) as [cin h1] eqn:E1.
  pose proof (make_chan_fresh h1) as Hf2.
  destruct (web.make_chan h1) as [cdone h2] eqn:E2.
  cbn [fst snd] in *.
  assert (Hh1 : web.chans h1 = <[cin := false]> (web.chans h)).
  { unfold web.make_chan in E1. injection E1 as <- <-. reflexivity. }
  assert (Hh2 : web.chans h2 = <[cdone := false]> (web.chans h1)).
  { unfold web.make_chan in E2. injection E2 as <- <-. reflexivity. }
  assert (Hs1 : web.servers h1 = web.servers h).
  { unfold web.make_chan in E1. injection E1 as <- <-. reflexivity. }
  assert (Hs2 : web.servers h2 = web.servers h1).
  { unfold web.make_chan in E2. injection E2 as <- <-. reflexivity. }
  assert (Hne : cin <> cdone).
  { intros ->. rewrite Hh1, lookup_insert_eq in Hf2. discriminate. }
  cbn [web.done web.in_ web.router web.port web.chans web.servers].
  split; [exact Hne|]. split; [reflexivity|].
  split; [rewrite Hs2, Hs1; reflexivity|].
  rewrite Hh2, lookup_insert_eq.
  eexists. split; [reflexivity|].
  cbn [web.chans web.servers].
  split; [apply lookup_insert_eq|].
  split.
  { rewrite lookup_insert_ne by congruence.
    rewrite lookup_insert_ne by congruence.
    rewrite Hh1. apply lookup_insert_eq. }
  split; [reflexivity|].
  rewrite lookup_insert_eq. reflexivity.
Qed.

End WebReceiverFacts.

(** ** More on the certificate fingerprint *)

Section FingerprintMore.
Context `{CertLibs}.

Lemma loop_total (Hcons : pem_Decode_consumes) fuel :
  forall fuel' x data w,
    (length data < fuel)%nat -> (length data < fuel')%nat ->
    (exists pre b c post,
        pemBlocks fuel' data = pre ++ b :: post
        /\ Forall skipped pre /\ classify b = Leaf c
        /\ setCertFingerprint_loop fuel (Some x) data w
           = (Returned tt,
              add_events [EvLog ("SHA-256 of server's certificate: "
                                 +:+ fmt_x (sha256.Sum256 (Raw c)))]
                (set_certSha256 (sha256.Sum256 (Raw c)) w)))
    \/ (exists line,
          setCertFingerprint_loop fuel (Some x) data w
          = (Exited 1, add_events [EvLog line; EvExit 1] w)).
Proof.
  induction fuel as [|fuel IH]; intros fuel' x data w Hf Hf'; [lia|].
  destruct fuel' as [|fuel']; [lia|].
  cbn [pemBlocks].
  destruct (pem_Decode data) as [[b|] rest] eqn:Hd.
  - pose proof (Hcons _ _ _ Hd) as Hlen.
    destruct (classify b) as [|e|c|c] eqn:Hc.
    + rewrite (loop_skipped _ _ _ _ _ _ Hd) by (left; exact Hc).
      destruct (IH fuel' x rest w) as [(pre & b' & c' & post & Hp & Hs & Hl & Hr)|Hr];
        [lia | lia | | right; exact Hr].
      left. exists (b :: pre), b', c', post. rewrite Hp.
      split; [reflexivity|]. split; [|split; assumption].
      apply Forall_cons_2; [left; exact Hc | exact Hs].
    + right. rewrite (loop_unparsable _ _ _ _ _ _ _ Hd Hc). eexists. reflexivity.
    + rewrite (loop_skipped _ _ _ _ _ _ Hd) by (right; eexists; exact Hc).
      destruct (IH fuel' x rest w) as [(pre & b' & c' & post & Hp & Hs & Hl & Hr)|Hr];
        [lia | lia | | right; exact Hr].
      left. exists (b :: pre), b', c', post. rewrite Hp.
      split; [reflexivity|]. split; [|split; assumption].
      apply Forall_cons_2; [right; eexists; exact Hc | exact Hs].
    + left. exists [], b, c, (pemBlocks fuel' rest).
      split; [reflexivity|]. split; [apply Forall_nil_2|]. split; [exact Hc|].
      apply (loop_leaf _ _ _ _ _ _ _ Hd Hc).
  - right. cbn [setCertFingerprint_loop]. rewrite Hd. eexists. reflexivity.
Qed.

(** X7: [setCertFingerprint] never returns without a fingerprint: on every input
    it either finds a leaf certificate, stores its digest, logs it and
    returns, having changed nothing else, or it ends the process with one
    log line and the stored value untouched.  It cannot run for ever.  On
    empty input it ends the process. *)
Theorem setCertFingerprint_stores_a_digest_or_exits
    (Hcons : pem_Decode_consumes) (rawData : bytes) (w : World) :
  ((exists pre b c post,
       pemChain rawData = pre ++ b :: post
       /\ Forall skipped pre /\ classify b = Leaf c
       /\ setCertFingerprint rawData w
          = (Returned tt,
             add_events [EvLog ("SHA-256 of server's certificate: "
                                +:+ fmt_x (sha256.Sum256 (Raw c)))]
               (set_certSha256 (sha256.Sum256 (Raw c)) w)))
   \/ (exists line,
         setCertFingerprint rawData w
         = (Exited 1, add_events [EvLog line; EvExit 1] w)))
  /\ setCertFingerprint [] w
     = (Exited 1,
        add_events
          [EvLog "pem.Decode failed because it didn't find PEM data in the input we provided.";
           EvExit 1] w).
Proof.
  split.
  - unfold setCertFingerprint, pemChain.
    apply (loop_total Hcons); lia.
  - unfold setCertFingerprint. cbn [length setCertFingerprint_loop].
    destruct (pem_Decode []) as [[b|] rest] eqn:Hd; [|reflexivity].
    apply Hcons in Hd. cbn [length] in Hd. lia.
Qed.

End FingerprintMore.

(** On the sample parsers: empty input ends the process, and the sample
    chain gives a digest. *)
Lemma setCertFingerprint_stores_a_digest_or_exits_witness :
  fst (setCertFingerprint [] (initialWorld ∅ [])) = Exited 1
  /\ fst (setCertFingerprint sampleChain (initialWorld ∅ [])) = Returned tt.
Proof.
  split.
  - destruct (setCertFingerprint_stores_a_digest_or_exits
                sample_pem_Decode_consumes [] (initialWorld ∅ [])) as [_ Hempty].
    rewrite Hempty. reflexivity.
  - destruct (setCertFingerprint_stores_a_digest_or_exits
                sample_pem_Decode_consumes sampleChain (initialWorld ∅ []))
      as [[(pre & b & c & post & _ & _ & _ & Hrun)|[line Hrun]] _].
    + rewrite Hrun. reflexivity.
    + vm_compute in Hrun. discriminate.
Defined.

(** ** More on the anonymization key *)

(** X8: when [initAnonymization] returns, the key it installed is the first
    bytes of the random source and the source goes on right after them: no
    byte is skipped or used twice.  The variable of the other strategy, the
    certificate hash and the environment are as before, and two lines were
    logged: the strategy and the key. *)
Theorem initAnonymization_takes_the_key_bytes_only
    (useCP : bool) (w w' : World)
    (Hrun : initAnonymization useCP w = (Returned tt, w')) :
  exists k,
    installedKey useCP w' = Some k
    /\ entropy w = k ++ entropy w'
    /\ length k = keySize useCP
    /\ (if useCP then hmacKey w' = hmacKey w else cryptoPAn w' = cryptoPAn w)
    /\ certSha256 w' = certSha256 w
    /\ environ w' = environ w
    /\ logLines w' = logLines w ++ [strategyLine useCP; keyLine useCP k].
Proof.
  exists (firstn (keySize useCP) (entropy w)).
  assert (Hlen : forall n, (n <= length (entropy w))%nat ->
                           length (firstn n (entropy w)) = n).
  { intros n Hle. rewrite length_firstn. lia. }
  destruct (le_lt_dec (keySize useCP) (length (entropy w))) as [Hn|Hn];
    destruct useCP; unfold keySize in *.
  - rewrite (initAnonymization_cryptopan_enough w Hn) in Hrun.
    unfold cryptopan.New in Hrun.
    rewrite bool_decide_eq_true_2 in Hrun by exact (Hlen _ Hn).
    injection Hrun as <-. cbn. rewrite firstn_skipn.
    repeat split; [exact (Hlen _ Hn)|].
    rewrite !omap_app. cbn [omap list_omap].
    rewrite ?app_nil_r, <- ?app_assoc. reflexivity.
  - rewrite (initAnonymization_hmac_ok w Hn) in Hrun.
    injection Hrun as <-. cbn. rewrite firstn_skipn.
    repeat split; [exact (Hlen _ Hn)|].
    rewrite !omap_app. cbn [omap list_omap].
    rewrite ?app_nil_r, <- ?app_assoc. reflexivity.
  - rewrite (initAnonymization_cryptopan_short w Hn) in Hrun. discriminate.
  - rewrite (initAnonymization_hmac_short w Hn) in Hrun. discriminate.
Qed.

Lemma initAnonymization_takes_the_key_bytes_only_witness :
  let w := initialWorld ∅ (map Z.of_nat (seq 0 40)) in
  exists w',
    initAnonymization true w = (Returned tt, w')
    /\ entropy w' = [32; 33; 34; 35; 36; 37; 38; 39]
    /\ hmacKey w' = None.
Proof.
  intros w. eexists. split; [reflexivity|].
  edestruct (initAnonymization_takes_the_key_bytes_only true w) as
    (k & Hk & Hent & Hlen & Hother & _); [reflexivity|].
  split; [reflexivity | exact Hother].
Defined.

Lemma hexdigit_inj a b :
  0 <= a < 16 -> 0 <= b < 16 -> hexdigit a = hexdigit b -> a = b.
Proof.
  intros Ha Hb.
  assert (Hcase : forall x, 0 <= x < 16 ->
            x = 0 \/ x = 1 \/ x = 2 \/ x = 3 \/ x = 4 \/ x = 5 \/ x = 6 \/ x = 7
            \/ x = 8 \/ x = 9 \/ x = 10 \/ x = 11 \/ x = 12 \/ x = 13 \/ x = 14
            \/ x = 15) by (intros; lia).
  destruct (Hcase a Ha) as [-> | [-> | [-> | [-> | [-> | [-> | [-> | [-> | [-> | [-> | [-> | [-> | [-> | [-> | [-> | ->]]]]]]]]]]]]]]];
    destruct (Hcase b Hb) as [-> | [-> | [-> | [-> | [-> | [-> | [-> | [-> | [-> | [-> | [-> | [-> | [-> | [-> | [-> | ->]]]]]]]]]]]]]]];
    vm_compute; intros Heq; try reflexivity; discriminate Heq.
Qed.

Lemma fmt_x_inj k1 : forall k2,
  Forall isByte k1 -> Forall isByte k2 -> fmt_x k1 = fmt_x k2 -> k1 = k2.
Proof.
  induction k1 as [|a k1 IH]; intros [|b k2] H1 H2; cbn [fmt_x];
    try discriminate; [reflexivity|].
  apply Forall_cons in H1 as [Ha H1]. apply Forall_cons in H2 as [Hb H2].
  unfold isByte in Ha, Hb.
  intros [= Hhi Hlo Hrest].
  apply hexdigit_inj in Hhi; [|apply Z.mod_pos_bound; lia..].
  apply hexdigit_inj in Hlo; [|apply Z.mod_pos_bound; lia..].
  rewrite (Z.mod_small (a / 16)) in Hhi
    by (split; [apply Z.div_pos; lia | apply Z.div_lt_upper_bound; lia]).
  rewrite (Z.mod_small (b / 16)) in Hhi
    by (split; [apply Z.div_pos; lia | apply Z.div_lt_upper_bound; lia]).
  f_equal.
  - pose proof (Z.div_mod a 16 ltac:(lia)) as Hda.
    pose proof (Z.div_mod b 16 ltac:(lia)) as Hdb. lia.
  - apply IH; assumption.
Qed.

(** X9: the line that is logged for a key determines the key: it holds every
    byte of it, two digits a byte, so two keys with the same line are the
    same key. *)
Theorem keyLine_determines_the_key
    (useCP : bool) (k1 k2 : bytes)
    (H1 : Forall isByte k1) (H2 : Forall isByte k2)
    (Hline : keyLine useCP k1 = keyLine useCP k2) :
  k1 = k2
  /\ String.length (keyLine useCP k1)
     = (String.length (keyLine useCP []) + 2 * length k1)%nat.
Proof.
  split.
  - apply fmt_x_inj; [assumption..|].
    unfold keyLine in Hline. destruct useCP; cbv [append] in Hline; congruence.
  - clear. unfold keyLine.
    assert (Hx : forall k, String.length (fmt_x k) = (2 * length k)%nat).
    { induction k as [|a k IH]; cbn [fmt_x String.length length]; [reflexivity|].
      rewrite IH. lia. }
    destruct useCP; cbv [append]; cbn [String.length fmt_x]; rewrite Hx; lia.
Qed.

Lemma keyLine_determines_the_key_witness :
  sampleEntropy = firstn 32 (sampleEntropy ++ [7])
  /\ String.length (keyLine true sampleEntropy) = 80%nat.
Proof.
  assert (Hb : Forall isByte sampleEntropy).
  { unfold isByte. apply (bool_decide_unpack _). vm_compute. exact I. }
  destruct (keyLine_determines_the_key true sampleEntropy
              (firstn 32 (sampleEntropy ++ [7])) Hb Hb eq_refl) as [Heq Hlen].
  split; [exact Heq | exact Hlen].
Defined.

(** ** More on the start of [main] *)

Lemma main_init_outcome cfg pf w : main_init_spec cfg pf w.
Proof.
  unfold main_init_spec, nitroError, main_init, initRouter.
  destruct (ignoreNitro pf); cbn [negb].
  2: destruct (seedEntropyPool pf) as [e|]; [|destruct (assignLoAddr pf) as [e|]];
       cbn [fail_on].
  2,3: destruct (debug cfg); run_M; cbn [fst snd];
       unfold logLines, randReads; cbn [trace add_events];
       rewrite ?omap_app; cbn [omap list_omap]; rewrite ?app_nil_r;
       (split; [reflexivity|]); (split; [reflexivity|]);
       (split; [reflexivity|]); (split; [|repeat split]);
       rewrite ?last_snoc; reflexivity.
  all: case_bool_decide as Hn;
    destruct (useCryptoPAn cfg); unfold keySize in Hn;
    destruct (debug cfg); run_M.
  all: cbv beta iota in Hn;
    match type of Hn with
    | ~ _ => apply Nat.nle_gt in Hn
    | _ => idtac
    end.
  all: match goal with
       | |- context [initAnonymization true ?w0] =>
           first [ rewrite (initAnonymization_cryptopan_enough w0 Hn);
                   unfold cryptopan.New;
                   rewrite bool_decide_eq_true_2
                     by (cbn [entropy add_events]; rewrite length_firstn; lia)
                 | rewrite (initAnonymization_cryptopan_short w0 Hn) ]
       | |- context [initAnonymization false ?w0] =>
           first [ rewrite (initAnonymization_hmac_ok w0 Hn)
                 | rewrite (initAnonymization_hmac_short w0 Hn) ]
       end.
  all: unfold NewVProxy, net_ResolveTCPAddr; cbn [fst snd].
  all: split; [reflexivity|]; split; [reflexivity|].
  all: try (eexists; repeat split; reflexivity).
  all: split; [reflexivity|]; split; [|reflexivity].
  all: unfold logLines; cbn [trace add_events set_entropy set_hmacKey];
    rewrite !omap_app; cbn [omap list_omap]; rewrite ?app_nil_r;
    apply last_snoc.
Qed.

(** X10: the start of [main] returns exactly when no Nitro call fails and
    the random source can deliver the key; it cannot fail in [NewVProxy] or
    in [cryptopan.New].  When it returns, it hands on the router, which
    holds the certificate hash as it was when [main] started, and the proxy
    to context 3, port 1080, and the key is installed, the random source
    standing right after it.  When a Nitro call fails, the process ends with
    that failure as its last log line, nothing is read from the random
    source and no key is made.  In no case does the start of [main] touch
    the environment or the certificate hash, and it always ends. *)
Theorem main_init_fails_only_on_nitro_or_entropy
    (cfg : Config) (pf : Platform) (w : World) :
  let r := fst (main_init cfg pf w) in
  let w' := snd (main_init cfg pf w) in
  let size := keySize (useCryptoPAn cfg) in
  ((exists rv, r = Returned rv)
   <-> nitroError pf = None /\ (size <= length (entropy w))%nat)
  /\ (forall rv, r = Returned rv ->
        snd rv = theProxy
        /\ attestedHash (fst rv) = Some (certSha256 w)
        /\ installedKey (useCryptoPAn cfg) w' = Some (firstn size (entropy w))
        /\ entropy w' = skipn size (entropy w))
  /\ (forall line, nitroError pf = Some line ->
        r = Exited 1 /\ last (logLines w') = Some line
        /\ randReads w' = randReads w /\ keyStore w' = keyStore w)
  /\ ((exists rv, r = Returned rv) \/ r = Exited 1)
  /\ environ w' = environ w /\ certSha256 w' = certSha256 w.
Proof.
  intros r w' size. subst r w' size.
  destruct (main_init_outcome cfg pf w) as (Henv & Hcert & Hspec).
  destruct (nitroError pf) as [line|].
  - destruct Hspec as (Hr & Hlast & Hreads & Hent & Hh & Hc).
    split; [split; [intros [rv Hrv]; congruence | intros [? _]; discriminate]|].
    split; [intros rv Hrv; congruence|].
    split.
    { intros l [= <-]. repeat split; try assumption.
      unfold keyStore. rewrite Hh, Hc, Hent. reflexivity. }
    split; [right; exact Hr|]. split; assumption.
  - case_bool_decide as Hn.
    + destruct Hspec as (router & Hr & Hhash & Hkey & Hent & _).
      split; [split; [intros _; split; [reflexivity | exact Hn]
                     | intros _; eexists; exact Hr]|].
      split.
      { intros rv Hrv. rewrite Hr in Hrv. injection Hrv as <-.
        repeat split; assumption. }
      split; [intros l; discriminate|].
      split; [left; eexists; exact Hr|]. split; assumption.
    + destruct Hspec as (Hr & _).
      split; [split; [intros [rv Hrv]; congruence | intros [_ Hle]; contradiction]|].
      split; [intros rv Hrv; congruence|].
      split; [intros l; discriminate|].
      split; [right; exact Hr|]. split; assumption.
Qed.

Example nitroError_samples :
  nitroError samplePlatform = None
  /\ nitroError {| ignoreNitro := true; seedEntropyPool := Some "no device";
                   assignLoAddr := Some "no device"; mkdirAll := None;
                   selfSignedCert := Ok sampleChain; serverListen := None |}
     = None
  /\ nitroError {| ignoreNitro := false; seedEntropyPool := Some "no device";
                   assignLoAddr := None; mkdirAll := None;
                   selfSignedCert := Ok sampleChain; serverListen := None |}
     = Some "Failed to initialize the system's entropy pool: no device".
Proof. repeat split. Qed.

(** ** What sequential code leaves alone *)

Section Keeps.
Context {X : Type} (f : World -> X).
Hypothesis f_events : forall es w, f (add_events es w) = f w.

Lemma keeps_ret {A} (a : A) : keeps f (ret a).
Proof. intros w. reflexivity. Qed.

Lemma keeps_get {A} (g : World -> A) : keeps f (get g).
Proof. intros w. reflexivity. Qed.

Lemma keeps_modify g : (forall w, f (g w) = f w) -> keeps f (modify g).
Proof. intros Hg w. apply Hg. Qed.

Lemma keeps_emit e : keeps f (emit e).
Proof using f_events. intros w. apply f_events. Qed.

Lemma keeps_log_Printf line : keeps f (log_Printf line).
Proof using f_events. apply keeps_emit. Qed.

Lemma keeps_log_Fatal {A} line : keeps f (log_Fatal (A := A) line).
Proof using f_events. intros w. apply f_events. Qed.

Lemma keeps_bind {A B} (m : M A) (k : A -> M B) :
  keeps f m -> (forall a, keeps f (k a)) -> keeps f (bind m k).
Proof.
  intros Hm Hk w. unfold bind. specialize (Hm w).
  destruct (m w) as [[a|c|] w1]; cbn [snd] in *; [|exact Hm..].
  rewrite (Hk a w1). exact Hm.
Qed.

Lemma keeps_fail_on {A} err msg (k : M A) :
  keeps f k -> keeps f (fail_on err msg k).
Proof using f_events.
  intros Hk. destruct err as [e|]; cbn [fail_on]; [apply keeps_log_Fatal | exact Hk].
Qed.

Lemma keeps_Start vp pc i m : Start vp pc i = Some m -> keeps f m.
Proof using f_events.
  destruct pc; destruct i as [| |[e|]| |[c|e]|[c|e]|]; try discriminate;
    intros [= <-];
    repeat first [ apply keeps_ret | apply keeps_emit | apply keeps_log_Printf
                 | apply keeps_log_Fatal | apply keeps_bind; [|intros] ].
Qed.

Lemma keeps_main_listen cfg pf : keeps f (main_listen cfg pf).
Proof using f_events.
  unfold main_listen. apply keeps_bind; [apply keeps_log_Printf|intros _].
  apply keeps_fail_on, keeps_emit.
Qed.

Lemma keeps_rand_Read n :
  (forall v w, f (set_entropy v w) = f w) -> keeps f (rand_Read n).
Proof using f_events.
  intros Hent. unfold rand_Read.
  apply keeps_bind; [apply keeps_emit|intros _].
  apply keeps_bind; [apply keeps_get|intros avail].
  case_bool_decide;
    (apply keeps_bind; [apply keeps_modify; intros; apply Hent|intros _];
     apply keeps_ret).
Qed.

Section KeepsCertificate.
Context `{CertLibs}.
Hypothesis f_cert : forall v w, f (set_certSha256 v w) = f w.

Lemma keeps_setCertFingerprint rawData : keeps f (setCertFingerprint rawData).
Proof using f_events f_cert.
  intros w. unfold setCertFingerprint.
  destruct (loop_shape (S (length rawData)) [] rawData) as (r & es & Hshape).
  rewrite Hshape. destruct r as [c|code|]; cbn [snd];
    rewrite ?f_events, ?f_cert; reflexivity.
Qed.

Lemma keeps_acmePoll r : keeps f (acmePoll r).
Proof using f_events f_cert.
  unfold acmePoll. destruct r as [rawData|e]; [|apply keeps_ret].
  apply keeps_bind; [apply keeps_log_Printf|intros _].
  apply keeps_bind; [apply keeps_setCertFingerprint|intros _]. apply keeps_ret.
Qed.

Lemma keeps_main_certificate cfg pf : keeps f (main_certificate cfg pf).
Proof using f_events f_cert.
  unfold main_certificate. apply keeps_bind; [apply keeps_log_Printf|intros _].
  destruct (useAcme cfg).
  - unfold setupAcme. apply keeps_bind; [apply keeps_log_Printf|intros _].
    apply keeps_fail_on, keeps_ret.
  - apply keeps_bind.
    + unfold genSelfSignedCert. destruct (selfSignedCert pf); [|apply keeps_ret].
      apply keeps_bind; [apply keeps_setCertFingerprint|intros _]. apply keeps_ret.
    + intros [pem|e]; [apply keeps_ret | apply keeps_log_Fatal].
Qed.

End KeepsCertificate.

End Keeps.

Section Steps.
Context `{CertLibs}.

Lemma step_kind cfg pf p i p' :
  step cfg pf p i = Some p' -> exited p = false /\ StepKind cfg pf p p'.
Proof.
  unfold step. destruct (exited p) eqn:Hex; [discriminate|].
  intros Hstep. split; [reflexivity|].
  destruct i as [| |err| |res|res|res].
  - unfold main in Hstep.
    destruct (mainPc p) as [|router vp|router|router|router|router|router|router]
      eqn:Hpc; try discriminate.
    + apply ByMainInit; assumption.
    + injection Hstep as <-. eapply ByGo; [exact Hpc|]. reflexivity.
    + unfold run in Hstep. change "socks5://127.0.0.1:1080" with proxyURL in Hstep.
      rewrite setEnvVar_HTTP_PROXY in Hstep. injection Hstep as <-.
      eapply BySetHTTP; [exact Hpc | reflexivity].
    + unfold run in Hstep. change "socks5://127.0.0.1:1080" with proxyURL in Hstep.
      rewrite setEnvVar_HTTPS_PROXY in Hstep. injection Hstep as <-.
      eapply BySetHTTPS; [exact Hpc | reflexivity].
    + eapply ByCertificate; [exact Hpc|]. exact Hstep.
    + eapply ByServerListen; [exact Hpc | exact Hstep].
  - destruct (proxy p) as [[vp pc]|] eqn:Hpx; [|discriminate].
    destruct (Start vp pc RunProxy) as [m|] eqn:HS; [|discriminate].
    eapply ByStart; [exact Hpx | exact HS |]. rewrite Hex. exact Hstep.
  - destruct (proxy p) as [[vp pc]|] eqn:Hpx; [|discriminate].
    destruct (Start vp pc (ListenResult err)) as [m|] eqn:HS; [|discriminate].
    eapply ByStart; [exact Hpx | exact HS |]. rewrite Hex. exact Hstep.
  - destruct (mainPc p) as [|router vp|router|router|router|router|router|router]
      eqn:Hpc; try discriminate.
    destruct (proxy p) as [[vp []]|] eqn:Hpx; try discriminate.
    injection Hstep as <-. eapply ByRendezvous; [exact Hpc | exact Hpx |]. rewrite Hex. reflexivity.
  - destruct (proxy p) as [[vp pc]|] eqn:Hpx; [|discriminate].
    destruct (Start vp pc (AcceptResult res)) as [m|] eqn:HS; [|discriminate].
    eapply ByStart; [exact Hpx | exact HS |]. rewrite Hex. exact Hstep.
  - destruct (proxy p) as [[vp pc]|] eqn:Hpx; [|discriminate].
    destruct (Start vp pc (DialResult res)) as [m|] eqn:HS; [|discriminate].
    eapply ByStart; [exact Hpx | exact HS |]. rewrite Hex. exact Hstep.
  - destruct (poller p) as [[|]|] eqn:Hpo; try discriminate.
    eapply ByPoller; [exact Hpo|]. rewrite Hex. exact Hstep.
Qed.

(** Invariants of the process are proved step by step. *)
Lemma exec_invariant cfg pf (I : Proc -> Prop) :
  (forall p i p', I p -> step cfg pf p i = Some p' -> I p') ->
  forall inputs p p', I p -> exec cfg pf p inputs = Some p' -> I p'.
Proof.
  intros Hstep. induction inputs as [|i inputs IH]; intros p p' HI; cbn [exec].
  - intros [= <-]. exact HI.
  - destruct (step cfg pf p i) as [p1|] eqn:Hs; [|discriminate].
    apply IH. eapply Hstep; eauto.
Qed.

(** A goroutine that runs code which keeps [f]: [f] of the world is as
    before, whether the code returns or ends the process. *)
Lemma run_keeps {A X} (f : World -> X) (m : M A) p (k : A -> World -> Proc) p' :
  run m p k = Some p' ->
  keeps f m -> (forall a w, world (k a w) = w) ->
  f (world p') = f (world p).
Proof.
  intros Hrun Hm Hk.
  apply run_cases in Hrun as [(a & _ & ->) | (_ & _ & _ & _ & _ & ->)].
  - rewrite Hk. apply Hm.
  - apply Hm.
Qed.

(** Where the main goroutine stands after such a step. *)
Lemma run_mainPc {A} (m : M A) p (k : A -> World -> Proc) p' :
  run m p k = Some p' ->
  (exists a, mainPc p' = mainPc (k a (snd (m (world p)))))
  \/ (mainPc p' = mainPc p /\ exited p' = true).
Proof.
  intros Hrun.
  apply run_cases in Hrun as [(a & _ & ->) | (Hm & _ & _ & _ & He & _)].
  - left. exists a. reflexivity.
  - right. split; assumption.
Qed.

End Steps.

(** ** The environment and the key, by where [main] stands *)

Section Stages.
Context `{CertLibs}.

Lemma keeps_main_init_environ cfg pf : keeps environ (main_init cfg pf).
Proof. intros w. apply (main_init_outcome cfg pf w). Qed.

Lemma step_environAt cfg pf env p i p' :
  environ (world p) = environAt env (mainPc p) ->
  step cfg pf p i = Some p' ->
  environ (world p') = environAt env (mainPc p').
Proof.
  intros HI Hstep. apply step_kind in Hstep as [Hex Hkind].
  destruct Hkind as [Hpc Hrun|router vp Hpc ->|router Hpc ->|router Hpc ->
                    |router Hpc Hrun|router Hpc Hrun|router vp Hpc Hpx ->
                    |vp pc i' m Hpx HS Hrun|r Hpo Hrun]; rewrite Hpc in HI || idtac.
  - rewrite (run_keeps environ _ _ _ _ Hrun (keeps_main_init_environ cfg pf)
               (fun _ _ => eq_refl)), HI.
    apply run_mainPc in Hrun as [[a ->]|[-> _]]; [reflexivity|].
    rewrite Hpc. reflexivity.
  - exact HI.
  - cbn. rewrite HI. reflexivity.
  - cbn. rewrite HI. reflexivity.
  - rewrite (run_keeps environ _ _ _ _ Hrun
               (keeps_main_certificate environ (fun _ _ => eq_refl)
                  (fun _ _ => eq_refl) cfg pf)
               (fun _ _ => eq_refl)), HI.
    apply run_mainPc in Hrun as [[a ->]|[-> _]]; [reflexivity|].
    rewrite Hpc. reflexivity.
  - rewrite (run_keeps environ _ _ _ _ Hrun
               (keeps_main_listen environ (fun _ _ => eq_refl) cfg pf)
               (fun _ _ => eq_refl)), HI.
    apply run_mainPc in Hrun as [[a ->]|[-> _]]; [reflexivity|].
    rewrite Hpc. reflexivity.
  - exact HI.
  - rewrite (run_keeps environ _ _ _ _ Hrun
               (keeps_Start environ (fun _ _ => eq_refl) vp pc i' m HS)
               (fun _ _ => eq_refl)), HI.
    apply run_mainPc in Hrun as [[a ->]|[-> _]]; reflexivity.
  - rewrite (run_keeps environ _ _ _ _ Hrun
               (keeps_acmePoll environ (fun _ _ => eq_refl) (fun _ _ => eq_refl) r)
               (fun _ _ => eq_refl)), HI.
    apply run_mainPc in Hrun as [[a ->]|[-> _]]; reflexivity.
Qed.

(** X11: in every state of every run the environment is the one the process
    inherited, changed by what [main] has set so far and by nothing else:
    nothing before the readiness signal is received, [HTTP_PROXY] after the
    first call of [setEnvVar] and [HTTPS_PROXY] after the second, both to
    the SOCKS URL of the address [Start] listens on.  The two calls cannot
    fail, and no other goroutine changes the environment. *)
Theorem environment_holds_the_proxy_variables
    (cfg : Config) (pf : Platform) (env : gmap string string) (rnd : bytes)
    (inputs : list Input) (p : Proc)
    (Hrun : exec cfg pf (initialProc env rnd) inputs = Some p) :
  environ (world p) = environAt env (mainPc p)
  /\ proxyURL = "socks5://" +:+ bindAddr
  /\ (forall router, mainPc p = Serving router ->
        environ (world p) !! "HTTP_PROXY" = Some proxyURL
        /\ environ (world p) !! "HTTPS_PROXY" = Some proxyURL
        /\ forall k, k <> "HTTP_PROXY" -> k <> "HTTPS_PROXY" ->
                     environ (world p) !! k = env !! k).
Proof.
  assert (HI : environ (world p) = environAt env (mainPc p)).
  { revert Hrun.
    apply (exec_invariant cfg pf
             (fun q => environ (world q) = environAt env (mainPc q)));
      [|reflexivity].
    intros q i q'. apply step_environAt. }
  split; [exact HI|]. split; [reflexivity|].
  intros router Hpc. rewrite HI, Hpc. cbn [environAt].
  split; [|split].
  - rewrite lookup_insert_ne by discriminate. apply lookup_insert_eq.
  - apply lookup_insert_eq.
  - intros k H1 H2. rewrite !lookup_insert_ne by congruence. reflexivity.
Qed.

(** The key material is in place as soon as [main] is past its start. *)
Definition KeyInv (cfg : Config) (env : gmap string string) (rnd : bytes)
    (p : Proc) : Prop :=
  match mainPc p with
  | AtInit => exited p = true \/ p = initialProc env rnd
  | _ =>
      (keySize (useCryptoPAn cfg) <= length rnd)%nat
      /\ keyStore (world p) = keyStoreAfter (useCryptoPAn cfg) rnd
  end.

Lemma KeyInv_same cfg env rnd p p' :
  mainPc p <> AtInit -> mainPc p' = mainPc p ->
  keyStore (world p') = keyStore (world p) ->
  KeyInv cfg env rnd p -> KeyInv cfg env rnd p'.
Proof.
  unfold KeyInv. intros Hne -> ->. destruct (mainPc p); [congruence|tauto..].
Qed.

Lemma KeyInv_move cfg env rnd p p' :
  mainPc p <> AtInit -> mainPc p' <> AtInit ->
  keyStore (world p') = keyStore (world p) ->
  KeyInv cfg env rnd p -> KeyInv cfg env rnd p'.
Proof.
  unfold KeyInv. intros Hne Hne' ->.
  destruct (mainPc p); [congruence|..]; destruct (mainPc p'); congruence || tauto.
Qed.

Lemma main_init_keyStore cfg pf env rnd rv w' :
  main_init cfg pf (initialWorld env rnd) = (Returned rv, w') ->
  (keySize (useCryptoPAn cfg) <= length rnd)%nat
  /\ keyStore w' = keyStoreAfter (useCryptoPAn cfg) rnd.
Proof.
  intros Hrun.
  destruct (main_init_outcome cfg pf (initialWorld env rnd)) as (_ & _ & Hspec).
  rewrite Hrun in Hspec. cbn [fst snd] in Hspec.
  destruct (nitroError pf); [destruct Hspec as [? _]; discriminate|].
  cbn [entropy initialWorld] in Hspec.
  case_bool_decide as Hn; [|destruct Hspec as [? _]; discriminate].
  split; [exact Hn|].
  destruct Hspec as (router & _ & _ & Hkey & Hent & Hother).
  unfold keyStore, keyStoreAfter, installedKey in *.
  cbn [hmacKey cryptoPAn initialWorld] in Hother.
  destruct (useCryptoPAn cfg).
  - destruct (cryptoPAn w') as [[k]|]; [|discriminate].
    injection Hkey as ->. rewrite Hother, Hent. reflexivity.
  - rewrite Hkey, Hother, Hent. reflexivity.
Qed.

Lemma step_KeyInv cfg pf env rnd p i p' :
  KeyInv cfg env rnd p -> step cfg pf p i = Some p' -> KeyInv cfg env rnd p'.
Proof.
  intros HI Hstep. apply step_kind in Hstep as [Hex Hkind].
  destruct Hkind as [Hpc Hrun|router vp Hpc ->|router Hpc ->|router Hpc ->
                    |router Hpc Hrun|router Hpc Hrun|router vp Hpc Hpx ->
                    |vp pc i' m Hpx HS Hrun|r Hpo Hrun].
  - unfold KeyInv in HI. rewrite Hpc in HI.
    destruct HI as [HI| ->]; [congruence|].
    apply run_cases in Hrun as [(rv & Hret & ->) | (Hmp & _ & _ & _ & He & _)].
    + unfold KeyInv. cbn [with_main mainPc world initialProc].
      eapply main_init_keyStore. apply injective_projections; [exact Hret|reflexivity].
    + unfold KeyInv. rewrite Hmp. cbn. left. exact He.
  - eapply KeyInv_move; [| | |exact HI]; [rewrite Hpc; discriminate | cbn; discriminate | reflexivity].
  - eapply KeyInv_move; [| | |exact HI]; [rewrite Hpc; discriminate | cbn; discriminate | reflexivity].
  - eapply KeyInv_move; [| | |exact HI]; [rewrite Hpc; discriminate | cbn; discriminate | reflexivity].
  - eapply KeyInv_move; [| | |exact HI]; [rewrite Hpc; discriminate| |].
    + apply run_mainPc in Hrun as [[a ->]|[-> _]]; [|rewrite Hpc]; discriminate.
    + eapply run_keeps; [exact Hrun| |reflexivity].
      apply keeps_main_certificate; reflexivity.
  - eapply KeyInv_move; [| | |exact HI]; [rewrite Hpc; discriminate| |].
    + apply run_mainPc in Hrun as [[a ->]|[-> _]]; [|rewrite Hpc]; discriminate.
    + eapply run_keeps; [exact Hrun| |reflexivity].
      apply keeps_main_listen; reflexivity.
  - eapply KeyInv_move; [| | |exact HI]; [rewrite Hpc; discriminate | cbn; discriminate | reflexivity].
  - assert (Hd : mainPc p = AtInit \/ mainPc p <> AtInit)
      by (destruct (mainPc p); [left; reflexivity | right; discriminate..]).
    destruct Hd as [Hinit|Hne].
    + unfold KeyInv in HI. rewrite Hinit in HI.
      destruct HI as [HI| ->]; [congruence|discriminate].
    + eapply KeyInv_same; [exact Hne| | |exact HI].
      * apply run_mainPc in Hrun as [[a ->]|[-> _]]; reflexivity.
      * eapply run_keeps; [exact Hrun| |reflexivity].
        eapply keeps_Start; [reflexivity|exact HS].
  - assert (Hd : mainPc p = AtInit \/ mainPc p <> AtInit)
      by (destruct (mainPc p); [left; reflexivity | right; discriminate..]).
    destruct Hd as [Hinit|Hne].
    + unfold KeyInv in HI. rewrite Hinit in HI.
      destruct HI as [HI| ->]; [congruence|discriminate].
    + eapply KeyInv_same; [exact Hne| | |exact HI].
      * apply run_mainPc in Hrun as [[a ->]|[-> _]]; reflexivity.
      * eapply run_keeps; [exact Hrun| |reflexivity].
        apply keeps_acmePoll; reflexivity.
Qed.

(** X12: once [main] is past its start, in every state of every run the key
    of the strategy in use is installed and is the first bytes the random
    source held when the process began, and the other strategy has no key:
    no later step of [main], of [Start] or of the goroutine that waits for
    the certificate replaces or removes a key. *)
Theorem key_is_kept_for_the_whole_run
    (cfg : Config) (pf : Platform) (env : gmap string string) (rnd : bytes)
    (inputs : list Input) (p : Proc)
    (Hrun : exec cfg pf (initialProc env rnd) inputs = Some p)
    (Hpast : mainPc p <> AtInit) :
  let useCP := useCryptoPAn cfg in
  let k := firstn (keySize useCP) rnd in
  length k = keySize useCP
  /\ installedKey useCP (world p) = Some k
  /\ (if useCP then hmacKey (world p) = None else cryptoPAn (world p) = None).
Proof.
  intros useCP k. subst useCP k.
  assert (HI : KeyInv cfg env rnd p).
  { revert Hrun. apply (exec_invariant cfg pf (KeyInv cfg env rnd)).
    - intros q i q'. apply step_KeyInv.
    - right. reflexivity. }
  unfold KeyInv in HI.
  assert (Hk : (keySize (useCryptoPAn cfg) <= length rnd)%nat
               /\ keyStore (world p) = keyStoreAfter (useCryptoPAn cfg) rnd).
  { destruct (mainPc p); [congruence | exact HI..]. }
  destruct Hk as [Hn Hk]. unfold keyStore, keyStoreAfter in Hk.
  injection Hk as Hh Hc _.
  split; [rewrite length_firstn; lia|].
  split.
  - unfold installedKey. destruct (useCryptoPAn cfg); [rewrite Hc|rewrite Hh]; reflexivity.
  - destruct (useCryptoPAn cfg); assumption.
Qed.

End Stages.

Lemma key_is_kept_for_the_whole_run_witness :
  exists p,
    exec sourceConfig samplePlatform (initialProc ∅ sampleEntropy) sampleRun = Some p
    /\ installedKey true (world p) = Some sampleEntropy
    /\ hmacKey (world p) = None.
Proof.
  destruct (exec sourceConfig samplePlatform (initialProc ∅ sampleEntropy) sampleRun)
    as [p|] eqn:Hrun; [|vm_compute in Hrun; discriminate].
  exists p. split; [reflexivity|].
  assert (Hpast : mainPc p <> AtInit).
  { vm_compute in Hrun. injection Hrun as <-. discriminate. }
  destruct (key_is_kept_for_the_whole_run sourceConfig samplePlatform ∅ sampleEntropy
              sampleRun p Hrun Hpast) as (_ & Hkey & Hother).
  split; [exact Hkey | exact Hother].
Defined.

Lemma environment_holds_the_proxy_variables_witness :
  exists p,
    exec sourceConfig samplePlatform (initialProc ∅ sampleEntropy) sampleRun = Some p
    /\ environ (world p) !! "HTTPS_PROXY" = Some "socks5://127.0.0.1:1080".
Proof.
  destruct (exec sourceConfig samplePlatform (initialProc ∅ sampleEntropy) sampleRun)
    as [p|] eqn:Hrun; [|vm_compute in Hrun; discriminate].
  exists p. split; [reflexivity|].
  destruct (environment_holds_the_proxy_variables sourceConfig samplePlatform ∅
              sampleEntropy sampleRun p Hrun) as (_ & _ & Hserving).
  assert (Hpc : exists router, mainPc p = Serving router).
  { vm_compute in Hrun. injection Hrun as <-. eexists. reflexivity. }
  destruct Hpc as [router Hpc].
  destruct (Hserving router Hpc) as (_ & Hs & _). exact Hs.
Defined.

(** ** The certificate hash while the ACME certificate is awaited *)

Section Acme.
Context `{CertLibs}.

Lemma setCertFingerprint_not_returned rawData w :
  fst (setCertFingerprint rawData w) <> Returned tt ->
  certSha256 (snd (setCertFingerprint rawData w)) = certSha256 w.
Proof.
  unfold setCertFingerprint.
  destruct (loop_shape (S (length rawData)) [] rawData) as (r & es & Hshape).
  rewrite Hshape. destruct r as [x|code|]; cbn [fst snd]; [congruence|reflexivity..].
Qed.

Lemma acmePoll_not_found r w :
  fst (acmePoll r w) <> Returned true ->
  certSha256 (snd (acmePoll r w)) = certSha256 w.
Proof.
  unfold acmePoll. destruct r as [rawData|e]; [|reflexivity].
  unfold bind at 1. unfold log_Printf, emit, modify. unfold bind.
  set (w1 := add_events _ w).
  pose proof (setCertFingerprint_not_returned rawData w1) as Hs.
  destruct (setCertFingerprint rawData w1) as [[[]|c|] w2]; cbn [fst snd] in *.
  - unfold ret. cbn. congruence.
  - intros _. apply Hs. discriminate.
  - intros _. apply Hs. discriminate.
Qed.

Lemma keeps_main_certificate_acme cfg pf :
  useAcme cfg = true -> keeps certSha256 (main_certificate cfg pf).
Proof.
  intros Hacme. unfold main_certificate. rewrite Hacme.
  apply keeps_bind; [apply keeps_log_Printf; reflexivity|intros _].
  unfold setupAcme.
  apply keeps_bind; [apply keeps_log_Printf; reflexivity|intros _].
  apply keeps_fail_on; [reflexivity | apply keeps_ret].
Qed.

(** Whether the main goroutine has yet to pass the certificate. *)
Definition early (pc : MainPc) : Prop :=
  match pc with
  | AtServerListen _ | Serving _ => False
  | _ => True
  end.

(** Until the goroutine of [setupAcme] has found the certificate, the hash
    is the one the process started with; that goroutine exists only once
    [main] has passed the certificate. *)
Definition AcmeInv (p : Proc) : Prop :=
  (poller p <> Some true -> certSha256 (world p) = zeroHash)
  /\ (early (mainPc p) -> poller p = None).

Lemma AcmeInv_same p p' :
  certSha256 (world p') = certSha256 (world p) ->
  poller p' = poller p ->
  (early (mainPc p') -> early (mainPc p)) ->
  AcmeInv p -> AcmeInv p'.
Proof.
  unfold AcmeInv. intros -> -> He [Hz Hn]. split; [exact Hz|].
  intros Hearly. apply Hn, He, Hearly.
Qed.

Lemma run_AcmeInv {A} (m : M A) p (k : A -> World -> Proc) p' :
  keeps certSha256 m ->
  (forall a w, world (k a w) = w) ->
  (forall a w, poller (k a w) = poller p) ->
  (forall a w, early (mainPc (k a w)) -> early (mainPc p)) ->
  run m p k = Some p' -> AcmeInv p -> AcmeInv p'.
Proof.
  intros Hm Hkw Hkp Hke Hrun. apply AcmeInv_same.
  - exact (run_keeps certSha256 _ _ _ _ Hrun Hm Hkw).
  - apply run_cases in Hrun as [(a & _ & ->) | (_ & _ & _ & Hsame & _)];
      [apply Hkp | exact Hsame].
  - apply run_cases in Hrun as [(a & _ & ->) | (Hmp & _)];
      [apply Hke | rewrite Hmp; tauto].
Qed.

Lemma step_AcmeInv cfg pf p i p' :
  useAcme cfg = true -> AcmeInv p -> step cfg pf p i = Some p' -> AcmeInv p'.
Proof.
  intros Hacme HI Hstep. apply step_kind in Hstep as [Hex Hkind].
  destruct Hkind as [Hpc Hrun|router vp Hpc ->|router Hpc ->|router Hpc ->
                    |router Hpc Hrun|router Hpc Hrun|router vp Hpc Hpx ->
                    |vp pc i' m Hpx HS Hrun|r Hpo Hrun].
  - eapply run_AcmeInv; [| | | |exact Hrun|exact HI]; try reflexivity.
    + intros w. apply (main_init_outcome cfg pf w).
    + intros _ _ _. rewrite Hpc. exact I.
  - eapply AcmeInv_same; [| | |exact HI]; try reflexivity.
    intros _. rewrite Hpc. exact I.
  - eapply AcmeInv_same; [| | |exact HI]; try reflexivity.
    intros _. rewrite Hpc. exact I.
  - eapply AcmeInv_same; [| | |exact HI]; try reflexivity.
    intros _. rewrite Hpc. exact I.
  - destruct HI as [Hz Hn].
    assert (Hnone : poller p = None) by (apply Hn; rewrite Hpc; exact I).
    assert (Hcert : certSha256 (world p') = zeroHash).
    { rewrite (run_keeps certSha256 _ _ _ _ Hrun
                 (keeps_main_certificate_acme cfg pf Hacme) (fun _ _ => eq_refl)).
      apply Hz. rewrite Hnone. discriminate. }
    split; [intros _; exact Hcert|].
    apply run_cases in Hrun as [(a & _ & ->) | (Hmp & _ & _ & Hsame & _)].
    + cbn. contradiction.
    + intros _. rewrite Hsame. exact Hnone.
  - eapply run_AcmeInv; [| | | |exact Hrun|exact HI]; try reflexivity.
    + apply keeps_main_listen. reflexivity.
    + cbn. contradiction.
  - eapply AcmeInv_same; [| | |exact HI]; try reflexivity.
    intros _. rewrite Hpc. exact I.
  - eapply run_AcmeInv; [| | | |exact Hrun|exact HI]; try reflexivity.
    + eapply keeps_Start; [reflexivity | exact HS].
    + cbn. tauto.
  - destruct HI as [Hz Hn].
    assert (Hbefore : certSha256 (world p) = zeroHash).
    { apply Hz. rewrite Hpo. discriminate. }
    assert (Hlate : ~ early (mainPc p)).
    { intros He. apply Hn in He. congruence. }
    unfold run in Hrun.
    pose proof (acmePoll_not_found r (world p)) as Hnf.
    destruct (acmePoll r (world p)) as [[found|c|] w'] eqn:Hp; [| |discriminate];
      injection Hrun as <-; cbn [world poller mainPc] in *.
    + split; [|tauto]. intros Hnot. rewrite <- Hbefore. apply Hnf.
      destruct found; [exfalso; apply Hnot; reflexivity | cbn; discriminate].
    + split; [|tauto]. intros _. rewrite <- Hbefore. apply Hnf. discriminate.
Qed.

Lemma exec_misses cfg pf p errs :
  poller p = Some false -> exited p = false ->
  exec cfg pf p (map (fun e => CacheResult (Err e)) errs) = Some p.
Proof.
  intros Hpo Hex. induction errs as [|e errs IH]; [reflexivity|].
  cbn [map exec]. unfold step. rewrite Hex, Hpo. unfold run, acmePoll, ret.
  replace {| world := world p; mainPc := mainPc p; proxy := proxy p;
             poller := Some false; pipes := pipes p; exited := false |}
    with p by (destruct p; cbn in *; congruence).
  exact IH.
Qed.

(** X13: in a build that takes its certificate from ACME, the certificate hash
    is the zero value the process started with for as long as the goroutine
    of [setupAcme] has not found the certificate, wherever the other
    goroutines stand: the server can be serving by then.  A call of
    [cache.Get] that fails changes nothing, not even the log, however often
    it happens. *)
Theorem acme_hash_is_zero_until_the_certificate_is_cached
    (cfg : Config) (pf : Platform) (env : gmap string string) (rnd : bytes)
    (inputs : list Input) (p : Proc)
    (Hacme : useAcme cfg = true)
    (Hrun : exec cfg pf (initialProc env rnd) inputs = Some p) :
  (poller p <> Some true -> certSha256 (world p) = zeroHash)
  /\ (poller p = Some false -> exited p = false ->
      forall errs,
        exec cfg pf (initialProc env rnd)
          (inputs ++ map (fun e => CacheResult (Err e)) errs) = Some p).
Proof.
  split.
  - assert (HI : AcmeInv p); [|apply HI].
    revert Hrun. apply (exec_invariant cfg pf AcmeInv).
    + intros q i q'. apply step_AcmeInv. exact Hacme.
    + split; reflexivity.
  - intros Hpo Hex errs.
    assert (Happ : forall l1 l2 q q',
               exec cfg pf q l1 = Some q' ->
               exec cfg pf q (l1 ++ l2) = exec cfg pf q' l2).
    { induction l1 as [|i l1 IH]; intros l2 q q'; cbn [exec app].
      - intros [= <-]. reflexivity.
      - destruct (step cfg pf q i); [apply IH | discriminate]. }
    rewrite (Happ _ _ _ _ Hrun). apply exec_misses; assumption.
Qed.

End Acme.

(** On the sample start of the build with ACME: the server is serving, the
    cache has missed three times, and the hash is still the zero value. *)
Lemma acme_hash_is_zero_until_the_certificate_is_cached_witness :
  exists p router,
    exec acmeConfig samplePlatform (initialProc ∅ sampleEntropy)
      (firstn 8 sampleRunAcme
       ++ map (fun e => CacheResult (Err e)) ["miss"; "miss"; "miss"]) = Some p
    /\ mainPc p = Serving router
    /\ certSha256 (world p) = zeroHash.
Proof.
  destruct (exec acmeConfig samplePlatform (initialProc ∅ sampleEntropy)
              (firstn 8 sampleRunAcme)) as [p|] eqn:Hrun;
    [|vm_compute in Hrun; discriminate].
  destruct (acme_hash_is_zero_until_the_certificate_is_cached acmeConfig
              samplePlatform ∅ sampleEntropy (firstn 8 sampleRunAcme) p
              eq_refl Hrun) as [Hzero Hmiss].
  assert (Hp : poller p = Some false /\ exited p = false
               /\ exists router, mainPc p = Serving router).
  { vm_compute in Hrun. injection Hrun as <-.
    split; [reflexivity|]. split; [reflexivity|]. eexists. reflexivity. }
  destruct Hp as (Hpo & Hex & router & Hpc).
  exists p, router. split; [apply Hmiss; assumption|].
  split; [exact Hpc|]. apply Hzero. rewrite Hpo. discriminate.
Defined.

(** ** When start-up fails *)

Section Failures.
Context `{CertLibs}.

(** X14: if a Nitro call fails, the process ends in the first step of [main]:
    with the line that names the call as its last log line, with nothing
    read from the random source, no key and the environment as inherited.
    [main] has not reached [go vproxy.Start] nor [setupAcme]: there is no
    proxy goroutine, no goroutine waiting for a certificate and no
    forwarding goroutine. *)
Theorem nitro_failure_ends_the_process_at_once
    (cfg : Config) (pf : Platform) (env : gmap string string) (rnd : bytes)
    (inputs : list Input) (p : Proc) (line : string)
    (Hnitro : nitroError pf = Some line)
    (Hrun : exec cfg pf (initialProc env rnd) inputs = Some p) :
  p = initialProc env rnd
  \/ (exited p = true /\ mainPc p = AtInit
      /\ proxy p = None /\ poller p = None /\ pipes p = []
      /\ last (logLines (world p)) = Some line
      /\ randReads (world p) = []
      /\ keyStore (world p) = (None, None, rnd)
      /\ environ (world p) = env).
Proof.
  revert Hrun.
  apply (exec_invariant cfg pf
           (fun q => q = initialProc env rnd
                     \/ (exited q = true /\ mainPc q = AtInit
                         /\ proxy q = None /\ poller q = None /\ pipes q = []
                         /\ last (logLines (world q)) = Some line
                         /\ randReads (world q) = []
                         /\ keyStore (world q) = (None, None, rnd)
                         /\ environ (world q) = env)));
    [|left; reflexivity].
  intros q i q' [-> | (Hex & _)] Hstep.
  2:{ unfold step in Hstep. rewrite Hex in Hstep. discriminate. }
  right.
  unfold step in Hstep. cbn [exited initialProc] in Hstep.
  destruct i; cbn [proxy poller mainPc initialProc] in Hstep; try discriminate.
  unfold main in Hstep. cbn [mainPc initialProc] in Hstep.
  unfold run in Hstep. cbn [world initialProc] in Hstep.
  destruct (main_init_outcome cfg pf (initialWorld env rnd)) as (Henv & _ & Hspec).
  rewrite Hnitro in Hspec.
  destruct Hspec as (Hr & Hlast & Hreads & Hent & Hh & Hc).
  destruct (main_init cfg pf (initialWorld env rnd)) as [o w'].
  cbn [fst snd] in *. subst o. injection Hstep as <-.
  cbn [exited mainPc proxy poller pipes world].
  repeat split; try assumption.
  unfold keyStore. rewrite Hh, Hc, Hent. reflexivity.
Qed.

(** X15: when [Accept] fails, the failure is logged and [Start] is back at the
    head of its loop: it makes no dial, starts no forwarding goroutine and
    changes nothing else, and its next step is to call [Accept] again. *)
Theorem failed_accept_is_logged_and_retried
    (cfg : Config) (pf : Platform) (p : Proc) (vp : VProxy) (e : string)
    (Hlive : exited p = false) (Hacc : proxy p = Some (vp, AtAccept)) :
  exists p1,
    step cfg pf p (AcceptResult (Err e)) = Some p1
    /\ world p1
       = add_events [EvLog ("Failed to accept proxy connection: " +:+ e)] (world p)
    /\ pipes p1 = pipes p /\ mainPc p1 = mainPc p /\ poller p1 = poller p
    /\ exited p1 = false /\ proxy p1 = Some (vp, AtLoop)
    /\ (forall r, step cfg pf p1 (DialResult r) = None)
    /\ exists p2,
         step cfg pf p1 RunProxy = Some p2
         /\ proxy p2 = Some (vp, AtAccept)
         /\ trace (world p2)
            = trace (world p1)
              ++ [EvLog "Waiting for new outgoing TCP connection."; EvAcceptCall].
Proof.
  eexists. split.
  { unfold step. rewrite Hlive, Hacc. cbn [Start]. unfold run. run_M. reflexivity. }
  cbn [world pipes mainPc poller exited proxy].
  do 6 (split; [rewrite ?app_nil_r; reflexivity|]).
  split; [intros r; reflexivity|].
  eexists. split.
  { unfold step. cbn [exited proxy Start]. unfold run. run_M. reflexivity. }
  cbn [proxy world trace add_events fst]. split; [reflexivity|].
  rewrite <- !app_assoc. reflexivity.
Qed.

(** X16: when the proxy cannot bind its address, the process ends there: the
    failure is its last log line, the readiness signal was never sent, the
    main goroutine is still waiting for it, the environment is as
    inherited, and no goroutine makes another step. *)
Theorem failed_bind_ends_the_process
    (cfg : Config) (pf : Platform) (env : gmap string string) (rnd : bytes)
    (inputs : list Input) (p : Proc) (vp : VProxy) (e : string)
    (Hrun : exec cfg pf (initialProc env rnd) inputs = Some p)
    (Hlive : exited p = false) (Hbind : proxy p = Some (vp, AtListen)) :
  exists p1,
    step cfg pf p (ListenResult (Some e)) = Some p1
    /\ exited p1 = true
    /\ last (logLines (world p1)) = Some ("Failed to bind to 127.0.0.1:1080: " +:+ e)
    /\ ~ In EvReady (trace (world p1))
    /\ (exists router, mainPc p1 = AtRecv router)
    /\ environ (world p1) = env
    /\ forall i, step cfg pf p1 i = None.
Proof.
  assert (HI : Inv p).
  { revert Hrun. apply exec_Inv. apply initial_Inv. }
  assert (He : environ (world p) = environAt env (mainPc p)).
  { revert Hrun.
    apply (exec_invariant cfg pf
             (fun q => environ (world q) = environAt env (mainPc q)));
      [|reflexivity].
    intros q i q'. apply step_environAt. }
  unfold Inv in HI. rewrite Hbind in HI.
  destruct (mainPc p) as [|router vp'|router|router|router|router|router|router]
    eqn:Hpc; cbn in HI; try contradiction.
  destruct HI as [Hpre _].
  eexists. split.
  { unfold step. rewrite Hlive, Hbind. cbn [Start]. unfold run. run_M. reflexivity. }
  cbn [exited world mainPc].
  split; [reflexivity|]. split.
  { unfold logLines. cbn [trace add_events]. rewrite omap_app. cbn [omap list_omap].
    change bindAddr with "127.0.0.1:1080". apply last_snoc. }
  split.
  { cbn [trace add_events]. intros Hin. apply in_app_iff in Hin as [Hin|Hin].
    - apply list_elem_of_In in Hin.
      exact (proj1 (Forall_forall _ _) Hpre _ Hin).
    - cbn in Hin. destruct Hin as [Hin|[Hin|[]]]; discriminate. }
  split; [rewrite Hpc; eexists; reflexivity|].
  split; [exact He|].
  intros i. reflexivity.
Qed.

(** X17: in a build that takes its certificate from ACME: when the cache
    directory cannot be made, [setupAcme] ends the process before it starts
    the goroutine that waits for the certificate, so no fingerprint is ever
    set; the failure is the last line logged, after the line that names the
    host. *)
Theorem acme_cache_directory_failure_ends_the_process
    (cfg : Config) (pf : Platform) (env : gmap string string) (rnd : bytes)
    (inputs : list Input) (p : Proc) (router : Router) (e : string)
    (Hacme : useAcme cfg = true) (Hmkdir : mkdirAll pf = Some e)
    (Hrun : exec cfg pf (initialProc env rnd) inputs = Some p)
    (Hlive : exited p = false) (Hpc : mainPc p = AtCertificate router) :
  exists p1,
    step cfg pf p RunMain = Some p1
    /\ exited p1 = true
    /\ poller p1 = None
    /\ certSha256 (world p1) = zeroHash
    /\ logLines (world p1)
       = logLines (world p)
         ++ ["Initializing new flusher with interval "
             +:+ fmt_d (flushInterval cfg) +:+ "s.";
             "ACME hostname set to " +:+ fqdn cfg +:+ ".";
             "Failed to create cache directory: " +:+ e].
Proof.
  assert (HI : AcmeInv p).
  { revert Hrun. apply (exec_invariant cfg pf AcmeInv).
    - intros q i q'. apply step_AcmeInv. exact Hacme.
    - split; reflexivity. }
  destruct HI as [Hz Hn].
  assert (Hnone : poller p = None) by (apply Hn; rewrite Hpc; exact I).
  assert (Hzero : certSha256 (world p) = zeroHash).
  { apply Hz. rewrite Hnone. discriminate. }
  eexists. split.
  { unfold step. rewrite Hlive. unfold main. rewrite Hpc.
    unfold run, main_certificate, setupAcme. rewrite Hacme, Hmkdir.
    cbn [fail_on]. run_M. reflexivity. }
  cbn [exited poller world].
  split; [reflexivity|]. split; [exact Hnone|]. split; [exact Hzero|].
  unfold logLines. cbn [trace add_events].
  rewrite !omap_app. cbn [omap list_omap]. rewrite <- !app_assoc. reflexivity.
Qed.

End Failures.

Lemma nitro_failure_ends_the_process_at_once_witness :
  let pf := {| ignoreNitro := false; seedEntropyPool := Some "no device";
               assignLoAddr := None; mkdirAll := None;
               selfSignedCert := Ok sampleChain; serverListen := None |} in
  exists p,
    exec sourceConfig pf (initialProc ∅ sampleEntropy) [RunMain] = Some p
    /\ randReads (world p) = []
    /\ entropy (world p) = sampleEntropy.
Proof.
  intros pf.
  destruct (exec sourceConfig pf (initialProc ∅ sampleEntropy) [RunMain])
    as [p|] eqn:Hrun; [|vm_compute in Hrun; discriminate].
  exists p. split; [reflexivity|].
  destruct (nitro_failure_ends_the_process_at_once sourceConfig pf ∅ sampleEntropy
              [RunMain] p _ eq_refl Hrun)
    as [-> | (_ & _ & _ & _ & _ & _ & Hreads & Hkey & _)].
  - split; reflexivity.
  - split; [exact Hreads|]. unfold keyStore in Hkey. congruence.
Defined.

Lemma failed_accept_is_logged_and_retried_witness :
  exists p p1,
    exec sourceConfig samplePlatform (initialProc ∅ sampleEntropy)
      (firstn 7 sampleRun) = Some p
    /\ step sourceConfig samplePlatform p (AcceptResult (Err "too many open files"))
       = Some p1
    /\ pipes p1 = [].
Proof.
  destruct (exec sourceConfig samplePlatform (initialProc ∅ sampleEntropy)
              (firstn 7 sampleRun)) as [p|] eqn:Hrun;
    [|vm_compute in Hrun; discriminate].
  assert (Hp : exited p = false /\ proxy p = Some (theProxy, AtAccept) /\ pipes p = []).
  { vm_compute in Hrun. injection Hrun as <-. repeat split. }
  destruct Hp as (Hlive & Hacc & Hpipes).
  destruct (failed_accept_is_logged_and_retried sourceConfig samplePlatform p
              theProxy "too many open files" Hlive Hacc)
    as (p1 & Hstep & _ & Hp1 & _).
  exists p, p1. split; [reflexivity|]. split; [exact Hstep|].
  rewrite Hp1. exact Hpipes.
Defined.

Lemma failed_bind_ends_the_process_witness :
  exists p p1,
    exec sourceConfig samplePlatform (initialProc ∅ sampleEntropy) [RunMain; RunMain]
    = Some p
    /\ step sourceConfig samplePlatform p (ListenResult (Some "address already in use"))
       = Some p1
    /\ exited p1 = true /\ environ (world p1) = ∅.
Proof.
  destruct (exec sourceConfig samplePlatform (initialProc ∅ sampleEntropy)
              [RunMain; RunMain]) as [p|] eqn:Hrun;
    [|vm_compute in Hrun; discriminate].
  assert (Hp : exited p = false /\ proxy p = Some (theProxy, AtListen)).
  { vm_compute in Hrun. injection Hrun as <-. repeat split. }
  destruct Hp as (Hlive & Hbind).
  destruct (failed_bind_ends_the_process sourceConfig samplePlatform ∅ sampleEntropy
              [RunMain; RunMain] p theProxy "address already in use"
              Hrun Hlive Hbind)
    as (p1 & Hstep & Hex & _ & _ & _ & Henv & _).
  exists p, p1. split; [reflexivity|]. split; [exact Hstep|].
  split; [exact Hex | exact Henv].
Defined.

Lemma acme_cache_directory_failure_ends_the_process_witness :
  let pf := {| ignoreNitro := false; seedEntropyPool := None;
               assignLoAddr := None; mkdirAll := Some "read-only file system";
               selfSignedCert := Ok sampleChain; serverListen := None |} in
  exists p p1,
    exec acmeConfig pf (initialProc ∅ sampleEntropy) (firstn 6 sampleRunAcme) = Some p
    /\ step acmeConfig pf p RunMain = Some p1
    /\ exited p1 = true /\ poller p1 = None.
Proof.
  intros pf.
  destruct (exec acmeConfig pf (initialProc ∅ sampleEntropy) (firstn 6 sampleRunAcme))
    as [p|] eqn:Hrun; [|vm_compute in Hrun; discriminate].
  assert (Hp : exited p = false /\ exists router, mainPc p = AtCertificate router).
  { vm_compute in Hrun. injection Hrun as <-. split; [reflexivity|].
    eexists. reflexivity. }
  destruct Hp as (Hlive & router & Hpc).
  destruct (acme_cache_directory_failure_ends_the_process acmeConfig pf ∅
              sampleEntropy (firstn 6 sampleRunAcme) p router
              "read-only file system" eq_refl eq_refl Hrun Hlive Hpc)
    as (p1 & Hstep & Hex & Hpo & _).
  exists p, p1. split; [reflexivity|]. split; [exact Hstep|].
  split; [exact Hex | exact Hpo].
Defined.

(** ** The proxy: where it dials and what it starts *)

Lemma emits_weaken {A} (P Q : Event -> Prop) (m : M A) :
  (forall e, P e -> Q e) -> emits P m -> emits Q m.
Proof.
  intros HPQ Hm w. destruct (Hm w) as (es & Ht & Hes).
  exists es. split; [exact Ht|]. eapply Forall_impl; [exact Hes | exact HPQ].
Qed.

Lemma goPipes_app t es : goPipes (t ++ es) = goPipes t ++ goPipes es.
Proof. apply omap_app. Qed.

Lemma goPipes_noConn es : Forall noConn es -> goPipes es = [].
Proof.
  induction 1 as [|e es He _ IH]; [reflexivity|].
  destruct e; cbn in He |- *; try contradiction; exact IH.
Qed.

Lemma noConn_dialsParent e : noConn e -> dialsParent e.
Proof. destruct e; cbn; tauto. Qed.

Section Proxy.
Context `{CertLibs}.

(** What connects the goroutines started to the trace. *)
Definition bridged (t : list Event) (lr : ConnId * ConnId) : Prop :=
  In (EvAccept (fst lr)) t /\ In (EvDial parentCID 1080 (snd lr)) t.

Definition ProxyInv (p : Proc) : Prop :=
  let t := trace (world p) in
  Forall dialsParent t
  /\ (forall vp pc, proxy p = Some (vp, pc) -> vp = theProxy)
  /\ (forall router vp, mainPc p = AtGo router vp -> vp = theProxy)
  /\ (exists pairs, pipes p = flat_map bothWays pairs /\ Forall (bridged t) pairs)
  /\ pipes p = goPipes t
  /\ (forall vp l, proxy p = Some (vp, AtDial l) -> In (EvAccept l) t).

Lemma bridged_app t es lr : bridged t lr -> bridged (t ++ es) lr.
Proof. intros [Ha Hd]. split; apply in_app_iff; left; assumption. Qed.

(** A goroutine other than [Start] ran code that involves no connection. *)
Lemma run_ProxyInv {A} (m : M A) p (k : A -> World -> Proc) p' :
  emits noConn m ->
  (forall a w, world (k a w) = w) ->
  (forall a w, proxy (k a w) = proxy p) ->
  (forall a w, pipes (k a w) = pipes p) ->
  (forall a w router vp, mainPc (k a w) = AtGo router vp ->
                         (fst (m (world p)) = Returned a -> vp = theProxy)) ->
  run m p k = Some p' -> ProxyInv p -> ProxyInv p'.
Proof.
  intros Hm Hkw Hkx Hkp Hkg Hrun (Hd & Hvp & Hgo & (pairs & Hpp & Hbr) & Hgp & Hacc).
  destruct (Hm (world p)) as (es & Ht & Hes).
  assert (Hw : trace (world p') = trace (world p) ++ es
               /\ proxy p' = proxy p /\ pipes p' = pipes p).
  { apply run_cases in Hrun as [(a & _ & ->) | (_ & Hx & Hp & _ & _ & ->)].
    - rewrite Hkw, Hkx, Hkp. auto.
    - auto. }
  destruct Hw as (Hw & Hx & Hp).
  unfold ProxyInv. rewrite Hw, Hx, Hp.
  split; [|split; [|split; [|split; [|split]]]].
  - apply Forall_app. split; [exact Hd|].
    eapply Forall_impl; [exact Hes | apply noConn_dialsParent].
  - exact Hvp.
  - intros router vp Hpc.
    apply run_cases in Hrun as [(a & Hret & ->) | (Hmp & _)].
    + eapply Hkg; eauto.
    + rewrite Hmp in Hpc. eapply Hgo; eauto.
  - exists pairs. split; [exact Hpp|].
    eapply Forall_impl; [exact Hbr | intros lr; apply bridged_app].
  - rewrite goPipes_app, (goPipes_noConn es Hes), app_nil_r. exact Hgp.
  - intros vp l Hpx. apply in_app_iff. left. eapply Hacc; eauto.
Qed.

Lemma emits_setEnvVar_noConn k v : emits noConn (setEnvVar k v).
Proof.
  unfold setEnvVar, os_Setenv.
  destruct (_ || _); emits_auto.
Qed.

Lemma step_ProxyInv cfg pf p i p' :
  ProxyInv p -> step cfg pf p i = Some p' -> ProxyInv p'.
Proof.
  intros HI Hstep. apply step_kind in Hstep as [Hex Hkind].
  destruct Hkind as [Hpc Hrun|router vp Hpc ->|router Hpc ->|router Hpc ->
                    |router Hpc Hrun|router Hpc Hrun|router vp Hpc Hpx ->
                    |vp pc i' m Hpx HS Hrun|r Hpo Hrun].
  - eapply run_ProxyInv; [| | | | |exact Hrun|exact HI]; try reflexivity.
    + eapply emits_weaken; [|apply emits_main_init].
      intros e. destruct e; cbn; tauto.
    + intros a w router vp [= _ Hvp] Hret.
      destruct (main_init_outcome cfg pf (world p)) as (_ & _ & Hspec).
      rewrite Hret in Hspec.
      destruct (nitroError pf); [destruct Hspec as [? _]; discriminate|].
      case_bool_decide; [|destruct Hspec as [? _]; discriminate].
      destruct Hspec as (router' & [= ->] & _). cbn in Hvp. congruence.
  - destruct HI as (Hd & Hvp & Hgo & Hpairs & Hgp & Hacc).
    unfold ProxyInv. cbn [world proxy mainPc pipes].
    split; [exact Hd|]. split.
    { intros vp' pc [= <- <-]. eapply Hgo; eauto. }
    split; [discriminate|]. split; [exact Hpairs|]. split; [exact Hgp|].
    discriminate.
  - assert (Hrun : run (setEnvVar "HTTP_PROXY" proxyURL) p
                     (fun _ w => with_main p (AtSetHTTPS router) w)
                   = Some (with_main p (AtSetHTTPS router)
                             (add_events [EvSetenv "HTTP_PROXY" proxyURL]
                                (set_environ (<["HTTP_PROXY" := proxyURL]> (environ (world p)))
                                   (world p)))))
      by reflexivity.
    eapply run_ProxyInv; [| | | | |exact Hrun|exact HI]; try reflexivity.
    + apply emits_setEnvVar_noConn.
    + discriminate.
  - assert (Hrun : run (setEnvVar "HTTPS_PROXY" proxyURL) p
                     (fun _ w => with_main p (AtCertificate router) w)
                   = Some (with_main p (AtCertificate router)
                             (add_events [EvSetenv "HTTPS_PROXY" proxyURL]
                                (set_environ (<["HTTPS_PROXY" := proxyURL]> (environ (world p)))
                                   (world p)))))
      by reflexivity.
    eapply run_ProxyInv; [| | | | |exact Hrun|exact HI]; try reflexivity.
    + apply emits_setEnvVar_noConn.
    + discriminate.
  - eapply run_ProxyInv; [| | | | |exact Hrun|exact HI]; try reflexivity.
    + apply emits_main_certificate; cbn; auto.
    + discriminate.
  - eapply run_ProxyInv; [| | | | |exact Hrun|exact HI]; try reflexivity.
    + unfold main_listen. emits_auto.
    + discriminate.
  - destruct HI as (Hd & Hvp & Hgo & (pairs & Hpp & Hbr) & Hgp & Hacc).
    unfold ProxyInv. cbn [world proxy mainPc pipes trace add_events].
    split; [apply Forall_app; split; [exact Hd | repeat constructor]|].
    split; [intros vp' pc [= <- <-]; eapply Hvp; eauto|].
    split; [discriminate|].
    split.
    { exists pairs. split; [exact Hpp|].
      eapply Forall_impl; [exact Hbr | intros lr; apply bridged_app]. }
    split; [rewrite goPipes_app, app_nil_r; exact Hgp|].
    discriminate.
  - (* a step of Start *)
    destruct HI as (Hd & Hvp & Hgo & (pairs & Hpp & Hbr) & Hgp & Hacc).
    pose proof (Hvp _ _ Hpx) as ->.
    assert (Hgo' : forall q, mainPc q = mainPc p ->
                   forall router vp, mainPc q = AtGo router vp -> vp = theProxy).
    { intros q -> router vp. apply Hgo. }
    destruct pc; destruct i' as [| |[e|]| |[c|e]|[c|e]|]; try discriminate;
      injection HS as <-; unfold run in Hrun; revert Hrun; run_M;
      intros [= <-]; unfold ProxyInv;
      cbn [world proxy mainPc pipes trace add_events fst snd];
      rewrite ?app_nil_r, <- ?app_assoc; cbn [app].
    all: (split; [apply Forall_app; split; [exact Hd | repeat constructor]|]).
    all: (split; [intros vp' pc' Hq;
                  first [injection Hq as <- _; reflexivity | eapply Hvp; exact Hq]|]).
    all: (split; [apply Hgo|]).
    all: rewrite ?goPipes_app; cbn [goPipes omap list_omap]; rewrite ?app_nil_r.
    all: try (split;
              [exists pairs; split; [exact Hpp|];
               eapply Forall_impl; [exact Hbr | intros lr; apply bridged_app]|];
              split; [exact Hgp|]).
    all: try (intros vp' l' Hq; rewrite ?Hpx in Hq; try discriminate Hq;
              apply in_app_iff; left; eapply Hacc; exact Hq).
    + (* a connection was accepted *)
      intros vp' l' [= _ <-]. apply in_app_iff. right. left. reflexivity.
    + (* the dial succeeded *)
      split.
      { exists (pairs ++ [(lconn, c)]). rewrite flat_map_app. cbn.
        split; [rewrite Hpp; reflexivity|].
        apply Forall_app. split.
        - eapply Forall_impl; [exact Hbr | intros lr; apply bridged_app].
        - apply Forall_cons_2; [|apply Forall_nil_2]. split; cbn.
          + apply in_app_iff. left. eapply Hacc. exact Hpx.
          + apply in_app_iff. right. left. reflexivity. }
      split; [rewrite Hgp; reflexivity|].
      discriminate.
  - eapply run_ProxyInv; [| | | | |exact Hrun|exact HI]; try reflexivity.
    + apply emits_acmePoll; cbn; auto.
    + intros a w router vp Hpc _. eapply (proj1 (proj2 (proj2 HI))). exact Hpc.
Qed.

(** X18: every dial of the proxy goes to the parent instance, context 3, port
    1080, whatever the run. *)
Theorem proxy_dials_only_the_parent_instance
    (cfg : Config) (pf : Platform) (env : gmap string string) (rnd : bytes)
    (inputs : list Input) (p : Proc)
    (Hrun : exec cfg pf (initialProc env rnd) inputs = Some p) :
  (forall cid port c, In (EvDial cid port c) (trace (world p)) ->
                      cid = parentCID /\ port = 1080)
  /\ (forall vp pc, proxy p = Some (vp, pc) -> raddr vp = (3, 1080)).
Proof.
  assert (HI : ProxyInv p).
  { revert Hrun. apply (exec_invariant cfg pf ProxyInv).
    - intros q i q'. apply step_ProxyInv.
    - unfold ProxyInv. cbn.
      split; [constructor|]. split; [discriminate|]. split; [discriminate|].
      split; [exists []; split; [reflexivity | constructor]|].
      split; [reflexivity | discriminate]. }
  destruct HI as (Hd & Hvp & _). split.
  - intros cid port c Hin.
    apply list_elem_of_In in Hin.
    exact (proj1 (Forall_forall _ _) Hd _ Hin).
  - intros vp pc Hpx. rewrite (Hvp _ _ Hpx). reflexivity.
Qed.

(** X19: forwarding goroutines are started in pairs, one for each direction, and
    only for a connection that was accepted together with the connection
    that was dialed for it; the goroutines of the process are those the
    trace shows, in order. *)
Theorem pipes_are_started_in_pairs
    (cfg : Config) (pf : Platform) (env : gmap string string) (rnd : bytes)
    (inputs : list Input) (p : Proc)
    (Hrun : exec cfg pf (initialProc env rnd) inputs = Some p) :
  let t := trace (world p) in
  (exists pairs,
      pipes p = flat_map bothWays pairs
      /\ forall l r, In (l, r) pairs ->
                     In (EvAccept l) t /\ In (EvDial parentCID 1080 r) t)
  /\ pipes p = goPipes t
  /\ Nat.Even (length (pipes p)).
Proof.
  intros t. subst t.
  assert (HI : ProxyInv p).
  { revert Hrun. apply (exec_invariant cfg pf ProxyInv).
    - intros q i q'. apply step_ProxyInv.
    - unfold ProxyInv. cbn.
      split; [constructor|]. split; [discriminate|]. split; [discriminate|].
      split; [exists []; split; [reflexivity | constructor]|].
      split; [reflexivity | discriminate]. }
  destruct HI as (_ & _ & _ & (pairs & Hpp & Hbr) & Hgp & _).
  split; [|split; [exact Hgp|]].
  - exists pairs. split; [exact Hpp|]. intros l r Hin.
    apply list_elem_of_In in Hin.
    exact (proj1 (Forall_forall _ _) Hbr _ Hin).
  - rewrite Hpp. exists (length pairs). clear.
    induction pairs as [|lr pairs IH]; [reflexivity|].
    cbn [flat_map bothWays app length]. rewrite IH. lia.
Qed.

End Proxy.

Lemma proxy_dials_only_the_parent_instance_witness :
  exists p,
    exec sourceConfig samplePlatform (initialProc ∅ sampleEntropy) sampleRun = Some p
    /\ In (EvDial 3 1080 3%nat) (trace (world p)).
Proof.
  destruct (exec sourceConfig samplePlatform (initialProc ∅ sampleEntropy) sampleRun)
    as [p|] eqn:Hrun; [|vm_compute in Hrun; discriminate].
  exists p. split; [reflexivity|].
  destruct (proxy_dials_only_the_parent_instance sourceConfig samplePlatform ∅
              sampleEntropy sampleRun p Hrun) as [Hdial _].
  assert (Hin : exists cid port, In (EvDial cid port 3%nat) (trace (world p))).
  { vm_compute in Hrun. injection Hrun as <-. do 2 eexists. cbn.
    repeat (first [left; reflexivity | right]). }
  destruct Hin as (cid & port & Hin).
  destruct (Hdial _ _ _ Hin) as [-> ->]. exact Hin.
Defined.

Lemma pipes_are_started_in_pairs_witness :
  exists p,
    exec sourceConfig samplePlatform (initialProc ∅ sampleEntropy) sampleRun = Some p
    /\ pipes p = goPipes (trace (world p))
    /\ pipes p = [(2, 3); (3, 2)]%nat.
Proof.
  destruct (exec sourceConfig samplePlatform (initialProc ∅ sampleEntropy) sampleRun)
    as [p|] eqn:Hrun; [|vm_compute in Hrun; discriminate].
  exists p. split; [reflexivity|].
  destruct (pipes_are_started_in_pairs sourceConfig samplePlatform ∅
              sampleEntropy sampleRun p Hrun) as (_ & Hgp & _).
  split; [exact Hgp|].
  vm_compute in Hrun. injection Hrun as <-. reflexivity.
Defined.

(** ** More on the forwarding goroutines *)

Section PipeMore.

(** What a run of [pipe] or of its loop does to the two connections. *)
Definition forwards (src dst : ConnId) (st st' : NetState) (o : PipeEnd)
    (ks kd : Conn) : Prop :=
  exists ks' kd' data rest,
    conns st' !! src = Some ks' /\ conns st' !! dst = Some kd'
    /\ sent kd' = sent kd ++ data
    /\ stream (rx ks) = data ++ rest
    /\ rx kd' = rx kd /\ closed kd' = closed kd
    /\ sent ks' = sent ks
    /\ (o = PipeBlocked -> data = stream (rx ks) /\ rx ks' = [] /\ closed ks' = closed ks)
    /\ (o = PipeRunning -> closed ks' = closed ks).

Ltac fw_done :=
  repeat split; rewrite ?app_nil_r; try assumption; try discriminate;
  try reflexivity;
  try (symmetry; assumption); try (cbn; congruence).

Lemma pipe_loop_forwards fuel : forall src dst st ks kd,
  src <> dst -> conns st !! src = Some ks -> conns st !! dst = Some kd ->
  forwards src dst st (snd (pipe_loop fuel src dst st))
    (fst (pipe_loop fuel src dst st)) ks kd
  /\ (fst (pipe_loop fuel src dst st) = PipeReturned ->
      exists ks', conns (snd (pipe_loop fuel src dst st)) !! src = Some ks'
                  /\ closed ks' = closed ks).
Proof.
  induction fuel as [|fuel IH]; intros src dst st ks kd Hne Hs Hd.
  { cbn [pipe_loop fst snd]. split; [|discriminate].
    exists ks, kd, [], (stream (rx ks)).
    rewrite app_nil_r. fw_done. }
  cbn [pipe_loop]. unfold conn_Read. rewrite Hs.
  destruct (closed ks) eqn:Hcl.
  { cbn [fst snd net_event conns]. split.
    - exists ks, kd, [], (stream (rx ks)). rewrite app_nil_r. fw_done.
    - intros _. exists ks. split; [exact Hs | exact Hcl]. }
  destruct (rx ks) as [|[bs|bs msg] items] eqn:Hrx.
  - (* nothing arrives: the goroutine blocks *)
    cbn [fst snd]. split; [|discriminate].
    exists ks, kd, [], []. rewrite app_nil_r, Hrx. fw_done.
  - (* some bytes arrive *)
    set (n := Nat.min pipeBufSize (length bs)).
    set (left := if (n <? length bs)%nat then RxData (skipn n bs) :: items else items).
    set (ks1 := {| rx := left; tx := tx ks; sent := sent ks; closed := false |}).
    set (st1 := net_event _ (net_update src ks1 st)).
    assert (Hs1 : conns st1 !! src = Some ks1) by apply lookup_insert_eq.
    assert (Hd1 : conns st1 !! dst = Some kd).
    { subst st1. cbn [conns net_event net_update].
      rewrite lookup_insert_ne by exact Hne. exact Hd. }
    assert (Hstream : bs ++ stream items = firstn n bs ++ stream left).
    { subst left. destruct (n <? length bs)%nat eqn:Hlt.
      - cbn [stream]. rewrite app_assoc, firstn_skipn. reflexivity.
      - apply Nat.ltb_ge in Hlt. rewrite firstn_all2 by exact Hlt. reflexivity. }
    unfold conn_Write. rewrite Hd1.
    destruct (closed kd) eqn:Hcld.
    { cbn [fst snd net_event conns]. split.
      - exists ks1, kd, [], (bs ++ stream items). rewrite app_nil_r, Hrx. fw_done.
      - intros _. exists ks1. split; [exact Hs1 | first [reflexivity | symmetry; exact Hcl | exact Hcl]]. }
    set (res := match tx kd with
                | [] | TxAll :: _ => (length (firstn n bs), None)
                | TxShort m :: _ => (Nat.min m (length (firstn n bs)), None)
                | TxErr m msg :: _ => (Nat.min m (length (firstn n bs)), Some msg)
                end).
    destruct res as [m err] eqn:Hres.
    set (kd2 := {| rx := rx kd; tx := tail (tx kd);
                   sent := sent kd ++ firstn m (firstn n bs); closed := false |}).
    set (st2 := net_event _ (net_update dst kd2 st1)).
    assert (Hd2 : conns st2 !! dst = Some kd2) by apply lookup_insert_eq.
    assert (Hs2 : conns st2 !! src = Some ks1).
    { subst st2. cbn [conns net_event net_update].
      rewrite lookup_insert_ne by congruence. exact Hs1. }
    assert (Hstop : forwards src dst st st2 PipeReturned ks kd).
    { exists ks1, kd2, (firstn m (firstn n bs)), (skipn m (firstn n bs) ++ stream left).
      rewrite Hrx. cbn [stream]. rewrite Hstream, app_assoc, firstn_skipn.
      fw_done. }
    destruct err as [e|].
    { cbn [fst snd]. split.
      - destruct Hstop as (a & b & c & d & H1 & H2 & H3).
        exists a, b, c, d. cbn [conns net_event]. split; [exact H1|].
        split; [exact H2 | exact H3].
      - intros _. exists ks1. split; [exact Hs2 | first [reflexivity | symmetry; exact Hcl | exact Hcl]]. }
    case_bool_decide as Hm.
    { cbn [fst snd]. split.
      - destruct Hstop as (a & b & c & d & H1 & H2 & H3).
        exists a, b, c, d. cbn [conns net_event]. split; [exact H1|].
        split; [exact H2 | exact H3].
      - intros _. exists ks1. split; [exact Hs2 | first [reflexivity | symmetry; exact Hcl | exact Hcl]]. }
    (* the whole chunk was written: the loop goes on *)
    destruct (IH src dst st2 ks1 kd2 Hne Hs2 Hd2) as [Hfw Hret].
    split.
    + destruct Hfw as (ks' & kd' & data & rest & H1 & H2 & H3 & H4 & H5 & H6 & H7 & H8 & H9).
      exists ks', kd', (firstn n bs ++ data), rest.
      split; [exact H1|]. split; [exact H2|].
      split.
      { rewrite H3. cbn [sent kd2]. rewrite Hm, firstn_all, app_assoc. reflexivity. }
      split.
      { rewrite Hrx. cbn [stream]. rewrite Hstream. cbn [rx ks1] in H4.
        rewrite H4, app_assoc. reflexivity. }
      split; [exact H5|]. split; [rewrite H6; symmetry; exact Hcld|].
      split; [exact H7|].
      split.
      * intros Hb. destruct (H8 Hb) as (Hall & Hnil & Hc).
        split; [|split; [exact Hnil | rewrite Hc; symmetry; exact Hcl]].
        rewrite Hrx. cbn [stream]. rewrite Hstream, Hall. reflexivity.
      * intros Hr. rewrite (H9 Hr). symmetry. exact Hcl.
    + intros Hr. destruct (Hret Hr) as (ks' & Hk & Hc).
      exists ks'. split; [exact Hk | exact Hc].
  - (* an error arrives *)
    set (n := Nat.min pipeBufSize (length bs)).
    set (ks1 := {| rx := items; tx := tx ks; sent := sent ks; closed := false |}).
    cbn [fst snd net_event conns net_update].
    assert (Hs1 : <[src := ks1]> (conns st) !! src = Some ks1) by apply lookup_insert_eq.
    assert (Hd1 : <[src := ks1]> (conns st) !! dst = Some kd).
    { rewrite lookup_insert_ne by exact Hne. exact Hd. }
    split.
    + exists ks1, kd, [], []. rewrite Hrx. fw_done.
    + intros _. exists ks1. split; [exact Hs1 | first [reflexivity | symmetry; exact Hcl | exact Hcl]].
Qed.

Lemma pipe_loop_ends fuel : forall src dst st ks,
  src <> dst -> conns st !! src = Some ks -> (weight (rx ks) < fuel)%nat ->
  fst (pipe_loop fuel src dst st) <> PipeRunning.
Proof.
  induction fuel as [|fuel IH]; intros src dst st ks Hne Hs Hw; [lia|].
  cbn [pipe_loop]. unfold conn_Read. rewrite Hs.
  destruct (closed ks) eqn:Hcl; [discriminate|].
  destruct (rx ks) as [|[bs|bs msg] items] eqn:Hrx; [discriminate| |discriminate].
  set (n := Nat.min pipeBufSize (length bs)).
  set (left := if (n <? length bs)%nat then RxData (skipn n bs) :: items else items).
  set (ks1 := {| rx := left; tx := tx ks; sent := sent ks; closed := false |}).
  set (st1 := net_event _ (net_update src ks1 st)).
  assert (Hleft : (weight left < fuel)%nat).
  { cbn [weight] in Hw. subst left. pose proof pipeBufSize_pos.
    destruct (n <? length bs)%nat eqn:Hlt.
    - apply Nat.ltb_lt in Hlt. cbn [weight]. rewrite length_skipn. lia.
    - lia. }
  unfold conn_Write.
  destruct (conns st1 !! dst) as [kd|] eqn:Hd; [|discriminate].
  destruct (closed kd); [discriminate|].
  destruct (match tx kd with
            | [] | TxAll :: _ => (length (firstn n bs), None)
            | TxShort m :: _ => (Nat.min m (length (firstn n bs)), None)
            | TxErr m msg :: _ => (Nat.min m (length (firstn n bs)), Some msg)
            end) as [m [e|]]; [discriminate|].
  case_bool_decide; [discriminate|].
  apply (IH src dst _ ks1 Hne); [|exact Hleft].
  cbn [conns net_event net_update].
  rewrite lookup_insert_ne by congruence. apply lookup_insert_eq.
Qed.

Lemma pipe_forwards fuel src dst st ks kd :
  src <> dst -> conns st !! src = Some ks -> conns st !! dst = Some kd ->
  forwards src dst st (snd (pipe fuel src dst st)) (fst (pipe fuel src dst st)) ks kd
  /\ (fst (pipe fuel src dst st) = PipeReturned ->
      isClosed (snd (pipe fuel src dst st)) src = Some true)
  /\ ((weight (rx ks) < fuel)%nat -> fst (pipe fuel src dst st) <> PipeRunning).
Proof.
  intros Hne Hs Hd. unfold pipe.
  destruct (pipe_loop_forwards fuel src dst st ks kd Hne Hs Hd) as [Hfw Hret].
  pose proof (pipe_loop_ends fuel src dst st ks Hne Hs) as Hends.
  destruct (pipe_loop fuel src dst st) as [[| |] st1]; cbn [fst snd] in *.
  2,3: split; [exact Hfw|]; split; [discriminate | exact Hends].
  destruct (Hret eq_refl) as (ks1 & Hs1 & Hc1).
  destruct Hfw as (ks' & kd' & data & rest & H1 & H2 & H3 & H4 & H5 & H6 & H7 & _ & _).
  assert (ks' = ks1) as -> by congruence.
  unfold conn_Close. rewrite Hs1.
  destruct (closed ks1) eqn:Hcl; cbn [fst snd].
  - split; [|split; [|discriminate]].
    + exists ks1, kd', data, rest. cbn [conns net_event]. fw_done.
    + intros _. unfold isClosed. cbn [conns net_event]. rewrite Hs1. cbn. congruence.
  - split; [|split; [|discriminate]].
    + eexists _, kd', data, rest. cbn [conns net_event net_update].
      rewrite lookup_insert_eq, lookup_insert_ne by exact Hne. fw_done.
    + intros _. unfold isClosed. cbn [conns net_event net_update].
      rewrite lookup_insert_eq. reflexivity.
Qed.

(** X20: what a forwarding goroutine writes to its destination is a prefix of
    what its source delivers before the first error, in order, with
    nothing repeated or left out in between; when it ends up blocked in
    [Read], it has written all of it.  It never reads from its destination
    nor writes to its source, and when it returns its source is closed.
    Bytes that were read in the turn that fails are not written again. *)
Theorem pipe_forwards_the_stream_in_order
    (fuel : nat) (src dst : ConnId) (st : NetState) (ks kd : Conn)
    (Hne : src <> dst)
    (Hsrc : conns st !! src = Some ks) (Hdst : conns st !! dst = Some kd) :
  let o := fst (pipe fuel src dst st) in
  let st' := snd (pipe fuel src dst st) in
  exists ks' kd' data rest,
    conns st' !! src = Some ks' /\ conns st' !! dst = Some kd'
    /\ sent kd' = sent kd ++ data
    /\ stream (rx ks) = data ++ rest
    /\ rx kd' = rx kd /\ closed kd' = closed kd
    /\ sent ks' = sent ks
    /\ (o = PipeBlocked -> data = stream (rx ks) /\ rx ks' = [])
    /\ (o = PipeReturned -> closed ks' = true).
Proof.
  intros o st'. subst o st'.
  destruct (pipe_forwards fuel src dst st ks kd Hne Hsrc Hdst) as (Hfw & Hcl & _).
  destruct Hfw as (ks' & kd' & data & rest & H1 & H2 & H3 & H4 & H5 & H6 & H7 & H8 & _).
  exists ks', kd', data, rest.
  repeat (split; [assumption|]). split.
  - intros Hb. destruct (H8 Hb) as (Ha & Hn & _). split; assumption.
  - intros Hr. specialize (Hcl Hr). unfold isClosed in Hcl. rewrite H1 in Hcl.
    cbn in Hcl. congruence.
Qed.





(** X22: when one direction of a bridged pair has ended and closed its source
    [a], the goroutine of the other direction, which reads from [b] and
    writes to [a], ends in the first turn in which [b] delivers anything,
    closing [b], and what it read in that turn is lost; as long as [b]
    delivers nothing it stays blocked in [Read] and [b] stays open. *)
Theorem other_direction_ends_when_its_source_delivers
    (fuel : nat) (a b : ConnId) (st : NetState) (ka kb : Conn)
    (Hne : a <> b)
    (Ha : conns st !! a = Some ka) (Hb : conns st !! b = Some kb)
    (Hclosed : closed ka = true) (Hopen : closed kb = false) :
  let o := fst (pipe (S fuel) b a st) in
  let st' := snd (pipe (S fuel) b a st) in
  match rx kb with
  | [] => o = PipeBlocked /\ st' = st
  | _ :: _ =>
      o = PipeReturned
      /\ isClosed st' b = Some true
      /\ conns st' !! a = Some ka
      /\ In (NClose b None) (netTrace st')
  end.
Proof.
  intros o st'. subst o st'.
  unfold pipe. cbn [pipe_loop]. unfold conn_Read. rewrite Hb, Hopen.
  destruct (rx kb) as [|[bs|bs msg] items]; [split; reflexivity| |].
  - unfold conn_Write. cbn [conns net_event net_update].
    rewrite (lookup_insert_ne (M := gmap ConnId)) by congruence.
    rewrite Ha, Hclosed. cbn [fst snd].
    unfold conn_Close. cbn [conns net_event net_update].
    rewrite lookup_insert_eq. cbn [closed fst snd].
    split; [reflexivity|]. split.
    { unfold isClosed. cbn [conns net_event net_update].
      rewrite lookup_insert_eq. reflexivity. }
    split.
    { cbn [conns net_event net_update].
      rewrite !(lookup_insert_ne (M := gmap ConnId)) by congruence. exact Ha. }
    cbn [netTrace net_event net_update]. apply in_app_iff. right. left. reflexivity.
  - cbn [fst snd]. unfold conn_Close. cbn [conns net_event net_update].
    rewrite lookup_insert_eq. cbn [closed fst snd].
    split; [reflexivity|]. split.
    { unfold isClosed. cbn [conns net_event net_update].
      rewrite lookup_insert_eq. reflexivity. }
    split.
    { cbn [conns net_event net_update].
      rewrite !(lookup_insert_ne (M := gmap ConnId)) by congruence. exact Ha. }
    cbn [netTrace net_event net_update]. apply in_app_iff. right. left. reflexivity.
Qed.

End PipeMore.

(** A pipe from connection 1 to connection 2 on which five bytes arrive in
    two pieces: all five are written, in order, and the goroutine blocks. *)
Lemma pipe_forwards_the_stream_in_order_witness :
  let ks := freshConn [RxData [1; 2; 3]; RxData [4; 5]] [] in
  let kd := freshConn [] [] in
  exists kd',
    conns (snd (pipe 5 1%nat 2%nat (twoConns ks kd))) !! 2%nat = Some kd'
    /\ sent kd' = [1; 2; 3; 4; 5].
Proof.
  intros ks kd.
  destruct (pipe_forwards_the_stream_in_order 5 1%nat 2%nat (twoConns ks kd) ks kd
              ltac:(discriminate) eq_refl eq_refl)
    as (ks' & kd' & data & rest & _ & Hd & Hsent & _ & _ & _ & _ & Hblocked & _).
  exists kd'. split; [exact Hd|].
  destruct Hblocked as [Hall _]; [vm_compute; reflexivity|].
  rewrite Hsent, Hall. reflexivity.
Defined.


(** Connection 1 is closed; the goroutine from 2 to 1 ends when a byte
    arrives on 2, and closes 2. *)
Lemma other_direction_ends_when_its_source_delivers_witness :
  let ka := {| rx := []; tx := []; sent := []; closed := true |} in
  let kb := freshConn [RxData [9]] [] in
  let st' := snd (pipe 1 2%nat 1%nat (twoConns ka kb)) in
  isClosed st' 2%nat = Some true /\ conns st' !! 1%nat = Some ka.
Proof.
  intros ka kb st'.
  destruct (other_direction_ends_when_its_source_delivers 0 1%nat 2%nat
              (twoConns ka kb) ka kb ltac:(discriminate) eq_refl eq_refl
              eq_refl eq_refl) as (_ & Hcl & Hka & _).
  split; [exact Hcl | exact Hka].
Defined.

(** ** The server comes up last *)

Section ServerUp.
Context `{CertLibs}.

(** An event other than the bind of the server's listener. *)
Definition notServer (cfg : Config) (e : Event) : Prop :=
  e <> EvListen (srvAddr cfg).

(** The listener of the server is bound only once [main] is serving. *)
Definition ServerInv (cfg : Config) (p : Proc) : Prop :=
  In (EvListen (srvAddr cfg)) (trace (world p)) ->
  exists router, mainPc p = Serving router.

Lemma run_ServerInv cfg {A} (m : M A) p (k : A -> World -> Proc) p' :
  emits (notServer cfg) m ->
  (forall a w, world (k a w) = w) ->
  (forall a w router, mainPc p = Serving router ->
                      mainPc (k a w) = Serving router) ->
  run m p k = Some p' -> ServerInv cfg p -> ServerInv cfg p'.
Proof.
  intros Hm Hkw Hkp Hrun HI Hin.
  destruct (Hm (world p)) as (es & Ht & Hes).
  assert (Hw : trace (world p') = trace (world p) ++ es).
  { apply run_cases in Hrun as [(a & _ & ->) | (_ & _ & _ & _ & _ & ->)];
      [rewrite Hkw|]; exact Ht. }
  rewrite Hw in Hin. apply in_app_iff in Hin as [Hin|Hin].
  - destruct (HI Hin) as [router Hr]. exists router.
    apply run_cases in Hrun as [(a & _ & ->) | (Hmp & _)].
    + apply Hkp. exact Hr.
    + rewrite Hmp. exact Hr.
  - exfalso. apply list_elem_of_In in Hin.
    exact (proj1 (Forall_forall _ _) Hes _ Hin eq_refl).
Qed.

Lemma quiet_notServer cfg e : quiet e -> notServer cfg e.
Proof. destruct e; cbn; try contradiction; intros _; discriminate. Qed.

Lemma step_ServerInv cfg pf p i p' :
  ServerInv cfg p -> step cfg pf p i = Some p' -> ServerInv cfg p'.
Proof.
  intros HI Hstep. apply step_kind in Hstep as [Hex Hkind].
  destruct Hkind as [Hpc Hrun|router vp Hpc ->|router Hpc ->|router Hpc ->
                    |router Hpc Hrun|router Hpc Hrun|router vp Hpc Hpx ->
                    |vp pc i' m Hpx HS Hrun|r Hpo Hrun].
  - eapply run_ServerInv; [| | |exact Hrun|exact HI]; [|reflexivity|].
    + eapply emits_weaken; [apply quiet_notServer | apply emits_main_init].
    + intros a w router. rewrite Hpc. discriminate.
  - intros Hin. destruct (HI Hin) as [r Hr]. congruence.
  - intros Hin. cbn [with_main world trace add_events] in Hin.
    apply in_app_iff in Hin as [Hin|[Hin|[]]]; [|discriminate].
    destruct (HI Hin) as [r Hr]. congruence.
  - intros Hin. cbn [with_main world trace add_events] in Hin.
    apply in_app_iff in Hin as [Hin|[Hin|[]]]; [|discriminate].
    destruct (HI Hin) as [r Hr]. congruence.
  - eapply run_ServerInv; [| | |exact Hrun|exact HI]; [|reflexivity|].
    + apply emits_main_certificate; intros; discriminate.
    + intros a w r. rewrite Hpc. discriminate.
  - destruct (serverListen pf) as [e|] eqn:Hsl.
    + eapply run_ServerInv; [| | |exact Hrun|exact HI]; [|reflexivity|].
      * unfold main_listen. rewrite Hsl. cbn [fail_on].
        apply emits_bind; [apply emits_log_Printf; discriminate|intros _].
        apply emits_log_Fatal; discriminate.
      * intros a w r. rewrite Hpc. discriminate.
    + assert (Hret : exists w', main_listen cfg pf (world p) = (Returned tt, w')).
      { unfold main_listen. rewrite Hsl. cbn [fail_on]. run_M. eexists. reflexivity. }
      destruct Hret as [w' Hret]. unfold run in Hrun.
      rewrite Hret in Hrun. injection Hrun as <-.
      intros _. eexists. reflexivity.
  - intros Hin. cbn [world trace add_events] in Hin.
    apply in_app_iff in Hin as [Hin|[Hin|[]]]; [|discriminate].
    destruct (HI Hin) as [r Hr]. congruence.
  - eapply run_ServerInv; [| | |exact Hrun|exact HI]; [|reflexivity|auto].
    destruct pc; destruct i' as [| |[e|]| |[c|e]|[c|e]|]; try discriminate;
      injection HS as <-; emits_auto; try discriminate.
  - eapply run_ServerInv; [| | |exact Hrun|exact HI]; [|reflexivity|auto].
    apply emits_acmePoll; intros; discriminate.
Qed.

(** X23: the listener of the web server is bound last: in every state of
    every run in which it is bound, [main] is serving, the key of the
    strategy in use is installed, the readiness signal of the proxy has been
    received and both proxy variables are set.  No request reaches a
    handler before the key exists. *)
Theorem server_listens_last
    (cfg : Config) (pf : Platform) (env : gmap string string) (rnd : bytes)
    (inputs : list Input) (p : Proc)
    (Hrun : exec cfg pf (initialProc env rnd) inputs = Some p)
    (Hup : In (EvListen (srvAddr cfg)) (trace (world p))) :
  (exists router, mainPc p = Serving router)
  /\ installedKey (useCryptoPAn cfg) (world p)
     = Some (firstn (keySize (useCryptoPAn cfg)) rnd)
  /\ In EvReady (trace (world p))
  /\ environ (world p) !! "HTTP_PROXY" = Some proxyURL
  /\ environ (world p) !! "HTTPS_PROXY" = Some proxyURL.
Proof.
  assert (Hs : ServerInv cfg p).
  { revert Hrun. apply (exec_invariant cfg pf (ServerInv cfg)).
    - intros q i q'. apply step_ServerInv.
    - intros []. }
  destruct (Hs Hup) as [router Hpc].
  assert (Hk : KeyInv cfg env rnd p).
  { revert Hrun. apply (exec_invariant cfg pf (KeyInv cfg env rnd)).
    - intros q i q'. apply step_KeyInv.
    - right. reflexivity. }
  assert (He : environ (world p) = environAt env (mainPc p)).
  { revert Hrun.
    apply (exec_invariant cfg pf
             (fun q => environ (world q) = environAt env (mainPc q)));
      [|reflexivity].
    intros q i q'. apply step_environAt. }
  assert (Hr : Inv p).
  { revert Hrun. apply exec_Inv. apply initial_Inv. }
  split; [exists router; exact Hpc|].
  unfold KeyInv in Hk. rewrite Hpc in Hk. destruct Hk as [_ Hk].
  unfold keyStore, keyStoreAfter in Hk. injection Hk as Hh Hc _.
  split.
  { unfold installedKey. destruct (useCryptoPAn cfg); [rewrite Hc|rewrite Hh];
      reflexivity. }
  split.
  { unfold Inv in Hr. rewrite Hpc in Hr.
    destruct (proxy p) as [[vp pc]|]; [|contradiction].
    destruct pc; cbn in Hr; try contradiction;
      destruct Hr as (pre & post & -> & _); apply in_app_iff; right; left;
      reflexivity. }
  rewrite He, Hpc. cbn [environAt]. split.
  - rewrite lookup_insert_ne by discriminate. apply lookup_insert_eq.
  - apply lookup_insert_eq.
Qed.

End ServerUp.

Lemma server_listens_last_witness :
  exists p,
    exec sourceConfig samplePlatform (initialProc ∅ sampleEntropy) sampleRun = Some p
    /\ In (EvListen ":8080") (trace (world p))
    /\ In EvReady (trace (world p)).
Proof.
  destruct (exec sourceConfig samplePlatform (initialProc ∅ sampleEntropy) sampleRun)
    as [p|] eqn:Hrun; [|vm_compute in Hrun; discriminate].
  exists p. split; [reflexivity|].
  assert (Hup : In (EvListen (srvAddr sourceConfig)) (trace (world p))).
  { vm_compute in Hrun. injection Hrun as <-. cbn.
    repeat (first [left; reflexivity | right]). }
  destruct (server_listens_last sourceConfig samplePlatform ∅ sampleEntropy
              sampleRun p Hrun Hup) as (_ & _ & Hready & _).
  split; [exact Hup | exact Hready].
Defined.

(** ** When the certificate arrives *)

Section AcmeHit.
Context `{CertLibs}.

(** X24: when [cache.Get] delivers the certificates, the goroutine of
    [setupAcme] logs that and sets the fingerprint from the first leaf
    certificate; if there is none, or what was cached cannot be read, it
    ends the whole process, server included.  Nothing else changes: not the
    key, not the environment, not where the other goroutines stand. *)
Theorem acme_cache_hit_sets_the_fingerprint_or_ends_the_process
    (Hcons : pem_Decode_consumes)
    (cfg : Config) (pf : Platform) (p : Proc) (rawData : bytes)
    (Hlive : exited p = false) (Hwait : poller p = Some false) :
  exists p1,
    step cfg pf p (CacheResult (Ok rawData)) = Some p1
    /\ mainPc p1 = mainPc p /\ proxy p1 = proxy p /\ pipes p1 = pipes p
    /\ keyStore (world p1) = keyStore (world p)
    /\ environ (world p1) = environ (world p)
    /\ ((exists pre b c post,
            pemChain rawData = pre ++ b :: post
            /\ Forall skipped pre /\ classify b = Leaf c
            /\ poller p1 = Some true /\ exited p1 = false
            /\ certSha256 (world p1) = sha256.Sum256 (Raw c)
            /\ logLines (world p1)
               = logLines (world p)
                 ++ ["Got certificates from cache.  Proceeding with start.";
                     "SHA-256 of server's certificate: "
                     +:+ fmt_x (sha256.Sum256 (Raw c))])
        \/ (exited p1 = true /\ poller p1 = Some false
            /\ certSha256 (world p1) = certSha256 (world p)
            /\ exists line,
                 logLines (world p1)
                 = logLines (world p)
                   ++ ["Got certificates from cache.  Proceeding with start.";
                       line])).
Proof.
  unfold step. rewrite Hlive, Hwait. unfold run, acmePoll. run_M.
  set (w1 := add_events _ (world p)).
  unfold setCertFingerprint.
  destruct (loop_total Hcons (S (length rawData)) (S (length rawData)) []
              rawData w1)
    as [(pre & b & c & post & Hchain & Hsk & Hleaf & Hloop) | (line & Hloop)];
    try lia; unfold bytes in Hloop.
  - eexists. split; [rewrite Hloop; reflexivity|].
    cbn [mainPc proxy pipes world poller exited].
    do 5 (split; [reflexivity|]).
    left. exists pre, b, c, post.
    split; [exact Hchain|]. split; [exact Hsk|]. split; [exact Hleaf|].
    do 3 (split; [reflexivity|]).
    subst w1. unfold logLines.
    cbn [trace add_events set_certSha256].
    rewrite !omap_app. cbn [omap list_omap]. rewrite <- app_assoc. reflexivity.
  - eexists. split; [rewrite Hloop; reflexivity|].
    cbn [mainPc proxy pipes world poller exited].
    do 5 (split; [reflexivity|]).
    right. split; [reflexivity|]. split; [exact Hwait|]. split; [reflexivity|].
    exists line. subst w1. unfold logLines.
    cbn [trace add_events].
    rewrite !omap_app. cbn [omap list_omap]. rewrite <- app_assoc. reflexivity.
Qed.

End AcmeHit.

(** On the sample start of the build with ACME: the cache delivers a chain
    without a leaf certificate, and the process ends. *)
Lemma acme_cache_hit_sets_the_fingerprint_or_ends_the_process_witness :
  exists p p1,
    exec acmeConfig samplePlatform (initialProc ∅ sampleEntropy)
      (firstn 8 sampleRunAcme) = Some p
    /\ step acmeConfig samplePlatform p (CacheResult (Ok sampleChainNoLeaf)) = Some p1
    /\ exited p1 = true
    /\ keyStore (world p1) = keyStore (world p).
Proof.
  destruct (exec acmeConfig samplePlatform (initialProc ∅ sampleEntropy)
              (firstn 8 sampleRunAcme)) as [p|] eqn:Hrun;
    [|vm_compute in Hrun; discriminate].
  assert (Hp : exited p = false /\ poller p = Some false).
  { vm_compute in Hrun. injection Hrun as <-. split; reflexivity. }
  destruct Hp as [Hlive Hwait].
  destruct (acme_cache_hit_sets_the_fingerprint_or_ends_the_process
              sample_pem_Decode_consumes acmeConfig samplePlatform p
              sampleChainNoLeaf Hlive Hwait)
    as (p1 & Hstep & _ & _ & _ & Hkey & _ & Hcase).
  exists p, p1. split; [reflexivity|]. split; [exact Hstep|].
  split; [|exact Hkey].
  destruct Hcase as [(pre & b & c & post & Hchain & Hsk & Hleaf & _) | (Hex & _)];
    [|exact Hex].
  exfalso. vm_compute in Hchain.
  destruct pre as [|b1 [|b2 [|b3 pre]]]; cbn in Hchain.
  - injection Hchain as <- _. discriminate Hleaf.
  - injection Hchain as _ <- _. discriminate Hleaf.
  - injection Hchain as _ _ Hnil. discriminate Hnil.
  - injection Hchain as _ _ Hnil. discriminate Hnil.
Defined.
